(** * daemon3.py: the IO-Link master polling daemon

    A shallow embedding of [src/daemon3.py]: the sensor codec
    ([IOLinkSensorInformation.datatojson]), the HTTP access layer
    ([IOLinkMaster.httpget] and the getters built on it), the topology
    builder ([IOLinkMaster.getsensorsondevices]), the polling loop
    ([IOLinkMaster.getreadings]) and the configuration
    ([Properties.load_properties], [IOLinkMasterList], [resolveipaddress]).

    Python values are modelled by [pyobj]; exceptions by the error side of
    [result]; the master device by an oracle that answers every HTTP GET;
    the storage and audit collaborators by a log of the calls made to them.
    JSON numbers are integers in this model (the master's services answer
    with integers and strings); strings are ASCII. *)

From Stdlib Require Import ZArith Floats String Ascii List Bool Lia.
From stdpp Require Import gmap strings list pretty.

Set Warnings "-inexact-float,-register-all".

(** ** Python values, exceptions and results *)

Module Py.

(** The exceptions that the modelled code can raise.  [RequestException]
    stands for the [requests] exceptions other than [ConnectTimeout] and
    [ConnectionError] (a read timeout, for one). *)
Inductive exn :=
| ConnectionError
| TypeError
| ValueError
| KeyError
| IndexError
| AttributeError
| OverflowError
| RequestException.

Inductive result (A : Type) :=
| Ok (a : A)
| Raise (e : exn).
Arguments Ok {A} a.
Arguments Raise {A} e.

#[global] Instance result_ret : MRet result := fun _ a => Ok a.
#[global] Instance result_bind : MBind result := fun _ _ f m =>
  match m with
  | Ok a => f a
  | Raise e => Raise e
  end.

(** What [json.loads] produces, which is also what the program stores in
    its objects' attributes. *)
Inductive pyobj :=
| PyNone
| PyBool (b : bool)
| PyInt (z : Z)
| PyStr (s : string)
| PyList (l : list pyobj)
| PyDict (l : list (string * pyobj)).

Fixpoint assoc {A : Type} (k : string) (l : list (string * A)) : option A :=
  match l with
  | [] => None
  | (k', v) :: l' => if String.eqb k k' then Some v else assoc k l'
  end.

(** Python's [==].  [bool] is a subclass of [int]; lists compare
    element by element; dicts compare by key, whatever the order. *)
Fixpoint py_eq (a b : pyobj) {struct a} : bool :=
  match a, b with
  | PyNone, PyNone => true
  | PyBool x, PyBool y => Bool.eqb x y
  | PyBool x, PyInt y => Z.eqb (Z.b2z x) y
  | PyInt x, PyBool y => Z.eqb x (Z.b2z y)
  | PyInt x, PyInt y => Z.eqb x y
  | PyStr s, PyStr t => String.eqb s t
  | PyList l, PyList m =>
      (fix go (l m : list pyobj) {struct l} : bool :=
         match l, m with
         | [], [] => true
         | x :: l', y :: m' => py_eq x y && go l' m'
         | _, _ => false
         end) l m
  | PyDict l, PyDict m =>
      Nat.eqb (length l) (length m) &&
      (fix go (l : list (string * pyobj)) : bool :=
         match l with
         | [] => true
         | (k, x) :: l' =>
             match assoc k m with
             | Some y => py_eq x y
             | None => false
             end && go l'
         end) l
  | _, _ => false
  end.

(** [x in [z1, z2, ...]] for a list of integer literals. *)
Definition py_in (x : pyobj) (zs : list Z) : bool :=
  existsb (fun z => py_eq x (PyInt z)) zs.

(** [x[a:b]] for literal bounds [0 <= a <= b].  A dict refuses a slice as
    a key with TypeError. *)
Definition py_slice (a b : nat) (x : pyobj) : result pyobj :=
  match x with
  | PyStr s => Ok (PyStr (substring a (b - a) s))
  | PyList l => Ok (PyList (take (b - a) (drop a l)))
  | _ => Raise TypeError
  end.

(** [x[k]] for a string key [k]. *)
Definition py_getitem (x : pyobj) (k : string) : result pyobj :=
  match x with
  | PyDict l =>
      match assoc k l with
      | Some v => Ok v
      | None => Raise KeyError
      end
  | _ => Raise TypeError
  end.

(** [iter(x)]: the elements of a list, the keys of a dict, the characters
    of a string. *)
Definition py_iter (x : pyobj) : result (list pyobj) :=
  match x with
  | PyList l => Ok l
  | PyDict l => Ok (map (fun kv => PyStr (fst kv)) l)
  | PyStr s =>
      Ok (map (fun c => PyStr (String c EmptyString)) (list_ascii_of_string s))
  | _ => Raise TypeError
  end.

(** [len(x)]. *)
Definition py_len (x : pyobj) : result Z :=
  match x with
  | PyList l => Ok (Z.of_nat (length l))
  | PyDict l => Ok (Z.of_nat (length l))
  | PyStr s => Ok (Z.of_nat (String.length s))
  | _ => Raise TypeError
  end.

(** [lit + x] where [lit] is a [str]: a TypeError unless [x] is a [str]. *)
Definition py_concat (lit : string) (x : pyobj) : result string :=
  match x with
  | PyStr s => Ok (lit +:+ s)
  | _ => Raise TypeError
  end.

End Py.
Export Py.

(** ** Parsing and arithmetic *)

Module Num.

(** The blanks that [str.strip()] removes from an ASCII string. *)
Definition is_space (c : ascii) : bool :=
  let n := nat_of_ascii c in
  ((9 <=? n) && (n <=? 13) || (28 <=? n) && (n <=? 32))%nat.

(** The blanks that [int()] skips around the literal in an ASCII string:
    those of C's [isspace].  The separators 28 to 31 are not among them. *)
Definition is_cspace (c : ascii) : bool :=
  let n := nat_of_ascii c in
  ((9 <=? n) && (n <=? 13) || (n =? 32))%nat.

Definition hexdigit (c : ascii) : option Z :=
  let n := Z.of_nat (nat_of_ascii c) in
  if ((48 <=? n) && (n <=? 57))%Z then Some (n - 48)%Z
  else if ((97 <=? n) && (n <=? 102))%Z then Some (n - 87)%Z
  else if ((65 <=? n) && (n <=? 70))%Z then Some (n - 55)%Z
  else None.

Fixpoint hexdigits (acc : Z) (l : list ascii) : option Z :=
  match l with
  | [] => Some acc
  | c :: l' =>
      match hexdigit c with
      | Some d => hexdigits (16 * acc + d)%Z l'
      | None => None
      end
  end.

(** [s.lstrip()] and [s.strip()]. *)
Fixpoint lstrip (l : list ascii) : list ascii :=
  match l with
  | c :: l' => if is_space c then lstrip l' else l
  | [] => []
  end.

Definition strip (l : list ascii) : list ascii :=
  rev (lstrip (rev (lstrip l))).

(** What [int()] does with the blanks before and after the literal. *)
Fixpoint lskip (l : list ascii) : list ascii :=
  match l with
  | c :: l' => if is_cspace c then lskip l' else l
  | [] => []
  end.

Definition skip (l : list ascii) : list ascii :=
  rev (lskip (rev (lskip l))).

(** The digits of a base-16 literal after its sign: an optional [0x] or
    [0X], then at least one hexadecimal digit. *)
Definition hexbody (l : list ascii) : option Z :=
  let digits :=
    match l with
    | c1 :: c2 :: l' =>
        if Ascii.eqb c1 "0" && (Ascii.eqb c2 "x" || Ascii.eqb c2 "X")
        then l' else l
    | _ => l
    end in
  match digits with
  | [] => None
  | _ => hexdigits 0 digits
  end.

(** [int(s, 16)] on a [str], as the interpreter the module is written for
    (Python 3.5) reads it: surrounding blanks, a sign, a [0x] prefix,
    hexadecimal digits. *)
Definition int16_of_string (s : string) : option Z :=
  match skip (list_ascii_of_string s) with
  | c :: l =>
      if Ascii.eqb c "-" then Z.opp <$> hexbody l
      else if Ascii.eqb c "+" then hexbody l
      else hexbody (c :: l)
  | [] => None
  end.

(** [int(x, 16)]: a TypeError when [x] is not a string, a ValueError when
    the string is no base-16 literal. *)
Definition py_int16 (x : pyobj) : result Z :=
  match x with
  | PyStr s =>
      match int16_of_string s with
      | Some z => Ok z
      | None => Raise ValueError
      end
  | _ => Raise TypeError
  end.

(** The conversion of an [int] to a [float] that [int / float] performs:
    exact below 2^53, rounded to nearest even above, and an OverflowError
    when the integer is beyond the range of a binary64. *)
Definition float_of_int (z : Z) : result float :=
  if (Z.abs z <? 2 ^ 53)%Z then
    let m := PrimFloat.of_uint63 (Uint63.of_Z (Z.abs z)) in
    Ok (if (z <? 0)%Z then PrimFloat.opp m else m)
  else
    let f := SF2Prim (binary_normalize prec emax z 0 false) in
    if PrimFloat.is_infinity f then Raise OverflowError else Ok f.

(** [z / d] for an [int] [z] and a non-zero [float] literal [d]. *)
Definition int_truediv (z : Z) (d : float) : result float :=
  f ← float_of_int z; Ok (PrimFloat.div f d).

(** A number stored in a measurement's [fields]. *)
Inductive num :=
| NInt (z : Z)
| NFloat (f : float).

(** [float(x)] for such a number. *)
Definition py_float (x : num) : result float :=
  match x with
  | NInt z => float_of_int z
  | NFloat f => Ok f
  end.

End Num.
Export Num.

(** ** Sensors and the codec *)

Module Sensor.

(** One point handed to [write_points]: a measurement name, its tags and
    its fields.  The [time] stamp (the wall clock) is left out. *)
Record point := Point {
  measurement : string;
  tags : list (string * pyobj);
  fields : list (string * num)
}.

(** The [json] attribute of a sensor object: [''] as the constructor
    leaves it, or what [datatojson] returned: [None] or a one-point list. *)
Inductive jsonattr :=
| JsonInit
| JsonNone
| JsonData (d : point).

(** An [IOLinkSensorInformation] object built with a port ([prt] is not
    [None]; the daemon builds no other). *)
Record sensor := Build_sensor {
  sensorport : Z;
  sensortype : pyobj;
  sensorname : pyobj;
  sensorserial : pyobj;
  sensorvendorid : pyobj;
  sensordata : Z;
  sensorlocalname : pyobj;
  sensorprocessdata : pyobj;
  json : jsonattr
}.

(** [IOLinkSensorInformation(prt, typ, nm, ser, vid, lnm, pd)]. *)
Definition IOLinkSensorInformation (prt : Z) (typ nm ser vid lnm pd : pyobj)
  : sensor :=
  {| sensorport := prt; sensortype := typ; sensorname := nm;
     sensorserial := ser; sensorvendorid := vid; sensordata := (-2)%Z;
     sensorlocalname := lnm; sensorprocessdata := pd; json := JsonInit |}.

Definition set_sensorprocessdata (pd : pyobj) (s : sensor) : sensor :=
  {| sensorport := sensorport s; sensortype := sensortype s;
     sensorname := sensorname s; sensorserial := sensorserial s;
     sensorvendorid := sensorvendorid s; sensordata := sensordata s;
     sensorlocalname := sensorlocalname s; sensorprocessdata := pd;
     json := json s |}.

Definition set_json (j : jsonattr) (s : sensor) : sensor :=
  {| sensorport := sensorport s; sensortype := sensortype s;
     sensorname := sensorname s; sensorserial := sensorserial s;
     sensorvendorid := sensorvendorid s; sensordata := sensordata s;
     sensorlocalname := sensorlocalname s;
     sensorprocessdata := sensorprocessdata s; json := j |}.

(** The tags [datatojson] gives both kinds of measurement. *)
Definition sensortags (ipx : string) (s : sensor) : list (string * pyobj) :=
  [("iolmip", PyStr ipx); ("sensorvendorid", sensorvendorid s);
   ("sensorserial", sensorserial s); ("sensorport", PyInt (sensorport s));
   ("sensorlocalname", sensorlocalname s); ("sensorname", sensorname s);
   ("sensortype", sensortype s)].

(** The device types of vendor 310 that [datatojson] names one by one only
    to log them as unhandled, in the order of its branches. *)
Definition unhandled_types : list Z :=
  [400; 401; 403; 463; 402; 431; 399; 428; 429; 404; 454; 462; 430; 461;
   427; 406; 459; 473; 312; 311; 157; 257; 256; 156; 259; 258; 159; 158;
   4; 3; 6; 713; 710; 709; 712; 711; 5; 708; 2; 7; 855; 853; 899; 854;
   852; 851; 367; 366; 575; 572; 391; 569; 389; 390; 392; 576; 570; 671;
   671; 509; 577; 573; 484; 488; 484; 492; 494; 486; 490; 533]%Z.

(** [IOLinkSensorInformation.datatojson]: [Ok None] is Python's [None]
    (returned by the unhandled branches, and implicitly when the vendor is
    not 310); [Ok (Some d)] is the list [[d]]. *)
Definition datatojson (ipx : string) (s : sensor) : result (option point) :=
  if py_eq (sensorvendorid s) (PyInt 310) then
    if py_in (sensortype s) [416; 417]%Z then
      c ← py_slice 10 11 (sensorprocessdata s);
      configuration ← py_int16 c;
      d ← py_slice 8 10 (sensorprocessdata s);
      diagnosis ← py_int16 d;
      v ← py_slice 4 8 (sensorprocessdata s);
      v ← py_int16 v;
      velocity ← int_truediv v 100;
      a ← py_slice 0 4 (sensorprocessdata s);
      a ← py_int16 a;
      acceleration ← int_truediv a 100;
      Ok (Some {| measurement := "vibrationEvents";
                  tags := sensortags ipx s;
                  fields := [("configuration", NInt configuration);
                             ("diagnosis", NInt diagnosis);
                             ("velocity", NFloat velocity);
                             ("acceleration", NFloat acceleration)] |})
    else if py_in (sensortype s) [446]%Z then
      t ← py_int16 (sensorprocessdata s);
      temperature ← int_truediv t 10;
      Ok (Some {| measurement := "temperatureEvents";
                  tags := sensortags ipx s;
                  fields := [("temperature", NFloat temperature)] |})
    else if py_in (sensortype s) unhandled_types then Ok None
    else Ok None
  else Ok None.

End Sensor.
Export Sensor.

(** ** The world: the master device, the store and the collaborators *)

Module World.

(** The body of an HTTP response as [json.loads] reads it. *)
Inductive text :=
| NotJson
| JsonText (j : pyobj).

(** [myresponse.content]: bytes that decode as UTF-8 or not. *)
Inductive body :=
| BadUtf8
| Utf8 (t : text).

(** What [requests.get(url, timeout=tmout)] does. *)
Inductive outcome :=
| ConnectTimeout
| ConnectionFailed
| OtherRequestError
| Response (ok : bool) (content : body).

(** The point written at every full poll ([measurement="iolmEvents"]). *)
Record masterpoint := MasterPoint {
  mtags : list (string * pyobj);
  mfields : list (string * pyobj)
}.

(** The parts of a message built by [+] and [str()]: a literal or a string
    attribute, [str(v)] of an object, [str(f)] of a float. *)
Inductive piece :=
| Lit (s : string)
| Str (v : pyobj)
| Flt (f : float).

(** The event data given to [sendtosaas]: the text
    [{'ipaddress': ..., 'event: ..., 'mesg': ...}] by its three parts. *)
Record event := Event {
  ev_ipaddress : string;
  ev_event : string;
  ev_mesg : list piece
}.

(** The calls made to the collaborators.  [WriteSensor i d] is
    [client.write_points(sensor.json)] for the [i]-th sensor of the list;
    [SendToSaas i evt evtd] is [sendtosaas(ipx, client, evt, evtd)] made
    while the loop variable [portnumber] is [i]. *)
Inductive effect :=
| WriteMaster (d : masterpoint)
| WriteSensor (i : nat) (d : point)
| SendToSaas (i : nat) (evt : string) (evtd : event).

(** The state the program runs in: the number of HTTP requests made so
    far, the list objects allocated so far (a sensor list is identified by
    its position in [heap], its sensors are stored in it) and the calls
    made to the collaborators, latest first. *)
Record io := Io {
  clock : nat;
  heap : list (list (option sensor));
  out : list effect
}.

(** A computation: it runs in a state and returns or raises. *)
Definition M (A : Type) : Type := io -> result A * io.

#[global] Instance M_ret : MRet M := fun _ a st => (Ok a, st).
#[global] Instance M_bind : MBind M := fun _ _ f m st =>
  match m st with
  | (Ok a, st') => f a st'
  | (Raise e, st') => (Raise e, st')
  end.

Definition raise {A : Type} (e : exn) : M A := fun st => (Raise e, st).

Definition lift {A : Type} (r : result A) : M A := fun st => (r, st).

Definition emit (e : effect) : M unit := fun st =>
  (Ok tt, {| clock := clock st; heap := heap st; out := e :: out st |}).

(** A new list object. *)
Definition alloc (l : list (option sensor)) : M nat := fun st =>
  (Ok (length (heap st)),
   {| clock := clock st; heap := heap st ++ [l]; out := out st |}).

Definition deref (r : nat) : M (list (option sensor)) := fun st =>
  (Ok (default [] (heap st !! r)), st).

(** [l[i]]. *)
Definition index {A : Type} (l : list A) (i : nat) : M A :=
  match l !! i with
  | Some x => mret x
  | None => raise IndexError
  end.

(** An attribute of [l[i]]: an AttributeError when the entry is [None]. *)
Definition attr_of {A : Type} (x : option A) : M A :=
  match x with
  | Some s => mret s
  | None => raise AttributeError
  end.

(** Assignment to an attribute of the [i]-th object of the list [r]. *)
Definition update (r i : nat) (f : sensor -> sensor) : M unit := fun st =>
  (Ok tt,
   {| clock := clock st;
      heap := alter (alter (fmap f) i) r (heap st);
      out := out st |}).

Inductive flow :=
| Continue
| Break.

Fixpoint for_each {A : Type} (l : list A) (body : A -> M unit) : M unit :=
  match l with
  | [] => mret tt
  | x :: l' => body x;; for_each l' body
  end.

(** A [for] loop whose body may [break]. *)
Fixpoint for_break {A : Type} (l : list A) (body : A -> M flow) : M unit :=
  match l with
  | [] => mret tt
  | x :: l' =>
      f ← body x;
      match f with
      | Continue => for_break l' body
      | Break => mret tt
      end
  end.

(** [range(a, b)]. *)
Definition range (a b : Z) : list Z :=
  map (fun k => (a + Z.of_nat k)%Z) (seq 0 (Z.to_nat (b - a))).

End World.
Export World.

(** ** The IO-Link master: HTTP access and the topology builder *)

Module Master.

(** The attributes of an [IOLinkMaster] object that the polling reads. *)
Record IOLinkMaster := Build_IOLinkMaster {
  ipaddress : string;
  iterations : Z
}.

Definition json_loads (t : text) : result pyobj :=
  match t with
  | NotJson => Raise ValueError
  | JsonText j => Ok j
  end.

(** What [httpget] returns: the envelope's value when [processed], the
    body itself otherwise ([None] stands for Python's [None]). *)
Definition httpret (processed : bool) : Type :=
  if processed then pyobj else option text.

Section Device.

(** The master device: what the [n]-th request of the run does when it
    asks for [url]. *)
Variable net : nat -> string -> outcome.
Variable self : IOLinkMaster.

Definition requests_get (url : string) : M outcome := fun st =>
  (Ok (net (clock st) url),
   {| clock := S (clock st); heap := heap st; out := out st |}).

(** [IOLinkMaster.httpget].  The two handlers leave [myresponse] at
    [None], and the function then raises ConnectionError; any other
    exception of [requests.get] propagates.  In the branch of a response
    that is not [ok], the argument [myresponse.status_code()] of the log
    call is evaluated first: [status_code] is an [int], calling it raises
    TypeError, and [return None] is not reached. *)
Definition httpget (requeststring ipz : string) (processed : bool)
  : M (httpret processed) :=
  let url := "http://" +:+ ipaddress self +:+ requeststring in
  myresponse ← requests_get url;
  match myresponse with
  | ConnectTimeout => raise ConnectionError
  | ConnectionFailed => raise ConnectionError
  | OtherRequestError => raise RequestException
  | Response ok content =>
      if ok then
        match content with
        | BadUtf8 => raise ValueError
        | Utf8 scontent =>
            match processed return M (httpret processed) with
            | true =>
                jdata ← lift (json_loads scontent);
                dval ← lift (py_getitem jdata "data");
                vval ← lift (py_getitem dval "value");
                mret vval
            | false => mret (Some scontent)
            end
        end
      else raise TypeError
  end.

Definition getdevicefamily (ipz : string) : M pyobj :=
  httpget "/deviceinfo/devicefamily/getdata" ipz true.

Definition getproductcode (ipz : string) : M pyobj :=
  httpget "/deviceinfo/productcode/getdata" ipz true.

Definition getproductserial (ipz : string) : M pyobj :=
  httpget "/deviceinfo/serialnumber/getdata" ipz true.

Definition getvendor (ipz : string) : M pyobj :=
  httpget "/deviceinfo/vendor/getdata" ipz true.

Definition gettree (ipz : string) : M (option text) :=
  httpget "/gettree" ipz false.

Definition porturl (xport : Z) (rest : string) : string :=
  "/iolinkmaster/port[" +:+ pretty xport +:+ rest.

Definition getportsensorlocalname (xport : Z) (ipz : string) : M pyobj :=
  httpget (porturl xport "]/iolinkdevice/applicationspecifictag/getdata")
    ipz true.

Definition getportsensordeviceid (xport : Z) (ipz : string) : M pyobj :=
  httpget (porturl xport "]/iolinkdevice/deviceid/getdata") ipz true.

Definition getportsensorprocessdata (xport : Z) (ipz : string) : M pyobj :=
  httpget (porturl xport "]/iolinkdevice/pdin/getdata") ipz true.

Definition getportsensorname (xport : Z) (ipz : string) : M pyobj :=
  httpget (porturl xport "]/iolinkdevice/productname/getdata") ipz true.

Definition getportsensorserial (xport : Z) (ipz : string) : M pyobj :=
  httpget (porturl xport "]/iolinkdevice/serial/getdata") ipz true.

Definition getportdevicestatus (xport : Z) (ipz : string) : M pyobj :=
  httpget (porturl xport "]/iolinkdevice/status/getdata") ipz true.

Definition getportsensorvendorid (xport : Z) (ipz : string) : M pyobj :=
  httpget (porturl xport "]/iolinkdevice/vendorid/getdata") ipz true.

Definition getipaddress (ipz : string) : M pyobj :=
  httpget "/iotsetup/network/ipaddress/getdata" ipz true.

Definition getmilliamperes (ipz : string) : M pyobj :=
  httpget "/processdatamaster/current/getdata" ipz true.

Definition getsupervisionstatus (ipz : string) : M pyobj :=
  httpget "/processdatamaster/supervisionstatus/getdata" ipz true.

Definition gettemperature (ipz : string) : M pyobj :=
  httpget "/processdatamaster/temperature/getdata" ipz true.

Definition getvolts (ipz : string) : M pyobj :=
  httpget "/processdatamaster/current/getdata" ipz true.

(** The loop of [getportcount] over the subtrees: the length of the
    [subs] of the first one identified as [iolinkmaster], or 0. *)
Fixpoint portcount_of (itemsubs : list pyobj) : result Z :=
  match itemsubs with
  | [] => Ok 0%Z
  | itemsub :: rest =>
      ident ← py_getitem itemsub "identifier";
      if py_eq ident (PyStr "iolinkmaster") then
        subs ← py_getitem itemsub "subs"; py_len subs
      else portcount_of rest
  end.

(** [IOLinkMaster.getportcount]: [Some n] is the integer [n], [None] is
    Python's [None]. *)
Definition getportcount (ipz : string) : M (option Z) :=
  capabilities ← gettree ipz;
  match capabilities with
  | Some t =>
      itemdict ← lift (json_loads t);
      itemdata ← lift (py_getitem itemdict "data");
      itemsubs ← lift (py_getitem itemdata "subs");
      items ← lift (py_iter itemsubs);
      n ← lift (portcount_of items);
      mret (Some n)
  | None => mret None
  end.

(** [n + k] and [n - k] on what [getportcount] returned: a TypeError on
    [None]. *)
Definition count_plus (n : option Z) (k : Z) : M Z :=
  match n with
  | Some n => mret (n + k)%Z
  | None => raise TypeError
  end.

(** [l.insert(i, x)] for [i >= 0]: beyond the end it appends. *)
Definition py_insert {A : Type} (i : nat) (x : A) (l : list A) : list A :=
  take i l ++ x :: drop i l.

(** The body of the loop of [getsensorsondevices] for one port. *)
Definition sensoronport (ipz : string) (portnumber : Z) : M sensor :=
  status ← getportdevicestatus portnumber ipz;
  if py_eq status (PyInt 2) then
    typ ← getportsensordeviceid portnumber ipz;
    nm ← getportsensorlocalname portnumber ipz;
    ser ← getportsensorserial portnumber ipz;
    vid ← getportsensorvendorid portnumber ipz;
    lnm ← getportsensorname portnumber ipz;
    pd ← getportsensorprocessdata portnumber ipz;
    mret (IOLinkSensorInformation portnumber typ nm ser vid lnm pd)
  else
    mret (IOLinkSensorInformation portnumber (PyStr "") (PyStr "")
            (PyStr "") (PyStr "") (PyStr "") PyNone).

Fixpoint portefeuille_loop (ipz : string) (ports : list Z)
    (portefeuille : list (option sensor)) : M (list (option sensor)) :=
  match ports with
  | [] => mret portefeuille
  | portnumber :: rest =>
      sensex ← sensoronport ipz portnumber;
      portefeuille_loop ipz rest
        (py_insert (Z.to_nat portnumber) (Some sensex) portefeuille)
  end.

(** [IOLinkMaster.getsensorsondevices]. *)
Definition getsensorsondevices (ipz : string) : M (list (option sensor)) :=
  n ← getportcount ipz;
  stop ← count_plus n 1;
  portefeuille_loop ipz (range 1 stop) [].

End Device.

End Master.
Export Master.

(** ** The polling loop *)

Module MasterInfo.

(** An [IOLinkMasterInformation] object. *)
Record IOLinkMasterInformation := Build {
  numports : option Z;
  ipaddress : pyobj;
  temperature : pyobj;
  milliamperes : pyobj;
  voltage : pyobj;
  supervisionstatus : pyobj;
  productcode : pyobj;
  productserial : pyobj;
  family : pyobj;
  vendor : pyobj
}.

(** [IOLinkMasterInformation()], its [numports] then set by
    [getreadings].  The resolved address of the empty name is replaced by
    the first full poll before anything reads it. *)
Definition init (numports : option Z) : IOLinkMasterInformation :=
  {| numports := numports; ipaddress := PyStr ""; temperature := PyInt (-273);
     milliamperes := PyInt (-1); voltage := PyInt (-1);
     supervisionstatus := PyInt (-1); productcode := PyStr "";
     productserial := PyStr ""; family := PyStr ""; vendor := PyStr "" |}.

End MasterInfo.

Module Loop.

Import MasterInfo.

(** The local variables of [getreadings] that live across the cycles.
    [sensorlist] and [savesensorlist] hold references to list objects. *)
Record locals := Locals {
  savesensorlist : option nat;
  iolminfo : IOLinkMasterInformation;
  sensorlist : nat;
  fullinfo : bool;
  itercount : Z
}.

Section Readings.

Variable net : nat -> string -> outcome.
Variable self : IOLinkMaster.
(** The properties file as loaded: [prr]. *)
Variable prr : gmap string string.
(** [float(s)] on a [str]: [None] when it raises ValueError. *)
Variable float_of_str : string -> option float.

(** [float(prr[key])] inside [try: ... except KeyError:]: [Ok None] when
    the handler runs. *)
Definition threshold (key : string) : M (option float) :=
  match prr !! key with
  | None => mret None
  | Some s =>
      match float_of_str s with
      | Some f => mret (Some f)
      | None => raise ValueError
      end
  end.

(** [float(jsondict[key])] inside [try: ... except KeyError:]. *)
Definition field (jsondict : list (string * num)) (key : string)
  : M (option float) :=
  match assoc key jsondict with
  | None => mret None
  | Some x => f ← lift (py_float x); mret (Some f)
  end.

Definition numports_obj (n : option Z) : pyobj :=
  match n with
  | Some n => PyInt n
  | None => PyNone
  end.

(** The full poll (the [if fullinfo:] branch): the master's data, the
    point written for it, and a new sensor list. *)
Definition fullpoll (ipx : string) (info : IOLinkMasterInformation)
  : M (IOLinkMasterInformation * nat) :=
  ip ← getipaddress net self ipx;
  serial ← getproductserial net self ipx;
  vend ← getvendor net self ipx;
  fam ← getdevicefamily net self ipx;
  temp ← gettemperature net self ipx;
  status ← getsupervisionstatus net self ipx;
  amps ← getmilliamperes net self ipx;
  code ← getproductcode net self ipx;
  volts ← getvolts net self ipx;
  let info' :=
    {| numports := numports info; ipaddress := ip; temperature := temp;
       milliamperes := amps; voltage := volts; supervisionstatus := status;
       productcode := code; productserial := serial; family := fam;
       vendor := vend |} in
  emit (WriteMaster
          {| mtags := [("iolmip", ip); ("serial", serial); ("vendor", vend);
                       ("family", fam); ("productcode", code);
                       ("ports", numports_obj (numports info))];
             mfields := [("volts", volts); ("milliamperes", amps);
                         ("temperature", temp); ("status", status)] |});;
  l ← getsensorsondevices net self ipx;
  r ← alloc l;
  mret (info', r).

(** The body of the partial poll's loop for the [i]-th sensor. *)
Definition refresh (ipx : string) (r i : nat) : M unit :=
  l ← deref r;
  x ← index l i;
  sensor ← attr_of x;
  status ← getportdevicestatus net self (sensorport sensor) ipx;
  if py_eq status (PyInt 2) then
    pd ← getportsensorprocessdata net self (sensorport sensor) ipx;
    update r i (set_sensorprocessdata pd)
  else update r i (set_sensorprocessdata PyNone).

Definition partialpoll (ipx : string) (r : nat) : M unit :=
  l ← deref r;
  for_each (seq 0 (length l)) (refresh ipx r).

(** The body of the decoding loop for the [i]-th sensor. *)
Definition decode (ipx : string) (r i : nat) : M unit :=
  l ← deref r;
  x ← index l i;
  sensor ← attr_of x;
  j ← lift (datatojson ipx sensor);
  match j with
  | Some d => update r i (set_json (JsonData d));; emit (WriteSensor i d)
  | None => update r i (set_json JsonNone)
  end.

Definition decode_all (ipx : string) (r : nat) : M unit :=
  l ← deref r;
  for_each (seq 0 (length l)) (decode ipx r).

Definition configuration_event (ipx name : string) (mesg : list piece)
  : event :=
  {| ev_ipaddress := ipx; ev_event := name; ev_mesg := mesg |}.

(** The comparison of the saved and the current sensor of one port
    (the [if savesensorlist is not None:] block). *)
Definition compare (ipx : string) (saved : option nat) (cur : nat)
    (portnumber : nat) : M unit :=
  match saved with
  | None => mret tt
  | Some sv =>
      cl ← deref cur;
      c ← index cl portnumber;
      match c with
      | None =>
          sl ← deref sv;
          s ← index sl portnumber;
          match s with
          | Some s =>
              serial ← lift (py_concat "" (sensorserial s));
              emit (SendToSaas portnumber "CONFIGURATION"
                (configuration_event ipx "SENSORNOTFOUND"
                   [Lit "("; Lit ipx;
                    Lit ") Sensor on port savesensorlist[portnumber], type ";
                    Str (sensortype s); Lit ", with serial "; Lit serial;
                    Lit "  not found"]))
          | None => mret tt
          end
      | Some c =>
          sl ← deref sv;
          s ← index sl portnumber;
          match s with
          | None =>
              @raise unit AttributeError
          | Some s =>
              if negb (py_eq (sensortype s) (sensortype c)) then
                serial ← lift (py_concat "" (sensorserial s));
                emit (SendToSaas portnumber "CONFIGURATION"
                  (configuration_event ipx "SENSORTYPECHANGED"
                     [Lit "("; Lit ipx; Lit ") Sensor type on port ";
                      Str (PyInt (sensorport s)); Lit " changed, type ";
                      Str (sensortype s); Lit ", with serial "; Lit serial]))
              else if negb (py_eq (sensorserial s) (sensorserial c)) then
                serial ← lift (py_concat "" (sensorserial s));
                emit (SendToSaas portnumber "CONFIGURATION"
                  (configuration_event ipx "SENSORSERIALCHANGED"
                     [Lit "("; Lit ipx; Lit ") Sensor serial on port ";
                      Str (PyInt (sensorport s)); Lit " changed, type ";
                      Str (sensortype s); Lit ", with serial "; Lit serial]))
              else mret tt
          end
      end
  end.

(** The message of an alert:
    ['(' + ipx + what + sensorname + '/' + sensorlocalname +
     ' sensor on type on port ' + str(sensorport) + how + str(x) + '--' +
     str(limit)]. *)
Definition alert_mesg (ipx what : string) (s : sensor) (how : string)
    (x limit : float) : M (list piece) :=
  name ← lift (py_concat "" (sensorname s));
  lname ← lift (py_concat "" (sensorlocalname s));
  mret [Lit "("; Lit ipx; Lit what; Lit name; Lit "/"; Lit lname;
        Lit " sensor on type on port "; Str (PyInt (sensorport s));
        Lit how; Flt x; Lit "--"; Flt limit].

Definition alert (ipx : string) (portnumber : nat) (name what : string)
    (s : sensor) (how : string) (x limit : float) : M unit :=
  mesg ← alert_mesg ipx what s how x limit;
  emit (SendToSaas portnumber "SENSOR"
          {| ev_ipaddress := ipx; ev_event := name; ev_mesg := mesg |}).

(** The threshold check of one port (from [jsontocheck = ...] to the end
    of the loop body).  [Break] is the [break] of the handlers of
    KeyError.  [str(srchvendor)] is used only where [srchvendor == 310]
    holds, and is ["310"] there; the TypeError of [+ srchserial] is raised
    where the source builds [srchroot]. *)
Definition thresholds (ipx : string) (cur portnumber : nat) : M flow :=
  cl ← deref cur;
  x ← index cl portnumber;
  sensor ← attr_of x;
  match json sensor with
  | JsonNone => mret Continue
  | JsonInit => raise IndexError
  | JsonData d =>
      let jsondict := fields d in
      let srchserial := sensorserial sensor in
      let srchvendor := sensorvendorid sensor in
      atserial ← lift (py_concat "@" srchserial);
      if py_eq srchvendor (PyInt 310) then
        let srchroot := "310" +:+ atserial in
        if py_in (sensortype sensor) [416; 417]%Z then
          let srchacc := srchroot +:+ "@" +:+ "acceleration" in
          let srchvel := srchroot +:+ "@" +:+ "velocity" in
          accelthreshold ← threshold srchacc;
          match accelthreshold with
          | None => mret Break
          | Some accelthreshold =>
          velthreshold ← threshold srchvel;
          match velthreshold with
          | None => mret Break
          | Some velthreshold =>
          acctocheck ← field jsondict "acceleration";
          match acctocheck with
          | None => mret Break
          | Some acctocheck =>
          veltocheck ← field jsondict "velocity";
          match veltocheck with
          | None => mret Break
          | Some veltocheck =>
              (if PrimFloat.ltb accelthreshold acctocheck then
                 alert ipx portnumber "ACCELERATION"
                   ") Acceleration value for " sensor " exceeds threshold, "
                   acctocheck accelthreshold
               else mret tt);;
              (if PrimFloat.ltb velthreshold veltocheck then
                 alert ipx portnumber "VELOCITY"
                   ") Velocity value for " sensor " exceeds threshold, "
                   veltocheck velthreshold
               else mret tt);;
              mret Continue
          end end end end
        else if py_in (sensortype sensor) [446]%Z then
          let srchtempmax := srchroot +:+ "@" +:+ "temperaturemax" in
          let srchtempmin := srchroot +:+ "@" +:+ "temperaturemin" in
          tmaxthreshold ← threshold srchtempmax;
          let tmaxthreshold := default 99999.99%float tmaxthreshold in
          tminthreshold ← threshold srchtempmin;
          let tminthreshold := default (-273.00)%float tminthreshold in
          temptocheck ← field jsondict "temperature";
          match temptocheck with
          | None => mret Break
          | Some temptocheck =>
              (if PrimFloat.ltb temptocheck tminthreshold then
                 alert ipx portnumber "TEMPERATUREMIN"
                   ") Temperature value for " sensor
                   " exceeds minimum threshold, " temptocheck tminthreshold
               else if PrimFloat.ltb tmaxthreshold temptocheck then
                 alert ipx portnumber "TEMPERATUREMAX"
                   ") Temperature value for " sensor
                   " exceeds maximum threshold, " temptocheck tmaxthreshold
               else mret tt);;
              mret Continue
          end
        else mret Continue
      else mret Continue
  end.

(** The body of [for portnumber in range(0, self.getportcount(ipx) - 1)]. *)
Definition checkport (ipx : string) (saved : option nat) (cur : nat)
    (portnumber : Z) : M flow :=
  compare ipx saved cur (Z.to_nat portnumber);;
  thresholds ipx cur (Z.to_nat portnumber).

Definition checkports (ipx : string) (saved : option nat) (cur : nat)
  : M unit :=
  n ← getportcount net self ipx;
  stop ← count_plus n (-1);
  for_break (range 0 stop) (checkport ipx saved cur).

(** One turn of the [while True:] loop of [getreadings], up to
    [time.sleep]. *)
Definition cycle (ipx : string) (v : locals) : M locals :=
  let itercount := (itercount v + 1)%Z in
  '(info, cur, full, itercount) ←
    (if fullinfo v then
       '(info, cur) ← fullpoll ipx (iolminfo v);
       mret (info, cur, false, itercount)
     else
       let '(itercount, full) :=
         if (iterations self <? itercount)%Z then (0%Z, true)
         else (itercount, false) in
       partialpoll ipx (sensorlist v);;
       mret (iolminfo v, sensorlist v, full, itercount));
  decode_all ipx cur;;
  checkports ipx (savesensorlist v) cur;;
  mret {| savesensorlist := Some cur; iolminfo := info; sensorlist := cur;
          fullinfo := full; itercount := itercount |}.

(** [getreadings] up to its loop, the database taken as connected:
    [None] is the return of ['NoData']. *)
Definition getreadings_start (ipx : string) : M (option locals) :=
  r ← alloc [];
  n ← getportcount net self ipx;
  match n with
  | Some _ =>
      mret (Some {| savesensorlist := None; iolminfo := MasterInfo.init n;
                    sensorlist := r; fullinfo := true; itercount := 0 |})
  | None => mret None
  end.

(** [k] turns of the loop. *)
Fixpoint cycles (ipx : string) (k : nat) (v : locals) : M locals :=
  match k with
  | O => mret v
  | S k' => v' ← cycle ipx v; cycles ipx k' v'
  end.

(** [getreadings] stopped after [k] turns of its loop. *)
Definition getreadings (ipx : string) (k : nat) : M (option locals) :=
  start ← getreadings_start ipx;
  match start with
  | Some v => v' ← cycles ipx k v; mret (Some v')
  | None => mret None
  end.

End Readings.

End Loop.
Export Loop.

(** ** Raw process data read as bytes *)

Module Bytes.

(** The byte written by two hexadecimal digits. *)
Definition hexbyte (c1 c2 : ascii) : option Z :=
  d1 ← hexdigit c1; d2 ← hexdigit c2; Some (16 * d1 + d2)%Z.

(** The bytes of a hexadecimal string: two digits a byte, first byte
    first. *)
Fixpoint bytes_of_hex (l : list ascii) : option (list Z) :=
  match l with
  | [] => Some []
  | c1 :: c2 :: l' =>
      b ← hexbyte c1 c2; bs ← bytes_of_hex l'; Some (b :: bs)
  | [_] => None
  end.

(** The unsigned big-endian integer of a sequence of bytes. *)
Definition be_uint (bs : list Z) : Z :=
  fold_left (fun a b => (256 * a + b)%Z) bs 0%Z.

(** [bs[i]], 0 beyond the end. *)
Definition byte (bs : list Z) (i : nat) : Z := nth i bs 0%Z.

(** The binary64 that is the integer [z], for [0 <= z < 2^53]. *)
Definition float_of_nat53 (z : Z) : float :=
  PrimFloat.of_uint63 (Uint63.of_Z z).

End Bytes.
Export Bytes.

(** ** Notions used by the statements *)

Module Props.

(** The two kinds of turn of the loop of [getreadings]. *)
Inductive poll :=
| FULL_POLL
| PARTIAL_POLL.

(** The kind of the turn that the loop takes next: its test of
    [fullinfo]. *)
Definition next_poll (v : locals) : poll :=
  if fullinfo v then FULL_POLL else PARTIAL_POLL.

(** The master is unreachable at its [c]-th request: whatever the URL,
    [requests.get] raises ConnectTimeout or ConnectionError. *)
Definition unreachable (net : nat -> string -> outcome) (c : nat) : Prop :=
  forall url, net c url = ConnectTimeout \/ net c url = ConnectionFailed.

(** The object that [getsensorsondevices] builds for a port with no
    sensor connected. *)
Definition no_sensor (portnumber : Z) : sensor :=
  IOLinkSensorInformation portnumber (PyStr "") (PyStr "") (PyStr "")
    (PyStr "") (PyStr "") PyNone.

(** What [getportdevicestatus] returns for port [p] when it is the
    master's [c]-th request. *)
Definition status_at (net : nat -> string -> outcome) (self : IOLinkMaster)
    (c : nat) (p : Z) : result pyobj :=
  (getportdevicestatus net self p ""
     {| clock := c; heap := []; out := [] |}).1.

(** A sensor object with the empty identity that [getsensorsondevices]
    gives a port with no sensor: no type, no serial, no vendor id. *)
Definition blank (s : sensor) : Prop :=
  sensortype s = PyStr "" /\ sensorserial s = PyStr "" /\
  sensorvendorid s = PyStr "".

(** The [i]-th entry of the sensor list [r] is a blank sensor. *)
Definition blank_at (r i : nat) (st : io) : Prop :=
  exists l s, heap st !! r = Some l /\ l !! i = Some (Some s) /\ blank s.

(** A call to a collaborator that is about the [i]-th sensor: its
    measurement, or an event or alert raised for it. *)
Definition about (i : nat) (e : effect) : bool :=
  match e with
  | WriteMaster _ => false
  | WriteSensor j _ => Nat.eqb j i
  | SendToSaas j _ _ => Nat.eqb j i
  end.

(** From [st] to [st'] no call was made about the [i]-th sensor. *)
Definition silent (i : nat) (st st' : io) : Prop :=
  exists new, out st' = new ++ out st /\
              Forall (fun e => about i e = false) new.

(** At most [k] turns of the loop of [getreadings] from [v], stopping
    before the next full poll. *)
Fixpoint partials (net : nat -> string -> outcome) (self : IOLinkMaster)
    (prr : gmap string string) (float_of_str : string -> option float)
    (ipx : string) (k : nat) (v : locals) : M locals :=
  match k with
  | O => mret v
  | S k' =>
      if fullinfo v then mret v
      else v' ← cycle net self prr float_of_str ipx v;
           partials net self prr float_of_str ipx k' v'
  end.

(** A hexadecimal digit. *)
Definition ishex (c : ascii) : Prop := is_Some (hexdigit c).

Section Requests.

Variable net : nat -> string -> outcome.
Variable self : IOLinkMaster.

(** A computation never turns the clock back, and a request made while
    the master is unreachable is its last: it ends with ConnectionError. *)
Definition strict {A : Type} (m : M A) : Prop :=
  forall st r st', m st = (r, st') ->
    clock st <= clock st' /\
    forall c, clock st <= c < clock st' -> unreachable net c ->
              r = Raise ConnectionError /\ clock st' = S c.

(** A computation that makes no request. *)
Definition still {A : Type} (m : M A) : Prop :=
  forall st, clock (m st).2 = clock st.

(** The entry that a poll of port [p] made between the requests [c0] and
    [c1] leaves. *)
Definition polled (c0 c1 : nat) (p : Z) (x : option sensor) : Prop :=
  exists s c v,
    x = Some s /\ sensorport s = p /\ c0 <= c < c1 /\
    status_at net self c p = Ok v /\
    (py_eq v (PyInt 2) = false -> s = no_sensor p).

End Requests.

(** A computation that keeps the [i]-th entry of the sensor list [r]
    blank and calls no collaborator about it. *)
Definition tame (r i : nat) {A : Type} (m : M A) : Prop :=
  forall st res st', m st = (res, st') -> blank_at r i st ->
    blank_at r i st' /\ silent i st st'.

End Props.
Export Props.

(** ** Concrete masters *)

Module Site.

(** The answer [{"data": {"value": v}}] with status 200. *)
Definition envelope (v : pyobj) : outcome :=
  Response true (Utf8 (JsonText (PyDict [("data", PyDict [("value", v)])]))).

(** The answer of [/gettree] of a master with [n] ports. *)
Definition tree (n : nat) : outcome :=
  Response true (Utf8 (JsonText
    (PyDict [("data", PyDict [("subs", PyList
       [PyDict [("identifier", PyStr "deviceinfo"); ("subs", PyList [])];
        PyDict [("identifier", PyStr "iolinkmaster");
                ("subs", PyList (replicate n (PyDict [])))]])])]))).

(** A master that serves the listed URLs and answers 404 to the rest. *)
Definition served (l : list (string * outcome)) (url : string) : outcome :=
  default (Response false (Utf8 NotJson)) (assoc url l).

Definition me : IOLinkMaster :=
  {| Master.ipaddress := "10.0.0.1"; iterations := 6 |}.

Definition st0 : io := {| clock := 0; heap := []; out := [] |}.

(** The master's own services: it draws 120 mA at 24 V. *)
Definition base (nports : nat) : list (string * outcome) :=
  [("http://10.0.0.1/gettree", tree nports);
   ("http://10.0.0.1/iotsetup/network/ipaddress/getdata",
    envelope (PyStr "10.0.0.1"));
   ("http://10.0.0.1/deviceinfo/serialnumber/getdata",
    envelope (PyStr "000123"));
   ("http://10.0.0.1/deviceinfo/vendor/getdata", envelope (PyStr "ifm"));
   ("http://10.0.0.1/deviceinfo/devicefamily/getdata",
    envelope (PyStr "IO-Link master"));
   ("http://10.0.0.1/deviceinfo/productcode/getdata",
    envelope (PyStr "AL1350"));
   ("http://10.0.0.1/processdatamaster/temperature/getdata",
    envelope (PyInt 41));
   ("http://10.0.0.1/processdatamaster/supervisionstatus/getdata",
    envelope (PyInt 0));
   ("http://10.0.0.1/processdatamaster/current/getdata",
    envelope (PyInt 120));
   ("http://10.0.0.1/processdatamaster/voltage/getdata",
    envelope (PyInt 24))].

Definition porturl (p field : string) : string :=
  "http://10.0.0.1/iolinkmaster/port[" +:+ p +:+ "]/iolinkdevice/" +:+ field
  +:+ "/getdata".

(** A port with nothing connected. *)
Definition noport (p : string) : list (string * outcome) :=
  [(porturl p "status", envelope (PyInt 0))].

(** A port with a sensor of vendor 310 in operation. *)
Definition port (p : string) (deviceid : Z) (serial name tag pdin : string)
  : list (string * outcome) :=
  [(porturl p "status", envelope (PyInt 2));
   (porturl p "deviceid", envelope (PyInt deviceid));
   (porturl p "vendorid", envelope (PyInt 310));
   (porturl p "serial", envelope (PyStr serial));
   (porturl p "productname", envelope (PyStr name));
   (porturl p "applicationspecifictag", envelope (PyStr tag));
   (porturl p "pdin", envelope (PyStr pdin))].

(** A master that does not change. *)
Definition steady (l : list (string * outcome)) : nat -> string -> outcome :=
  fun _ => served l.

(** A master that changes from [l1] to [l2] at its [n]-th request. *)
Definition switch (n : nat) (l1 l2 : list (string * outcome))
  : nat -> string -> outcome :=
  fun c => if (c <? n)%nat then served l1 else served l2.

(** [float(s)] for the threshold strings of the examples. *)
Definition float_of_str (s : string) : option float :=
  assoc s [("50.0", 50%float); ("10.0", 10%float)].

(** Two ports: the first empty, a temperature sensor at 60.0 degrees on
    the second. *)
Definition temp_on_2 : list (string * outcome) :=
  base 2 ++ noport "1" ++ port "2" 446 "T1" "TA2002" "tank" "0258".

(** The same sensor on the first port, the second empty. *)
Definition temp_on_1 : list (string * outcome) :=
  base 2 ++ port "1" 446 "T1" "TA2002" "tank" "0258" ++ noport "2".

Definition prr_temp : gmap string string :=
  {["310@T1@temperaturemax" := "50.0"]}.

(** Two ports, both empty; then a vibration sensor of type 417 with serial
    S1 on the first. *)
Definition both_empty : list (string * outcome) :=
  base 2 ++ noport "1" ++ noport "2".

Definition s1_on_1 : list (string * outcome) :=
  base 2 ++ port "1" 417 "S1" "JN2201" "pump" "000A000A0000" ++ noport "2".

(** Three ports: a vibration sensor (acceleration 12.0, velocity 12.0), a
    temperature sensor (60.0), an empty port. *)
Definition three_ports : list (string * outcome) :=
  base 3 ++ port "1" 416 "V1" "JN2201" "pump" "04B004B00000"
  ++ port "2" 446 "T1" "TA2002" "tank" "0258" ++ noport "3".

(** Limits for the velocity of V1 and the temperature of T1, none for the
    acceleration of V1. *)
Definition prr_no_acceleration : gmap string string :=
  <["310@V1@velocity" := "10.0"]> prr_temp.

Definition prr_all : gmap string string :=
  <["310@V1@acceleration" := "10.0"]> prr_no_acceleration.

(** The master of [temp_on_2] with the vendor service unreachable. *)
Definition vendor_down : list (string * outcome) :=
  ("http://10.0.0.1/deviceinfo/vendor/getdata", ConnectionFailed)
  :: temp_on_2.

(** The events handed to [sendtosaas], earliest first. *)
Definition saas (st : io) : list (nat * string * string) :=
  rev (omap (fun e => match e with
                      | SendToSaas i evt evtd => Some (i, evt, ev_event evtd)
                      | _ => None
                      end) (out st)).

(** Three sensors of vendor 310 with process data that is too short, or
    holds characters that are no hexadecimal digits. *)
Definition vibration_not_hex : sensor :=
  IOLinkSensorInformation 1 (PyInt 416) (PyStr "pump") (PyStr "V1")
    (PyInt 310) (PyStr "JN2201") (PyStr "04B0zz6400A0").

Definition vibration_short : sensor :=
  IOLinkSensorInformation 1 (PyInt 417) (PyStr "pump") (PyStr "V1")
    (PyInt 310) (PyStr "JN2201") (PyStr "04B0").

Definition temperature_not_hex : sensor :=
  IOLinkSensorInformation 2 (PyInt 446) (PyStr "tank") (PyStr "T1")
    (PyInt 310) (PyStr "TA2002") (PyStr "zz58").

Definition vibration_ok : sensor :=
  IOLinkSensorInformation 1 (PyInt 416) (PyStr "pump") (PyStr "V1")
    (PyInt 310) (PyStr "JN2201") (PyStr "04B0006400A0").

Definition temperature_ok : sensor :=
  IOLinkSensorInformation 2 (PyInt 446) (PyStr "tank") (PyStr "T1")
    (PyInt 310) (PyStr "TA2002") (PyStr "0000012C").

(** The master of [l], unreachable at its [c0]-th request and at no
    other. *)
Definition outage (c0 : nat) (l : list (string * outcome))
  : nat -> string -> outcome :=
  fun c url => if (c =? c0)%nat then ConnectTimeout else served l url.

(** [getreadings] on the master [me] seen through [net], stopped after
    [k] turns of its loop. *)
Definition run (net : nat -> string -> outcome) (prr : gmap string string)
    (k : nat) : result (option locals) * io :=
  getreadings net me prr float_of_str "10.0.0.1" k st0.

(** The local variables that a run ended with. *)
Definition ended (x : result (option locals) * io) : option locals :=
  match x.1 with
  | Ok v => v
  | Raise _ => None
  end.

(** The fields of the points written for the master, earliest first. *)
Definition masterfields (st : io) : list (list (string * pyobj)) :=
  rev (omap (fun e => match e with
                      | WriteMaster d => Some (mfields d)
                      | _ => None
                      end) (out st)).

(** The measurements written for the sensors, earliest first, each with
    the index of its sensor. *)
Definition written (st : io) : list (nat * point) :=
  rev (omap (fun e => match e with
                      | WriteSensor i d => Some (i, d)
                      | _ => None
                      end) (out st)).

End Site.

(** ** Python's string methods *)

Module Text.

(** [s.startswith(c)] for a one-character [c]. *)
Definition startswith (c : ascii) (l : list ascii) : bool :=
  match l with
  | c' :: _ => Ascii.eqb c' c
  | [] => false
  end.

(** [s.split(sep)] for a one-character [sep]: the first piece and the
    pieces after it (the list is never empty). *)
Fixpoint split (sep : ascii) (l : list ascii)
  : list ascii * list (list ascii) :=
  match l with
  | [] => ([], [])
  | c :: l' =>
      let '(w, ws) := split sep l' in
      if Ascii.eqb c sep then ([], w :: ws) else (c :: w, ws)
  end.

(** [sep.join(pieces)]. *)
Fixpoint join (sep : ascii) (pieces : list (list ascii)) : list ascii :=
  match pieces with
  | [] => []
  | [w] => w
  | w :: ws => w ++ sep :: join sep ws
  end.

(** [s.partition(sep)] for a one-character [sep]. *)
Fixpoint partition (sep : ascii) (l : list ascii)
  : list ascii * list ascii * list ascii :=
  match l with
  | [] => ([], [], [])
  | c :: l' =>
      if Ascii.eqb c sep then ([], [sep], l')
      else let '(a, s, b) := partition sep l' in (c :: a, s, b)
  end.

(** [s.strip(c)] for a one-character [c]. *)
Fixpoint lstrip_char (c : ascii) (l : list ascii) : list ascii :=
  match l with
  | c' :: l' => if Ascii.eqb c' c then lstrip_char c l' else l
  | [] => []
  end.

Definition strip_char (c : ascii) (l : list ascii) : list ascii :=
  rev (lstrip_char c (rev (lstrip_char c l))).

(** [sub] is a prefix of [l]. *)
Fixpoint prefix (sub l : list ascii) : bool :=
  match sub, l with
  | [], _ => true
  | c :: sub', c' :: l' => Ascii.eqb c c' && prefix sub' l'
  | _ :: _, [] => false
  end.

(** [s.find(sub, 0)]: the index of the first occurrence of [sub], [None]
    for Python's -1. *)
Fixpoint find (sub l : list ascii) : option nat :=
  if prefix sub l then Some 0%nat
  else match l with
       | [] => None
       | _ :: l' => S <$> find sub l'
       end.

(** [s[s.find(sub, 0) + 1:]]: with -1 for a missing [sub] the slice is the
    whole string. *)
Definition after_find (sub l : list ascii) : list ascii :=
  match find sub l with
  | Some i => drop (S i) l
  | None => l
  end.

Definition decdigit (c : ascii) : option Z :=
  let n := Z.of_nat (nat_of_ascii c) in
  if ((48 <=? n) && (n <=? 57))%Z then Some (n - 48)%Z else None.

Fixpoint decdigits (acc : Z) (l : list ascii) : option Z :=
  match l with
  | [] => Some acc
  | c :: l' =>
      match decdigit c with
      | Some d => decdigits (10 * acc + d)%Z l'
      | None => None
      end
  end.

(** [int(s)] on a [str], as Python 3.5 reads it: surrounding blanks (those
    that [int()] skips), a sign, at least one decimal digit; [None] is the
    ValueError. *)
Definition int10 (l : list ascii) : option Z :=
  let body (l : list ascii) :=
    match l with
    | [] => None
    | _ => decdigits 0 l
    end in
  match skip l with
  | c :: l' =>
      if Ascii.eqb c "-" then Z.opp <$> body l'
      else if Ascii.eqb c "+" then body l'
      else body (c :: l')
  | [] => None
  end.

End Text.

(** ** The configuration: properties file and device list *)

Module Config.

Import Text.

(** [isanint(trystring)]. *)
Definition isanint (trystring : list ascii) : bool :=
  match int10 trystring with
  | Some _ => true
  | None => false
  end.

(** What the body of the loop of [load_properties] reads in one line:
    [None] when the line is blank or a comment, the [key] and the [value]
    otherwise. *)
Definition parse_line (line : string) : option (string * string) :=
  let lstrip := strip (list_ascii_of_string line) in
  match lstrip with
  | [] => None
  | _ =>
      if startswith "#" lstrip then None
      else
        let key_value := split "=" lstrip in
        let key := strip key_value.1 in
        let value := strip_char "034" (strip (join "=" key_value.2)) in
        Some (string_of_list_ascii key, string_of_list_ascii value)
  end.

(** The loop of [load_properties] over the lines of the file.  The
    assignment [props[key] = value] is made for every line, with the
    [key] and [value] of the latest line that had them. *)
Fixpoint load_lines (lines : list string) (key value : string)
    (props : gmap string string) : gmap string string :=
  match lines with
  | [] => props
  | line :: rest =>
      let '(key, value) := default (key, value) (parse_line line) in
      load_lines rest key value (<[key := value]> props)
  end.

(** [Properties.load_properties] on the lines of the file. *)
Definition load_properties (lines : list string) : gmap string string :=
  load_lines lines "" "" ∅.

(** The attributes of an [IOLinkMaster] object that the device list sets
    and that are read afterwards ([configfile], a copy of the address, is
    left out).  [port] and [delay] hold the default integer or the string
    of the properties file. *)
Record IOLinkMaster := Build_IOLinkMaster {
  port : pyobj;
  delay : pyobj;
  duration : Z;
  iterations : Z;
  devicename : string;
  ipaddress : string
}.

(** [IOLinkMaster()], then [devicename = device]. *)
Definition new_device (device : string) : IOLinkMaster :=
  {| port := PyInt 80; delay := PyInt (-1); duration := 10%Z;
     iterations := 6%Z;
     devicename := device; ipaddress := "" |}.

(** [IOLinkMaster.check]. *)
Definition check (d : IOLinkMaster) : bool :=
  negb (py_eq (delay d) (PyInt (-1)) || String.eqb (devicename d) ""
        || String.eqb (ipaddress d) "" || py_eq (port d) (PyInt (-1))).

(** The branch [myprop == 'delay']: the value kept as it is, and the
    duration and the iterations read from it or defaulted.  A test
    [isanint(x)] followed by [int(x)] is one match on [int10 x]. *)
Definition set_delay (d : IOLinkMaster) (value : string) : IOLinkMaster :=
  let '(p0, p1, p2) := partition "," (list_ascii_of_string value) in
  let with_times (duration iterations : Z) :=
    {| port := port d; delay := PyStr value; duration := duration;
       iterations := iterations; devicename := devicename d;
       ipaddress := ipaddress d |} in
  match int10 p0 with
  | None => with_times 10%Z 6%Z
  | Some tempvalue =>
      if ((tempvalue <? 5) || (600 <? tempvalue))%Z then with_times 10%Z 6%Z
      else
        let duration := tempvalue in
        if (length p1 <? 1)%nat then with_times duration 6%Z
        else if (length p2 <? 1)%nat then with_times duration 6%Z
        else
          match int10 p2 with
          | None => with_times duration 6%Z
          | Some tempvalue =>
              if ((tempvalue <? 5) || (20 <? tempvalue))%Z
              then with_times duration 6%Z
              else with_times duration tempvalue
          end
  end.

(** The exceptions that [IOLinkMasterList] raises. *)
Inductive failure :=
| Unrecognized (myprop : string)
| Incomplete (device : string).

Section Devices.

(** [str(resolveipaddress(s))]: the address in octet form, or the empty
    string. *)
Variable resolveipaddress : string -> string.

(** The body of [for key in dp] for one key. *)
Definition set_property (device : string) (d : IOLinkMaster)
    (key value : string) : failure + IOLinkMaster :=
  let searchstring := list_ascii_of_string (device +:+ ".") in
  match find searchstring (list_ascii_of_string key) with
  | None => inr d
  | Some _ =>
      let myprop :=
        string_of_list_ascii (after_find ["."%char]
                                (list_ascii_of_string key)) in
      if String.eqb myprop "ipaddress" then
        inr {| port := port d; delay := delay d; duration := duration d;
               iterations := iterations d; devicename := devicename d;
               ipaddress := resolveipaddress value |}
      else if String.eqb myprop "port" then
        inr {| port := PyStr value; delay := delay d; duration := duration d;
               iterations := iterations d; devicename := devicename d;
               ipaddress := ipaddress d |}
      else if String.eqb myprop "delay" then inr (set_delay d value)
      else inl (Unrecognized myprop)
  end.

(** [for key in dp], the items of [dp] in the order of the iteration. *)
Fixpoint set_properties (device : string) (d : IOLinkMaster)
    (dp : list (string * string)) : failure + IOLinkMaster :=
  match dp with
  | [] => inr d
  | (key, value) :: rest =>
      match set_property device d key value with
      | inl e => inl e
      | inr d' => set_properties device d' rest
      end
  end.

(** [for device in self.devices], appending to [devicelist].  The test
    [len(self.devices) < 1] before it never holds: [split] gives at least
    one piece. *)
Fixpoint configure (devices : list string) (dp : list (string * string))
  : failure + list IOLinkMaster :=
  match devices with
  | [] => inr []
  | device :: rest =>
      match set_properties device (new_device device) dp with
      | inl e => inl e
      | inr d =>
          if check d then
            match configure rest dp with
            | inl e => inl e
            | inr l => inr (d :: l)
            end
          else inl (Incomplete device)
      end
  end.

(** [raw_device_list.split(',')]. *)
Definition devices_of (raw_device_list : string) : list string :=
  let '(w, ws) := split "," (list_ascii_of_string raw_device_list) in
  map string_of_list_ascii (w :: ws).

(** [IOLinkMasterList(raw_device_list, dp)] for a [raw_device_list] that
    is a string: its [devicelist]. *)
Definition IOLinkMasterList (raw_device_list : string)
    (dp : list (string * string)) : failure + list IOLinkMaster :=
  configure (devices_of raw_device_list) dp.

End Devices.

Section Resolve.

(** [str(IP(s))] of the IPy library: [None] when [IP(s)] raises
    ValueError. *)
Variable IP : string -> option string.

(** [socket.gethostbyname(s)]: [None] when it raises [socket.error]. *)
Variable gethostbyname : string -> option string.

Definition isdigit (c : ascii) : bool :=
  match decdigit c with
  | Some _ => true
  | None => false
  end.

(** One to three digits: [\d{1,3}] on ASCII text. *)
Definition digits13 (l : list ascii) : bool :=
  (1 <=? length l)%nat && (length l <=? 3)%nat && forallb isdigit l.

(** The text that [$] lets a pattern end at: the string itself, or the
    string without its final newline. *)
Definition chomp (l : list ascii) : list ascii :=
  match rev l with
  | c :: r => if Ascii.eqb c "010" then rev r else l
  | [] => l
  end.

(** [re.match(r"^\d{1,3}\.\d{1,3}\.\d{1,3}\.\d{1,3}$", s)]: four
    groups of one to three digits separated by dots. *)
Definition isnumericip (l : list ascii) : bool :=
  let pieces := split "." (chomp l) in
  (length pieces.2 =? 3)%nat && forallb digits13 (pieces.1 :: pieces.2).

(** [all(0 <= int(part) < 256 for part in parts)], a ValueError of [int]
    counted as a failure: both make [resolveipaddress] return its empty
    string. *)
Fixpoint all_octets (parts : list (list ascii)) : bool :=
  match parts with
  | [] => true
  | part :: rest =>
      match int10 part with
      | Some n => (0 <=? n)%Z && (n <? 256)%Z && all_octets rest
      | None => false
      end
  end.

(** [str(resolveipaddress(ip2check))] for a string [ip2check]. *)
Definition resolveipaddress (ip2check : string) : string :=
  let l := list_ascii_of_string ip2check in
  if isnumericip l then
    let pieces := split "." l in
    let parts := pieces.1 :: pieces.2 in
    if negb ((length parts =? 4)%nat && all_octets parts) then EmptyString
    else default EmptyString (IP ip2check)
  else default EmptyString (gethostbyname ip2check).

End Resolve.

End Config.

(** ** Notions used by the statements on the configuration *)

Module ConfigProps.

Import Text Config.

(** The cycle time and the number of partial polls are within the ranges
    that the device list accepts. *)
Definition well_timed (d : IOLinkMaster) : Prop :=
  (5 <= duration d <= 600)%Z /\ (5 <= iterations d <= 20)%Z.

(** The device has an address and a delay taken from the properties. *)
Definition complete (d : IOLinkMaster) : Prop :=
  ipaddress d <> EmptyString /\ exists value, delay d = PyStr value.

(** The entries of a properties file, in the order of its lines. *)
Definition entries (lines : list string) : list (string * string) :=
  omap parse_line lines.

(** The file begins with a blank line or a comment. *)
Definition headless (lines : list string) : bool :=
  match lines with
  | line :: _ => match parse_line line with None => true | Some _ => false end
  | [] => false
  end.

(** The address of four numbers in octet form. *)
Definition octets (a b c d : nat) : string :=
  pretty a +:+ "." +:+ pretty b +:+ "." +:+ pretty c +:+ "." +:+ pretty d.

(** The decimal text [p] of the number [n] is one to three digits. *)
Definition octet_text (n : nat) (p : list ascii) : Prop :=
  digits13 p = true /\ int10 p = Some (Z.of_nat n) /\
  ~ In "."%char p /\ forallb isdigit p = true /\ p <> [].

(** A string that [strip()] leaves as it is. *)
Definition trimmed (l : list ascii) : Prop := strip l = l.

End ConfigProps.

(** ** Notions used by the statements on the turns of the loop *)

Module LoopProps.

(** What identifies the sensor of an entry: every attribute but the
    process data and the decoded measurement. *)
Definition identity (s : sensor)
  : Z * pyobj * pyobj * pyobj * pyobj * pyobj :=
  (sensorport s, sensortype s, sensorname s, sensorserial s,
   sensorvendorid s, sensorlocalname s).

(** The identities of the entries of a sensor list. *)
Definition identities (l : list (option sensor))
  : list (option (Z * pyobj * pyobj * pyobj * pyobj * pyobj)) :=
  map (option_map identity) l.

(** The list object [r] has the entries identified by [ids], in that
    order. *)
Definition identities_at (r : nat)
    (ids : list (option (Z * pyobj * pyobj * pyobj * pyobj * pyobj)))
    (h : list (list (option sensor))) : Prop :=
  exists l, h !! r = Some l /\ identities l = ids.

(** The event is a change event. *)
Definition is_configuration (e : effect) : bool :=
  match e with
  | SendToSaas _ evt _ => String.eqb evt "CONFIGURATION"
  | _ => false
  end.

(** A value that is no list and no dict. *)
Definition scalar (x : pyobj) : bool :=
  match x with
  | PyList _ | PyDict _ => false
  | _ => true
  end.

(** The type and the serial of an identity are scalars. *)
Definition plain (id : option (Z * pyobj * pyobj * pyobj * pyobj * pyobj))
  : Prop :=
  match id with
  | Some (_, typ, _, ser, _, _) => scalar typ = true /\ scalar ser = true
  | None => True
  end.

(** From [st] to [st'] the calls made to the collaborators all satisfy
    [Eff]. *)
Definition sends (Eff : effect -> Prop) (st st' : io) : Prop :=
  exists new, out st' = new ++ out st /\ Forall Eff new.

(** A computation that keeps [Inv] of the list objects and makes only
    calls that satisfy [Eff]. *)
Definition steady (Inv : list (list (option sensor)) -> Prop)
    (Eff : effect -> Prop) {A : Type} (m : M A) : Prop :=
  forall st res st', m st = (res, st') -> Inv (heap st) ->
    Inv (heap st') /\ sends Eff st st'.

(** What the master answers when its [c]-th request is the service
    [requeststring]. *)
Definition answer_at (net : nat -> string -> outcome) (self : IOLinkMaster)
    (c : nat) (requeststring : string) : result pyobj :=
  (httpget net self requeststring "" true
     {| clock := c; heap := []; out := [] |}).1.

End LoopProps.

(** * Theorems *)

(** ** Computations *)

Section MonadFacts.

Context {A B : Type}.

Lemma bind_inv (m : M A) (f : A -> M B) st r st' :
  (m ≫= f) st = (r, st') ->
  (exists a st1, m st = (Ok a, st1) /\ f a st1 = (r, st')) \/
  (exists e, m st = (Raise e, st') /\ r = Raise e).
Proof.
  unfold mbind, M_bind. destruct (m st) as [[a|e] st1]; intros H.
  - left. now exists a, st1.
  - right. injection H as <- <-. now exists e.
Qed.

Lemma bind_ok_inv (m : M A) (f : A -> M B) st b st' :
  (m ≫= f) st = (Ok b, st') ->
  exists a st1, m st = (Ok a, st1) /\ f a st1 = (Ok b, st').
Proof.
  intros H. apply bind_inv in H as [H | (e & _ & [=])]. exact H.
Qed.

Lemma bind_ok (m : M A) (f : A -> M B) st a st1 :
  m st = (Ok a, st1) -> (m ≫= f) st = f a st1.
Proof. unfold mbind, M_bind. now intros ->. Qed.

Lemma bind_raise (m : M A) (f : A -> M B) st e st1 :
  m st = (Raise e, st1) -> (m ≫= f) st = (Raise e, st1).
Proof. unfold mbind, M_bind. now intros ->. Qed.

End MonadFacts.

(** ** The codec *)

Section CodecFacts.

Open Scope Z_scope.

Lemma hexdigit_plain c d :
  hexdigit c = Some d ->
  is_cspace c = false /\ Ascii.eqb c "-" = false /\ Ascii.eqb c "+" = false /\
  Ascii.eqb c "x" = false /\ Ascii.eqb c "X" = false /\ 0 <= d < 16.
Proof.
  destruct c as [b0 b1 b2 b3 b4 b5 b6 b7].
  destruct b0, b1, b2, b3, b4, b5, b6, b7; vm_compute; intros H;
    try discriminate H; injection H as <-; repeat split; congruence.
Qed.

Lemma ishex_not_space c : ishex c -> is_cspace c = false.
Proof. intros [d Hd]. apply (hexdigit_plain _ _ Hd). Qed.

Lemma lskip_ishex c l : ishex c -> lskip (c :: l) = c :: l.
Proof. intros H. simpl. now rewrite (ishex_not_space _ H). Qed.

Lemma skip_ishex l : Forall ishex l -> skip l = l.
Proof.
  intros H. unfold skip.
  destruct l as [|c l]; [reflexivity|].
  rewrite lskip_ishex by (now inversion H).
  assert (Hr : Forall ishex (rev (c :: l))) by (now apply Forall_rev).
  destruct (rev (c :: l)) as [|x r] eqn:E.
  - apply (f_equal (@rev ascii)) in E. rewrite rev_involutive in E.
    discriminate E.
  - rewrite lskip_ishex by (now inversion Hr).
    rewrite <- E. apply rev_involutive.
Qed.

Lemma hexbody_ishex l :
  l <> [] -> Forall ishex l -> hexbody l = hexdigits 0 l.
Proof.
  intros Hne H. unfold hexbody.
  destruct l as [|c1 [|c2 l]]; [congruence|reflexivity|].
  assert (H2 : ishex c2) by (inversion H as [|? ? _ H']; now inversion H').
  destruct H2 as [d Hd].
  destruct (hexdigit_plain _ _ Hd) as (_ & _ & _ & -> & -> & _).
  now rewrite andb_false_r.
Qed.

Lemma int16_of_hex l :
  l <> [] -> Forall ishex l ->
  int16_of_string (string_of_list_ascii l) = hexdigits 0 l.
Proof.
  intros Hne H. unfold int16_of_string.
  rewrite list_ascii_of_string_of_list_ascii, skip_ishex by assumption.
  destruct l as [|c l]; [congruence|].
  assert (Hc : ishex c) by (now inversion H).
  destruct Hc as [d Hd].
  destruct (hexdigit_plain _ _ Hd) as (_ & -> & -> & _).
  now apply hexbody_ishex.
Qed.

Lemma hexbyte_inv c1 c2 b :
  hexbyte c1 c2 = Some b ->
  exists d1 d2, hexdigit c1 = Some d1 /\ hexdigit c2 = Some d2 /\
                b = 16 * d1 + d2 /\ 0 <= d1 < 16 /\ 0 <= d2 < 16.
Proof.
  unfold hexbyte. intros H.
  destruct (hexdigit c1) as [d1|] eqn:E1; [|discriminate H].
  destruct (hexdigit c2) as [d2|] eqn:E2; [|discriminate H].
  injection H as <-. exists d1, d2.
  pose proof (hexdigit_plain _ _ E1). pose proof (hexdigit_plain _ _ E2).
  intuition.
Qed.

Lemma bytes_of_hex_cons l b bs :
  bytes_of_hex l = Some (b :: bs) ->
  exists c1 c2 l', l = c1 :: c2 :: l' /\ hexbyte c1 c2 = Some b /\
                   bytes_of_hex l' = Some bs.
Proof.
  destruct l as [|c1 [|c2 l']]; intros H; try discriminate H.
  cbn [bytes_of_hex] in H.
  destruct (hexbyte c1 c2) as [b'|] eqn:Eb; [|discriminate H].
  destruct (bytes_of_hex l') as [bs'|] eqn:El; [|discriminate H].
  injection H as -> ->. now exists c1, c2, l'.
Qed.

Lemma bytes_of_hex_nil l : bytes_of_hex l = Some [] -> l = [].
Proof.
  destruct l as [|c1 [|c2 l']]; intros H; try discriminate H; [reflexivity|].
  cbn [bytes_of_hex] in H.
  destruct (hexbyte c1 c2); [|discriminate H].
  destruct (bytes_of_hex l'); discriminate H.
Qed.

Lemma bytes_of_hex_ishex bs : forall l,
  bytes_of_hex l = Some bs -> Forall ishex l.
Proof.
  induction bs as [|b bs IH]; intros l H.
  - apply bytes_of_hex_nil in H. subst. constructor.
  - apply bytes_of_hex_cons in H as (c1 & c2 & l' & -> & Hb & Hl).
    apply hexbyte_inv in Hb as (d1 & d2 & H1 & H2 & _).
    repeat constructor; unfold ishex; eauto.
Qed.

Lemma hexdigits_bytes bs : forall l acc,
  bytes_of_hex l = Some bs ->
  hexdigits acc l = Some (fold_left (fun a b => 256 * a + b) bs acc).
Proof.
  induction bs as [|b bs IH]; intros l acc H.
  - apply bytes_of_hex_nil in H. now subst.
  - apply bytes_of_hex_cons in H as (c1 & c2 & l' & -> & Hb & Hl).
    apply hexbyte_inv in Hb as (d1 & d2 & H1 & H2 & -> & _).
    simpl. rewrite H1, H2. rewrite (IH _ _ Hl). do 2 f_equal. lia.
Qed.

Lemma bytes_range bs : forall l,
  bytes_of_hex l = Some bs -> Forall (fun b => 0 <= b < 256) bs.
Proof.
  induction bs as [|b bs IH]; intros l H; [constructor|].
  apply bytes_of_hex_cons in H as (c1 & c2 & l' & -> & Hb & Hl).
  apply hexbyte_inv in Hb as (d1 & d2 & _ & _ & -> & ? & ?).
  constructor; [lia|eauto].
Qed.

Lemma fold_be_bound bs : forall acc,
  Forall (fun b => 0 <= b < 256) bs -> 0 <= acc ->
  0 <= fold_left (fun a b => 256 * a + b) bs acc
    < (acc + 1) * 256 ^ Z.of_nat (length bs).
Proof.
  induction bs as [|b bs IH]; intros acc H Hacc.
  - simpl. lia.
  - inversion H as [|? ? Hb Hbs]; subst.
    cbn [fold_left length]. rewrite Nat2Z.inj_succ, Z.pow_succ_r by lia.
    specialize (IH (256 * acc + b) Hbs ltac:(lia)).
    split; [lia|].
    eapply Z.lt_le_trans; [apply IH|].
    assert (0 < 256 ^ Z.of_nat (length bs)) by (apply Z.pow_pos_nonneg; lia).
    nia.
Qed.

Lemma float_of_int_exact z :
  0 <= z < 2 ^ 53 -> float_of_int z = Ok (float_of_nat53 z).
Proof.
  intros H. unfold float_of_int, float_of_nat53.
  rewrite Z.abs_eq by lia.
  destruct (Z.ltb_spec z (2 ^ 53)); [|lia].
  destruct (Z.ltb_spec z 0); [lia|reflexivity].
Qed.

Lemma int16_of_chars l v :
  l <> [] -> Forall ishex l -> hexdigits 0 l = Some v ->
  py_int16 (PyStr (string_of_list_ascii l)) = Ok v.
Proof.
  intros Hne H Hv. unfold py_int16.
  now rewrite int16_of_hex, Hv.
Qed.

Lemma int16_of_bytes raw bs :
  bs <> [] -> bytes_of_hex (list_ascii_of_string raw) = Some bs ->
  py_int16 (PyStr raw) = Ok (be_uint bs).
Proof.
  intros Hne H.
  rewrite <- (string_of_list_ascii_of_string raw).
  apply int16_of_chars.
  - destruct bs as [|b bs]; [congruence|].
    apply bytes_of_hex_cons in H as (c1 & c2 & l' & -> & _). discriminate.
  - eapply bytes_of_hex_ishex, H.
  - now apply hexdigits_bytes.
Qed.

Lemma be_uint_bound l bs :
  bytes_of_hex l = Some bs -> 0 <= be_uint bs < 256 ^ Z.of_nat (length bs).
Proof.
  intros H. apply bytes_range in H.
  pose proof (fold_be_bound bs 0 H ltac:(lia)) as Hb.
  unfold be_uint. lia.
Qed.

Lemma int16_of_pair c1 c2 c3 c4 b1 b2 :
  hexbyte c1 c2 = Some b1 -> hexbyte c3 c4 = Some b2 ->
  py_int16 (PyStr (string_of_list_ascii [c1; c2; c3; c4]))
  = Ok (be_uint [b1; b2]) /\ 0 <= be_uint [b1; b2] < 2 ^ 53.
Proof.
  intros H1 H2.
  assert (H : bytes_of_hex [c1; c2; c3; c4] = Some [b1; b2])
    by (cbn [bytes_of_hex]; now rewrite H1, H2).
  split.
  - rewrite <- (list_ascii_of_string_of_list_ascii [c1; c2; c3; c4]) in H.
    now apply int16_of_bytes in H.
  - apply be_uint_bound in H. cbn [length] in H.
    change (256 ^ Z.of_nat 2) with 65536 in H.
    change (2 ^ 53) with 9007199254740992. lia.
Qed.

(** C6: for raw process data that is a string of hexadecimal byte pairs,
    [datatojson] on a sensor of vendor 310 returns, for type 416 or 417
    and at least six bytes, configuration = the high nibble of byte 5,
    diagnosis = byte 4, velocity = the big-endian 16-bit value of bytes
    2-3 divided by 100.0 and acceleration = that of bytes 0-1 divided by
    100.0; for type 446 and one to six bytes, temperature = the whole
    value as a big-endian integer divided by 10.0.  The integer is parsed
    first and converted exactly; the only rounding is the division's. *)
Theorem datatojson_fields (ipx : string) (s : sensor) (raw : string)
    (bs : list Z) :
  sensorvendorid s = PyInt 310 ->
  sensorprocessdata s = PyStr raw ->
  bytes_of_hex (list_ascii_of_string raw) = Some bs ->
  ((sensortype s = PyInt 416 \/ sensortype s = PyInt 417) ->
   (6 <= length bs)%nat ->
   datatojson ipx s =
   Ok (Some {| measurement := "vibrationEvents";
               tags := sensortags ipx s;
               fields :=
                 [("configuration", NInt (Z.shiftr (byte bs 5) 4));
                  ("diagnosis", NInt (byte bs 4));
                  ("velocity",
                   NFloat (PrimFloat.div
                     (float_of_nat53 (be_uint [byte bs 2; byte bs 3])) 100));
                  ("acceleration",
                   NFloat (PrimFloat.div
                     (float_of_nat53 (be_uint [byte bs 0; byte bs 1])) 100))]
            |})) /\
  (sensortype s = PyInt 446 ->
   (1 <= length bs <= 6)%nat ->
   datatojson ipx s =
   Ok (Some {| measurement := "temperatureEvents";
               tags := sensortags ipx s;
               fields :=
                 [("temperature",
                   NFloat (PrimFloat.div (float_of_nat53 (be_uint bs)) 10))]
            |})).
Proof.
  intros Hv Hpd Hbs. split.
  - intros Ht Hlen.
    destruct bs as [|b0 [|b1 [|b2 [|b3 [|b4 [|b5 rest]]]]]];
      cbn [length] in Hlen; try lia.
    apply bytes_of_hex_cons in Hbs as (c0 & c1 & l1 & Hl & H0 & Hbs).
    apply bytes_of_hex_cons in Hbs as (c2 & c3 & l2 & -> & H1 & Hbs).
    apply bytes_of_hex_cons in Hbs as (c4 & c5 & l3 & -> & H2 & Hbs).
    apply bytes_of_hex_cons in Hbs as (c6 & c7 & l4 & -> & H3 & Hbs).
    apply bytes_of_hex_cons in Hbs as (c8 & c9 & l5 & -> & H4 & Hbs).
    apply bytes_of_hex_cons in Hbs as (c10 & c11 & l6 & -> & H5 & _).
    apply (f_equal string_of_list_ascii) in Hl.
    rewrite string_of_list_ascii_of_string in Hl.
    destruct (int16_of_pair _ _ _ _ _ _ H0 H1) as [Ea Ba].
    destruct (int16_of_pair _ _ _ _ _ _ H2 H3) as [Ev Bv].
    apply hexbyte_inv in H4 as (d8 & d9 & E8 & E9 & -> & ? & ?).
    apply hexbyte_inv in H5 as (d10 & d11 & E10 & E11 & -> & ? & ?).
    assert (Ec : py_int16 (PyStr (string_of_list_ascii [c10])) = Ok d10).
    { apply int16_of_chars; [discriminate| |].
      - repeat constructor. now exists d10.
      - cbn [hexdigits]. rewrite E10. f_equal; lia. }
    assert (Ed : py_int16 (PyStr (string_of_list_ascii [c8; c9]))
                 = Ok (16 * d8 + d9)).
    { apply int16_of_chars; [discriminate| |].
      - repeat constructor; [now exists d8|now exists d9].
      - cbn [hexdigits]. rewrite E8, E9. f_equal; lia. }
    assert (Esh : Z.shiftr (16 * d10 + d11) 4 = d10).
    { rewrite Z.shiftr_div_pow2 by lia. change (2 ^ 4) with 16.
      symmetry. apply (Z.div_unique _ _ _ d11); lia. }
    unfold datatojson. rewrite Hv, Hpd.
    assert (Hin : py_in (sensortype s) [416; 417] = true)
      by (destruct Ht as [-> | ->]; reflexivity).
    rewrite Hin. subst raw.
    cbn [py_eq Z.eqb Pos.eqb py_slice string_of_list_ascii substring
         Nat.sub].
    cbn [string_of_list_ascii] in Ec, Ed, Ev, Ea.
    cbn [mbind result_bind]. rewrite Ec. cbn [mbind result_bind]. rewrite Ed. cbn [mbind result_bind].
    rewrite Ev. cbn [mbind result_bind].
    unfold int_truediv. rewrite (float_of_int_exact _ Bv).
    cbn [mbind result_bind]. rewrite Ea. cbn [mbind result_bind].
    rewrite (float_of_int_exact _ Ba). cbn [mbind result_bind].
    unfold byte. cbn [nth]. now rewrite Esh.
  - intros Ht Hlen.
    assert (Hne : bs <> []) by (destruct bs; cbn [length] in Hlen; [lia|easy]).
    pose proof (int16_of_bytes _ _ Hne Hbs) as Ei.
    pose proof (be_uint_bound _ _ Hbs) as Hb.
    assert (Hr : 0 <= be_uint bs < 2 ^ 53).
    { split; [lia|]. eapply Z.lt_le_trans; [apply Hb|].
      change (2 ^ 53) with (2 ^ 5 * 256 ^ 6).
      assert (256 ^ Z.of_nat (length bs) <= 256 ^ 6)
        by (apply Z.pow_le_mono_r; lia).
      lia. }
    unfold datatojson. rewrite Hv, Ht, Hpd.
    cbn [py_eq Z.eqb Pos.eqb py_in existsb orb].
    rewrite Ei. cbn [mbind result_bind].
    unfold int_truediv. rewrite (float_of_int_exact _ Hr).
    reflexivity.
Qed.

End CodecFacts.

Section DecodeErrors.

Lemma substring_short n m : forall raw,
  (String.length raw <= n)%nat -> substring n m raw = EmptyString.
Proof.
  induction n as [|n IH]; intros raw H.
  - destruct raw; [|cbn [String.length] in H; lia]. now destruct m.
  - destruct raw as [|c raw]; [reflexivity|].
    cbn [String.length] in H. cbn [substring]. apply IH. lia.
Qed.

Lemma substring_length : forall raw n m,
  (String.length (substring n m raw) <= m)%nat.
Proof.
  induction raw as [|c raw IH]; intros n m.
  - destruct n, m; cbn; lia.
  - destruct n as [|n].
    + destruct m as [|m]; cbn [substring String.length]; [lia|].
      specialize (IH 0%nat m). lia.
    + cbn [substring]. apply IH.
Qed.

Lemma lskip_length l : (length (lskip l) <= length l)%nat.
Proof.
  induction l as [|c l IH]; [reflexivity|]. cbn [lskip].
  destruct (is_cspace c); cbn [length]; lia.
Qed.

Lemma skip_length l : (length (skip l) <= length l)%nat.
Proof.
  unfold skip. rewrite length_rev.
  pose proof (lskip_length (rev (lskip l))) as H1.
  pose proof (lskip_length l) as H2.
  rewrite length_rev in H1. lia.
Qed.

Lemma hexdigit_range c d : hexdigit c = Some d -> (0 <= d < 16)%Z.
Proof.
  unfold hexdigit. intros H.
  repeat match type of H with
         | (if ?b then _ else _) = _ => destruct b eqn:?
         end; try discriminate H; injection H as <-; lia.
Qed.

Lemma hexdigits_bound l : forall acc z,
  (0 <= acc)%Z -> hexdigits acc l = Some z ->
  (0 <= z < (acc + 1) * 16 ^ Z.of_nat (length l))%Z.
Proof.
  induction l as [|c l IH]; intros acc z Ha H; cbn [hexdigits] in H.
  - injection H as <-. cbn. lia.
  - destruct (hexdigit c) as [d|] eqn:Hd; [|discriminate H].
    apply hexdigit_range in Hd.
    apply IH in H; [|lia].
    cbn [length]. rewrite Nat2Z.inj_succ, Z.pow_succ_r by lia.
    assert (0 < 16 ^ Z.of_nat (length l))%Z by (apply Z.pow_pos_nonneg; lia).
    nia.
Qed.

Lemma hexbody_bound l z :
  hexbody l = Some z -> (0 <= z < 16 ^ Z.of_nat (length l))%Z.
Proof.
  unfold hexbody. intros H.
  assert (Hd : forall digits, (length digits <= length l)%nat ->
            match digits with [] => None | _ => hexdigits 0 digits end
              = Some z ->
            (0 <= z < 16 ^ Z.of_nat (length l))%Z).
  { intros digits Hlen Hz.
    assert (Hx : hexdigits 0 digits = Some z) by (now destruct digits).
    apply hexdigits_bound in Hx; [|lia].
    assert (16 ^ Z.of_nat (length digits) <= 16 ^ Z.of_nat (length l))%Z
      by (apply Z.pow_le_mono_r; lia).
    lia. }
  destruct l as [|c1 [|c2 l']]; try (apply (Hd _ (le_n _) H)).
  destruct (Ascii.eqb c1 "0" && (Ascii.eqb c2 "x" || Ascii.eqb c2 "X")).
  - apply (Hd l'); [cbn [length]; lia|exact H].
  - apply (Hd _ (le_n _) H).
Qed.

Lemma list_ascii_length s :
  length (list_ascii_of_string s) = String.length s.
Proof. induction s as [|c s IH]; [reflexivity|]. cbn. now rewrite IH. Qed.

Lemma int16_of_string_bound s z :
  int16_of_string s = Some z ->
  (Z.abs z < 16 ^ Z.of_nat (String.length s))%Z.
Proof.
  unfold int16_of_string. intros H.
  pose proof (skip_length (list_ascii_of_string s)) as Hl.
  rewrite list_ascii_length in Hl.
  destruct (skip (list_ascii_of_string s)) as [|c l]; [discriminate H|].
  cbn [length] in Hl.
  assert (Hb : forall l0 z0, (length l0 <= S (length l))%nat ->
            hexbody l0 = Some z0 ->
            (0 <= z0 < 16 ^ Z.of_nat (String.length s))%Z).
  { intros l0 z0 Hlen Hz. apply hexbody_bound in Hz.
    assert (16 ^ Z.of_nat (length l0) <= 16 ^ Z.of_nat (String.length s))%Z
      by (apply Z.pow_le_mono_r; lia).
    lia. }
  destruct (Ascii.eqb c "-").
  - destruct (hexbody l) as [z0|] eqn:Hz; [|discriminate H].
    injection H as <-. apply Hb in Hz; [|lia]. lia.
  - destruct (Ascii.eqb c "+").
    + apply Hb in H; [|lia]. lia.
    + apply Hb in H; [|cbn [length]; lia]. lia.
Qed.

(** The division of what a slice of at most four characters reads. *)
Lemma truediv_slice raw a z d :
  int16_of_string (substring a 4 raw) = Some z ->
  int_truediv z d =
  Ok (PrimFloat.div
        (let m := PrimFloat.of_uint63 (Uint63.of_Z (Z.abs z)) in
         if (z <? 0)%Z then PrimFloat.opp m else m) d).
Proof.
  intros H. apply int16_of_string_bound in H.
  pose proof (substring_length raw a 4) as Hl.
  assert (16 ^ Z.of_nat (String.length (substring a 4 raw)) <= 16 ^ 4)%Z
    by (apply Z.pow_le_mono_r; lia).
  unfold int_truediv, float_of_int.
  destruct (Z.ltb_spec (Z.abs z) (2 ^ 53)); [reflexivity|].
  change (16 ^ 4)%Z with 65536%Z in *.
  change (2 ^ 53)%Z with 9007199254740992%Z in *. lia.
Qed.

Ltac step_result :=
  match goal with
  | |- context [mbind _ ?m] =>
      destruct m; cbn [mbind result_bind]; try discriminate
  end.

(** C2, as the code has it: for a sensor of vendor 310 and type 416, 417
    or 446 whose process data is a string, [datatojson] never yields the
    empty result [None]: it returns a measurement or raises.  For the
    types 416 and 417 a string of fewer than 11 characters, or one in
    which a slice that is read is no hexadecimal literal, raises
    ValueError; for the type 446 a string that is no hexadecimal literal
    raises ValueError. *)
Theorem datatojson_registered (ipx : string) (s : sensor) (raw : string) :
  sensorvendorid s = PyInt 310 ->
  sensortype s = PyInt 416 \/ sensortype s = PyInt 417 \/
  sensortype s = PyInt 446 ->
  sensorprocessdata s = PyStr raw ->
  datatojson ipx s <> Ok None /\
  (sensortype s <> PyInt 446 -> (String.length raw < 11)%nat ->
   datatojson ipx s = Raise ValueError) /\
  (sensortype s <> PyInt 446 ->
   int16_of_string (substring 10 1 raw) = None \/
   int16_of_string (substring 8 2 raw) = None \/
   int16_of_string (substring 4 4 raw) = None \/
   int16_of_string (substring 0 4 raw) = None ->
   datatojson ipx s = Raise ValueError) /\
  (sensortype s = PyInt 446 -> int16_of_string raw = None ->
   datatojson ipx s = Raise ValueError).
Proof.
  intros Hv Ht Hp.
  assert (Hvib :
    forall typ, typ = 416%Z \/ typ = 417%Z -> sensortype s = PyInt typ ->
    int16_of_string (substring 10 1 raw) = None \/
    int16_of_string (substring 8 2 raw) = None \/
    int16_of_string (substring 4 4 raw) = None \/
    int16_of_string (substring 0 4 raw) = None ->
    datatojson ipx s = Raise ValueError).
  { intros typ Htyp Hs Hbad. unfold datatojson. rewrite Hv, Hp, Hs.
    cbn [py_eq Z.eqb Pos.eqb].
    replace (py_in (PyInt typ) [416; 417]%Z) with true
      by (destruct Htyp as [-> | ->]; reflexivity).
    cbn [py_slice mbind result_bind py_int16 Nat.sub].
    destruct (int16_of_string (substring 10 1 raw)) as [c|];
      [|reflexivity].
    destruct (int16_of_string (substring 8 2 raw)) as [d|];
      [|reflexivity].
    destruct (int16_of_string (substring 4 4 raw)) as [v|] eqn:Ev;
      [|reflexivity].
    cbn [mbind result_bind]. rewrite (truediv_slice raw 4 v _ Ev).
    destruct (int16_of_string (substring 0 4 raw)) as [a|];
      [|reflexivity].
    exfalso. destruct Hbad as [H | [H | [H | H]]]; discriminate H. }
  assert (Hnone : datatojson ipx s <> Ok None).
  { unfold datatojson. rewrite Hv, Hp. cbn [py_eq Z.eqb Pos.eqb].
    destruct Ht as [Ht | [Ht | Ht]]; rewrite Ht;
      cbn [py_in existsb py_eq Z.eqb Pos.eqb orb]; repeat step_result. }
  split; [exact Hnone|]. split; [|split].
  - intros Hne Hlen.
    assert (Hbad : int16_of_string (substring 10 1 raw) = None)
      by now rewrite (substring_short 10) by lia.
    destruct Ht as [Ht | [Ht | Ht]]; [| |contradiction].
    + exact (Hvib 416%Z (or_introl eq_refl) Ht (or_introl Hbad)).
    + exact (Hvib 417%Z (or_intror eq_refl) Ht (or_introl Hbad)).
  - intros Hne Hbad.
    destruct Ht as [Ht | [Ht | Ht]]; [| |contradiction].
    + exact (Hvib 416%Z (or_introl eq_refl) Ht Hbad).
    + exact (Hvib 417%Z (or_intror eq_refl) Ht Hbad).
  - intros Ht446 Hn. unfold datatojson. rewrite Hv, Hp, Ht446.
    cbn [py_eq Z.eqb Pos.eqb py_in existsb orb py_int16].
    now rewrite Hn.
Qed.

End DecodeErrors.

(** C2 as the spec states it fails: decoding process data of a registered
    type that is too short or holds characters that are no hexadecimal
    digits yields no empty result; it raises. *)
Lemma datatojson_raises :
  datatojson "10.0.0.1" Site.vibration_short = Raise ValueError /\
  datatojson "10.0.0.1" Site.vibration_not_hex = Raise ValueError /\
  datatojson "10.0.0.1" Site.temperature_not_hex = Raise ValueError.
Proof. repeat split; vm_compute; reflexivity. Qed.

Lemma datatojson_registered_witness :
  datatojson "10.0.0.1" Site.vibration_short <> Ok None /\
  datatojson "10.0.0.1" Site.vibration_short = Raise ValueError /\
  datatojson "10.0.0.1" Site.vibration_not_hex = Raise ValueError.
Proof.
  destruct (datatojson_registered "10.0.0.1" Site.vibration_short "04B0"
              eq_refl (or_intror (or_introl eq_refl)) eq_refl)
    as (H1 & H2 & _).
  destruct (datatojson_registered "10.0.0.1" Site.vibration_not_hex
              "04B0zz6400A0" eq_refl (or_introl eq_refl) eq_refl)
    as (_ & _ & H3 & _).
  split; [exact H1|]. split.
  - apply H2; [discriminate|cbn; lia].
  - apply H3; [discriminate|]. right. right. left. reflexivity.
Defined.

(** ** The schedule of full and partial polls *)

Section Schedule.

Variable net : nat -> string -> outcome.
Variable self : IOLinkMaster.
Variable prr : gmap string string.
Variable float_of_str : string -> option float.

Open Scope Z_scope.

(** What a completed turn of the loop does to [fullinfo] and
    [itercount]. *)
Lemma cycle_control ipx v st v' st' :
  cycle net self prr float_of_str ipx v st = (Ok v', st') ->
  (fullinfo v = true ->
   fullinfo v' = false /\ itercount v' = itercount v + 1) /\
  (fullinfo v = false ->
   if iterations self <? itercount v + 1
   then fullinfo v' = true /\ itercount v' = 0
   else fullinfo v' = false /\ itercount v' = itercount v + 1).
Proof.
  unfold cycle. intros H.
  apply bind_ok_inv in H as ([[[info cur] full] it] & st1 & H1 & H).
  apply bind_ok_inv in H as (? & st2 & _ & H).
  apply bind_ok_inv in H as (? & st3 & _ & H).
  injection H as <- _.
  cbn [fullinfo itercount].
  destruct (fullinfo v).
  - apply bind_ok_inv in H1 as ([info' cur'] & st4 & _ & H1).
    injection H1 as _ _ <- <- _. split; [easy|discriminate].
  - split; [discriminate|intros _].
    destruct (iterations self <? itercount v + 1);
      apply bind_ok_inv in H1 as (? & st4 & _ & H1);
      injection H1 as _ _ <- <- _; easy.
Qed.

Lemma succ_mod (K n : Z) :
  1 <= K -> 0 <= n ->
  (n + 1) mod (K + 1) =
  if n mod (K + 1) =? K then 0 else n mod (K + 1) + 1.
Proof.
  intros HK Hn.
  pose proof (Z.mod_pos_bound n (K + 1) ltac:(lia)) as Hm.
  pose proof (Z.div_mod n (K + 1) ltac:(lia)) as Hd.
  destruct (Z.eqb_spec (n mod (K + 1)) K) as [E|E]; symmetry.
  - apply (Z.mod_unique_pos _ _ (n / (K + 1) + 1)); lia.
  - apply (Z.mod_unique_pos _ _ (n / (K + 1))); lia.
Qed.

Lemma cycles_schedule ipx k : forall v st v' st' n,
  1 <= iterations self ->
  0 <= n ->
  fullinfo v = (n mod (iterations self + 1) =? 0) ->
  itercount v = n mod (iterations self + 1) ->
  cycles net self prr float_of_str ipx k v st = (Ok v', st') ->
  fullinfo v' = ((n + Z.of_nat k) mod (iterations self + 1) =? 0) /\
  itercount v' = (n + Z.of_nat k) mod (iterations self + 1).
Proof.
  induction k as [|k IH]; intros v st v' st' n HK Hn Hf Hi H.
  - cbn [cycles] in H. injection H as <- _.
    rewrite Z.add_0_r. easy.
  - cbn [cycles] in H.
    apply bind_ok_inv in H as (v1 & st1 & Hc & H).
    apply cycle_control in Hc as [Hfull Hpart].
    replace (n + Z.of_nat (S k)) with ((n + 1) + Z.of_nat k) by lia.
    set (K := iterations self) in *.
    pose proof (Z.mod_pos_bound n (K + 1) ltac:(lia)) as Hm.
    pose proof (succ_mod K n HK Hn) as Hs.
    assert (Hv1 : fullinfo v1 = ((n + 1) mod (K + 1) =? 0) /\
                  itercount v1 = (n + 1) mod (K + 1)).
    { rewrite Hs. destruct (fullinfo v).
      - destruct (Hfull eq_refl) as [-> ->].
        symmetry in Hf. apply Z.eqb_eq in Hf. rewrite Hi, Hf.
        destruct (Z.eqb_spec 0 K); [lia|]. easy.
      - specialize (Hpart eq_refl).
        symmetry in Hf. apply Z.eqb_neq in Hf. rewrite Hi in Hpart.
        destruct (Z.ltb_spec K (n mod (K + 1) + 1)) as [L|L];
          destruct Hpart as [-> ->];
          destruct (Z.eqb_spec (n mod (K + 1)) K) as [E|E]; try lia.
        all: split; [|lia]; try reflexivity.
        all: symmetry; apply Z.eqb_neq; lia. }
    destruct Hv1 as [Hf1 Hi1].
    apply (IH v1 st1 v' st' (n + 1) HK); [lia|assumption..].
Qed.

(** One more turn of the loop is one more call of its body. *)
Lemma cycles_S ipx k v :
  cycles net self prr float_of_str ipx (S k) v =
  (v1 ← cycle net self prr float_of_str ipx v;
   cycles net self prr float_of_str ipx k v1).
Proof. reflexivity. Qed.

Lemma cycles_succ ipx k : forall v st,
  cycles net self prr float_of_str ipx (S k) v st =
  (v' ← cycles net self prr float_of_str ipx k v;
   cycle net self prr float_of_str ipx v') st.
Proof.
  induction k as [|k IH]; intros v st.
  - cbn [cycles]. unfold mbind, M_bind, mret, M_ret.
    now destruct (cycle _ _ _ _ _ v st) as [[v1|e] st1].
  - rewrite (cycles_S ipx (S k) v), (cycles_S ipx k v).
    unfold mbind, M_bind.
    destruct (cycle _ _ _ _ _ v st) as [[v1|e] st1]; [|reflexivity].
    rewrite IH. reflexivity.
Qed.

Lemma cycles_add ipx n m : forall v st,
  cycles net self prr float_of_str ipx (n + m) v st =
  (v' ← cycles net self prr float_of_str ipx n v;
   cycles net self prr float_of_str ipx m v') st.
Proof.
  induction n as [|n IH]; intros v st; [reflexivity|].
  cbn [Nat.add]. rewrite !cycles_S. unfold mbind at 1 2 3, M_bind.
  destruct (cycle _ _ _ _ _ v st) as [[v1|e] st1]; [|reflexivity].
  apply IH.
Qed.

(** C7, as the code has it: with a configured number [iterations] of at
    least one, the turn that the loop of [getreadings] takes after [n]
    completed turns is a full poll exactly when [n] is a multiple of
    [iterations + 1]: the first turn is a full poll, the turn after a
    full poll is a partial poll, and after [iterations] partial polls in a
    row the next is a full poll again.  The loop has no exit of its own:
    a completed turn is followed by the body once more.  It ends when a
    turn raises: the exception leaves [getreadings], in the state the
    turn raised in, and no later turn runs. *)
Theorem poll_schedule (ipx : string) (n : nat) (st : io) (v : locals)
    (st' : io) :
  1 <= iterations self ->
  getreadings net self prr float_of_str ipx n st = (Ok (Some v), st') ->
  next_poll v =
    (if Z.of_nat n mod (iterations self + 1) =? 0 then FULL_POLL
     else PARTIAL_POLL) /\
  getreadings net self prr float_of_str ipx (S n) st =
    (v' ← cycle net self prr float_of_str ipx v; mret (Some v')) st' /\
  (forall e st'',
     cycle net self prr float_of_str ipx v st' = (Raise e, st'') ->
     forall m, (n < m)%nat ->
       getreadings net self prr float_of_str ipx m st = (Raise e, st'')).
Proof.
  intros HK E. unfold getreadings in E |- *.
  apply bind_ok_inv in E as (start & st1 & E0 & E).
  destruct start as [v0|]; [|discriminate E].
  apply bind_ok_inv in E as (v1 & st2 & E1 & E).
  cbv [mret M_ret] in E. injection E as E2 E3. subst v1 st2.
  assert (H0 : fullinfo v0 = true /\ itercount v0 = 0).
  { unfold getreadings_start in E0.
    apply bind_ok_inv in E0 as (r & s1 & _ & E0).
    apply bind_ok_inv in E0 as (m & s2 & _ & E0).
    destruct m; cbv [mret M_ret] in E0; injection E0 as E0 _;
      [now subst v0 | discriminate E0]. }
  destruct H0 as [Hf Hi].
  split; [|split].
  - assert (Hf0 : fullinfo v0 = (0 mod (iterations self + 1) =? 0))
      by now rewrite Hf, Z.mod_0_l by lia.
    assert (Hi0 : itercount v0 = 0 mod (iterations self + 1))
      by now rewrite Hi, Z.mod_0_l by lia.
    destruct (cycles_schedule ipx n v0 st1 v st' 0 HK (Z.le_refl 0)
                Hf0 Hi0 E1) as [Hv _].
    unfold next_poll. rewrite Hv, Z.add_0_l.
    now destruct (_ =? 0).
  - unfold mbind at 1, M_bind at 1. rewrite E0.
    unfold mbind at 1, M_bind at 1. rewrite cycles_succ.
    unfold mbind at 1, M_bind at 1. rewrite E1.
    reflexivity.
  - intros e st'' Er m Hm.
    replace m with (n + S (m - S n))%nat by lia.
    unfold mbind at 1, M_bind at 1. rewrite E0.
    unfold mbind at 1, M_bind at 1. rewrite cycles_add.
    unfold mbind at 1, M_bind at 1. rewrite E1.
    rewrite cycles_S. unfold mbind at 1, M_bind at 1. rewrite Er.
    reflexivity.
Qed.

End Schedule.

(** ** Requests that fail *)

Section Transport.

Variable net : nat -> string -> outcome.
Variable self : IOLinkMaster.

Local Abbreviation strict := (Props.strict net).
Local Abbreviation still := Props.still.
Local Abbreviation polled := (Props.polled net self).

Lemma still_bind {A B : Type} (m : M A) (f : A -> M B) :
  still m -> (forall a, still (f a)) -> still (m ≫= f).
Proof.
  intros Hm Hf st. unfold mbind, M_bind.
  specialize (Hm st). destruct (m st) as [[a|e] st1]; cbn in *.
  - now rewrite Hf.
  - exact Hm.
Qed.

Lemma still_lift {A : Type} (r : result A) : still (lift r).
Proof. now intros st. Qed.

Lemma still_ret {A : Type} (a : A) : still (mret a).
Proof. now intros st. Qed.

Lemma still_raise {A : Type} (e : exn) : still (@raise A e).
Proof. now intros st. Qed.

Lemma strict_still {A : Type} (m : M A) :
  still m -> strict m.
Proof.
  intros H st r st' E. specialize (H st). rewrite E in H. cbn in H.
  split; [lia|]. intros c Hc. lia.
Qed.

Lemma strict_ret {A : Type} (a : A) : strict (mret a).
Proof. now apply strict_still. Qed.

Lemma strict_raise {A : Type} (e : exn) : strict (@raise A e).
Proof. now apply strict_still. Qed.

Lemma strict_lift {A : Type} (r : result A) : strict (lift r).
Proof. now apply strict_still. Qed.

Lemma strict_emit e : strict (emit e).
Proof. now apply strict_still. Qed.

Lemma strict_alloc l : strict (alloc l).
Proof. now apply strict_still. Qed.

Lemma strict_deref r : strict (deref r).
Proof. now apply strict_still. Qed.

Lemma strict_update r i f : strict (update r i f).
Proof. now apply strict_still. Qed.

Lemma strict_index {A : Type} (l : list A) i : strict (index l i).
Proof. unfold index. destruct (l !! i); now apply strict_still. Qed.

Lemma strict_attr_of {A : Type} (x : option A) : strict (attr_of x).
Proof. destruct x; now apply strict_still. Qed.

Lemma strict_bind {A B : Type} (m : M A) (f : A -> M B) :
  strict m -> (forall a, strict (f a)) -> strict (m ≫= f).
Proof.
  intros Hm Hf st r st' E.
  apply bind_inv in E as [(a & st1 & E1 & E2) | (e & E1 & ->)].
  - destruct (Hm _ _ _ E1) as [L1 F1]. destruct (Hf a _ _ _ E2) as [L2 F2].
    split; [lia|]. intros c Hc Hu.
    destruct (Nat.lt_ge_cases c (clock st1)) as [Hlt|Hge].
    + destruct (F1 c ltac:(lia) Hu) as [F _]. discriminate F.
    + apply (F2 c); [lia|exact Hu].
  - destruct (Hm _ _ _ E1) as [L1 F1]. split; [exact L1|].
    intros c Hc Hu. destruct (F1 c Hc Hu) as [F ->].
    now injection F as ->.
Qed.

Lemma strict_for_each {A : Type} (l : list A) (body : A -> M unit) :
  (forall x, strict (body x)) -> strict (for_each l body).
Proof.
  intros Hb. induction l as [|x l IH]; cbn [for_each].
  - apply strict_ret.
  - apply strict_bind; [apply Hb|intros _; exact IH].
Qed.

Lemma strict_for_break {A : Type} (l : list A) (body : A -> M flow) :
  (forall x, strict (body x)) -> strict (for_break l body).
Proof.
  intros Hb. induction l as [|x l IH]; cbn [for_break].
  - apply strict_ret.
  - apply strict_bind; [apply Hb|intros [|]; [exact IH|apply strict_ret]].
Qed.

Lemma strict_requests_get url :
  forall st r st', requests_get net url st = (r, st') ->
    clock st' = S (clock st) /\ r = Ok (net (clock st) url).
Proof. unfold requests_get. intros st r st' [= <- <-]. easy. Qed.

Lemma still_response (processed : bool) (myresponse : outcome) :
  still (match myresponse with
         | ConnectTimeout => raise ConnectionError
         | ConnectionFailed => raise ConnectionError
         | OtherRequestError => raise RequestException
         | Response ok content =>
             if ok then
               match content with
               | BadUtf8 => raise ValueError
               | Utf8 scontent =>
                   match processed return M (httpret processed) with
                   | true =>
                       jdata ← lift (json_loads scontent);
                       dval ← lift (py_getitem jdata "data");
                       vval ← lift (py_getitem dval "value");
                       mret vval
                   | false => mret (Some scontent)
                   end
               end
             else raise TypeError
         end).
Proof.
  destruct myresponse as [| | |[|] [|t]]; try apply still_raise.
  destruct processed; [|apply still_ret].
  repeat (apply still_bind; [apply still_lift|intros ?]). apply still_ret.
Qed.

Lemma strict_httpget requeststring ipz processed :
  strict (httpget net self requeststring ipz processed).
Proof.
  intros st r st' E. unfold httpget in E.
  apply bind_inv in E as [(o & st1 & E1 & E2) | (e & E1 & _)].
  2: { unfold requests_get in E1. discriminate E1. }
  apply strict_requests_get in E1 as [Hc [= ->]].
  pose proof (still_response processed
                (net (clock st) ("http://" +:+ ipaddress self +:+
                                 requeststring)) st1) as Hs.
  rewrite E2 in Hs. cbn in Hs.
  split; [lia|]. intros c Hr Hu.
  assert (c = clock st) as -> by lia.
  split; [|lia].
  destruct (Hu ("http://" +:+ ipaddress self +:+ requeststring)) as [Hn|Hn];
    rewrite Hn in E2; now injection E2 as <- _.
Qed.

Lemma strict_getdata requeststring ipz :
  @Props.strict net pyobj (httpget net self requeststring ipz true).
Proof. exact (strict_httpget requeststring ipz true). Qed.

Lemma strict_getraw requeststring ipz :
  @Props.strict net (option text) (httpget net self requeststring ipz false).
Proof. exact (strict_httpget requeststring ipz false). Qed.

Create HintDb strictdb.

#[local] Hint Resolve strict_getdata strict_getraw : strictdb.

Ltac strictly :=
  repeat first
    [ assumption
    | solve [auto with strictdb nocore]
    | apply strict_ret | apply strict_raise | apply strict_lift
    | apply strict_emit | apply strict_alloc | apply strict_deref
    | apply strict_update | apply strict_index | apply strict_attr_of
    | apply strict_for_each; intros ?
    | apply strict_for_break; intros ?
    | apply strict_bind; [|intros ?]
    | match goal with
      | |- strict (match ?x with _ => _ end) => destruct x
      end
    | progress cbv zeta ].

Lemma strict_getportcount ipz : strict (getportcount net self ipz).
Proof. unfold getportcount, gettree. strictly. Qed.

Lemma strict_count_plus n k : strict (count_plus n k).
Proof. unfold count_plus. strictly. Qed.

Lemma strict_sensoronport ipz p : strict (sensoronport net self ipz p).
Proof.
  unfold sensoronport, getportdevicestatus, getportsensordeviceid,
    getportsensorlocalname, getportsensorserial, getportsensorvendorid,
    getportsensorname, getportsensorprocessdata.
  strictly.
Qed.

Lemma strict_portefeuille_loop ipz ports : forall acc,
  strict (portefeuille_loop net self ipz ports acc).
Proof.
  induction ports as [|p ports IH]; intros acc; cbn [portefeuille_loop].
  - apply strict_ret.
  - apply strict_bind; [apply strict_sensoronport|intros s; apply IH].
Qed.

#[local] Hint Resolve strict_getportcount strict_count_plus
  strict_portefeuille_loop : strictdb.

Lemma strict_getsensorsondevices ipz :
  strict (getsensorsondevices net self ipz).
Proof. unfold getsensorsondevices. strictly. Qed.

#[local] Hint Resolve strict_getsensorsondevices : strictdb.

(** *** The topology built by a full poll *)

Lemma httpget_ticks requeststring ipz processed st r st' :
  httpget net self requeststring ipz processed st = (r, st') ->
  clock st' = S (clock st).
Proof.
  intros E. unfold httpget in E.
  apply bind_inv in E as [(o & st1 & E1 & E2) | (e & E1 & _)].
  2: { unfold requests_get in E1. discriminate E1. }
  apply strict_requests_get in E1 as [Hc _].
  pose proof (still_response processed o st1) as Hs.
  rewrite E2 in Hs. cbn in Hs. lia.
Qed.

Lemma httpget_tick requeststring ipz st (r : result pyobj) st' :
  httpget net self requeststring ipz true st = (r, st') ->
  clock st' = S (clock st).
Proof. exact (httpget_ticks requeststring ipz true st r st'). Qed.

(** What [httpget] returns depends on the state by the clock only. *)
Lemma httpget_result requeststring ipz ipz' st st2 :
  clock st2 = clock st ->
  (httpget net self requeststring ipz true st).1 =
  (httpget net self requeststring ipz' true st2).1.
Proof.
  intros Hc. unfold httpget, requests_get, mbind, M_bind, lift, raise, mret,
    M_ret. rewrite Hc.
  destruct (net (clock st) _) as [| | |[|] [|t]]; try reflexivity.
  destruct (json_loads t) as [j|]; [|reflexivity].
  destruct (py_getitem j "data") as [d|]; [|reflexivity].
  destruct (py_getitem d "value"); reflexivity.
Qed.

Lemma status_at_clock p ipz st v st1 :
  getportdevicestatus net self p ipz st = (Ok v, st1) ->
  status_at net self (clock st) p = Ok v.
Proof.
  intros E. unfold status_at, getportdevicestatus in *.
  rewrite <- (httpget_result _ ipz "" st) by reflexivity.
  now rewrite E.
Qed.

Lemma sensoronport_spec ipz p st s st' :
  sensoronport net self ipz p st = (Ok s, st') ->
  sensorport s = p /\ clock st < clock st' /\
  exists v, status_at net self (clock st) p = Ok v /\
            (py_eq v (PyInt 2) = false -> s = no_sensor p).
Proof.
  intros E. unfold sensoronport in E.
  apply bind_ok_inv in E as (v & st1 & E1 & E).
  pose proof (status_at_clock _ _ _ _ _ E1) as Hs.
  unfold getportdevicestatus in E1. apply httpget_tick in E1.
  destruct (py_eq v (PyInt 2)) eqn:Ev.
  - unfold getportsensordeviceid, getportsensorlocalname,
      getportsensorserial, getportsensorvendorid, getportsensorname,
      getportsensorprocessdata in E.
    apply bind_ok_inv in E as (typ & s2 & T2 & E). apply httpget_tick in T2.
    apply bind_ok_inv in E as (nm & s3 & T3 & E). apply httpget_tick in T3.
    apply bind_ok_inv in E as (ser & s4 & T4 & E). apply httpget_tick in T4.
    apply bind_ok_inv in E as (vid & s5 & T5 & E). apply httpget_tick in T5.
    apply bind_ok_inv in E as (lnm & s6 & T6 & E). apply httpget_tick in T6.
    apply bind_ok_inv in E as (pd & s7 & T7 & E). apply httpget_tick in T7.
    cbv [mret M_ret] in E. injection E as E2 E3. subst s st'. repeat split; [lia|].
    exists v. split; [exact Hs|congruence].
  - cbv [mret M_ret] in E. injection E as E2 E3. subst s st'. repeat split; [lia|].
    exists v. now split.
Qed.

Lemma py_insert_end {A : Type} (x : A) (l : list A) :
  py_insert (S (length l)) x l = l ++ [x].
Proof.
  unfold py_insert. now rewrite take_ge, drop_ge by lia.
Qed.

Lemma polled_mono c0 c1 c0' c1' p x :
  c0' <= c0 -> c1 <= c1' -> polled c0 c1 p x -> polled c0' c1' p x.
Proof.
  intros H0 H1 (s & c & v & Hx & Hp & Hc & Hs & He).
  exists s, c, v. repeat split; try assumption; lia.
Qed.

Lemma portefeuille_loop_spec ipz m : forall k acc st l st',
  length acc = k ->
  portefeuille_loop net self ipz
    (map (fun i => (1 + Z.of_nat i)%Z) (seq k m)) acc st = (Ok l, st') ->
  length l = k + m /\ clock st <= clock st' /\
  (forall i, i < k -> l !! i = acc !! i) /\
  (forall i x, k <= i -> l !! i = Some x ->
               polled (clock st) (clock st') (1 + Z.of_nat i) x).
Proof.
  induction m as [|m IH]; intros k acc st l st' Hk E.
  - cbn in E. injection E as <- <-. repeat split; try lia.
    intros i x Hi Hx. apply lookup_lt_Some in Hx. lia.
  - cbn [seq map portefeuille_loop] in E.
    apply bind_ok_inv in E as (s & st1 & E1 & E).
    apply sensoronport_spec in E1 as (Hp & Hc & v & Hv & He).
    replace (Z.to_nat (1 + Z.of_nat k)) with (S (length acc)) in E by lia.
    rewrite py_insert_end in E.
    apply IH in E as (Hl & Hc' & Hold & Hnew);
      [|rewrite length_app; cbn; lia].
    repeat split; try lia.
    + intros i Hi. rewrite Hold by lia. apply lookup_app_l. lia.
    + intros i x Hi Hx.
      destruct (decide (i = k)) as [->|Hne].
      * rewrite Hold in Hx by lia.
        rewrite lookup_app_r, Hk, Nat.sub_diag in Hx by lia.
        injection Hx as <-.
        exists s, (clock st), v. repeat split; try assumption; lia.
      * apply (polled_mono (clock st1) (clock st')); [lia|lia|].
        apply Hnew; [lia|exact Hx].
Qed.

Lemma portcount_of_nonneg items n :
  portcount_of items = Ok n -> (0 <= n)%Z.
Proof.
  induction items as [|item items IH]; cbn [portcount_of]; intros H.
  - injection H as <-. lia.
  - destruct (py_getitem item "identifier") as [ident|];
      cbn [mbind result_bind] in H; [|discriminate H].
    destruct (py_eq ident (PyStr "iolinkmaster")); [|now apply IH].
    destruct (py_getitem item "subs") as [subs|];
      cbn [mbind result_bind] in H; [|discriminate H].
    destruct subs; cbn [py_len] in H; try discriminate H;
      injection H as <-; lia.
Qed.

Lemma getportcount_nonneg ipz st n st1 :
  getportcount net self ipz st = (Ok (Some n), st1) -> (0 <= n)%Z.
Proof.
  unfold getportcount. intros E.
  apply bind_ok_inv in E as ([t|] & st2 & _ & E); [|discriminate E].
  do 4 (apply bind_ok_inv in E as (? & ? & _ & E)).
  apply bind_ok_inv in E as (n' & st3 & E1 & E).
  cbv [mret M_ret] in E. injection E as E2 _. subst n'.
  unfold lift in E1. injection E1 as E1 _.
  now apply portcount_of_nonneg in E1.
Qed.

(** C8: the list that [getsensorsondevices] returns has as many entries
    as [getportcount] counted ports; for every port [p] from 1 to that
    count the entry at index [p - 1] is an object (never [None], never
    left out) whose [sensorport] is [p]; and when the status that the
    master gave for the port during the poll was not 2 (no sensor in
    operation), the entry is the explicit empty record [no_sensor p]. *)
Theorem getsensorsondevices_topology (ipz : string) (st : io)
    (l : list (option sensor)) (st' : io) :
  getsensorsondevices net self ipz st = (Ok l, st') ->
  exists n st1,
    getportcount net self ipz st = (Ok (Some n), st1) /\
    Z.of_nat (length l) = n /\
    forall p, (1 <= p <= n)%Z ->
      exists s c v,
        l !! Z.to_nat (p - 1) = Some (Some s) /\
        sensorport s = p /\
        clock st <= c < clock st' /\
        status_at net self c p = Ok v /\
        (py_eq v (PyInt 2) = false -> s = no_sensor p).
Proof.
  unfold getsensorsondevices. intros E.
  apply bind_ok_inv in E as (n & st1 & E1 & E).
  apply bind_ok_inv in E as (stop & st2 & E2 & E).
  destruct n as [n|]; [|discriminate E2].
  injection E2 as <- <-.
  pose proof (getportcount_nonneg _ _ _ _ E1) as Hn.
  destruct (strict_getportcount ipz _ _ _ E1) as [Hc1 _].
  unfold range in E.
  replace (Z.to_nat (n + 1 - 1)) with (Z.to_nat n) in E by lia.
  apply (portefeuille_loop_spec ipz (Z.to_nat n) 0 [] st1 l st' eq_refl)
    in E as (Hl & Hc & _ & Hnew).
  exists n, st1. repeat split; [exact E1|lia|].
  intros p Hp.
  assert (Hi : Z.to_nat (p - 1) < length l) by lia.
  apply lookup_lt_is_Some in Hi as [x Hx].
  destruct (Hnew _ _ ltac:(lia) Hx) as (s & c & v & -> & Hs & Hr & Hv & He).
  replace (1 + Z.of_nat (Z.to_nat (p - 1)))%Z with p in * by lia.
  exists s, c, v. repeat split; try assumption; lia.
Qed.

Section Turn.

Variable prr : gmap string string.
Variable float_of_str : string -> option float.

Lemma strict_fullpoll ipx info : strict (fullpoll net self ipx info).
Proof.
  unfold fullpoll, getipaddress, getproductserial, getvendor,
    getdevicefamily, gettemperature, getsupervisionstatus, getmilliamperes,
    getproductcode, getvolts.
  strictly.
Qed.

Lemma strict_partialpoll ipx r : strict (partialpoll net self ipx r).
Proof.
  unfold partialpoll, refresh, getportdevicestatus,
    getportsensorprocessdata.
  strictly.
Qed.

Lemma strict_decode_all ipx r : strict (decode_all ipx r).
Proof. unfold decode_all, decode. strictly. Qed.

Lemma strict_compare ipx saved cur i : strict (compare ipx saved cur i).
Proof. unfold compare. strictly. Qed.

Lemma strict_threshold key : strict (threshold prr float_of_str key).
Proof. unfold threshold. strictly. Qed.

Lemma strict_field d key : strict (field d key).
Proof. unfold field. strictly. Qed.

Lemma strict_alert ipx i name what s how x limit :
  strict (alert ipx i name what s how x limit).
Proof. unfold alert, alert_mesg. strictly. Qed.

#[local] Hint Resolve strict_threshold strict_field strict_alert
  : strictdb.

Lemma strict_thresholds ipx cur i :
  strict (thresholds prr float_of_str ipx cur i).
Proof. unfold thresholds. strictly. Qed.

#[local] Hint Resolve strict_fullpoll strict_partialpoll strict_decode_all
  strict_compare strict_thresholds : strictdb.

Lemma strict_checkports ipx saved cur :
  strict (checkports net self prr float_of_str ipx saved cur).
Proof. unfold checkports, checkport. strictly. Qed.

#[local] Hint Resolve strict_checkports : strictdb.

Lemma strict_cycle ipx v : strict (cycle net self prr float_of_str ipx v).
Proof. unfold cycle. strictly. Qed.

#[local] Hint Resolve strict_cycle : strictdb.

Lemma strict_cycles ipx k : forall v,
  strict (cycles net self prr float_of_str ipx k v).
Proof. induction k as [|k IH]; intros v; cbn [cycles]; strictly. Qed.

#[local] Hint Resolve strict_cycles : strictdb.

(** C1, as the code has it: a request of the polling loop that fails in
    transport (the master is unreachable: connect timeout or connection
    error) is the last one.  [httpget] raises ConnectionError, nothing
    catches it, no further request is made, and the loop of [getreadings]
    ends with that exception. *)
Theorem getreadings_transport_failure (ipx : string) (k : nat) (st : io)
    (r : result (option locals)) (st' : io) (c : nat) :
  getreadings net self prr float_of_str ipx k st = (r, st') ->
  clock st <= c < clock st' ->
  unreachable net c ->
  r = Raise ConnectionError /\ clock st' = S c.
Proof.
  intros E Hc Hu.
  assert (H : strict (getreadings net self prr float_of_str ipx k)).
  { unfold getreadings, getreadings_start. strictly. }
  now apply (H _ _ _ E).
Qed.

End Turn.

End Transport.

(** ** Ports found empty by the full poll *)

Section Silence.

Variable net : nat -> string -> outcome.
Variable self : IOLinkMaster.
Variable prr : gmap string string.
Variable float_of_str : string -> option float.

(** The sensor list [r] and the index [i] of the port under study. *)
Variable r i : nat.

Local Abbreviation kept := (blank_at r i).
Local Abbreviation quiet := (silent i).

Local Abbreviation tame := (Props.tame r i).

Lemma quiet_refl st : quiet st st.
Proof. exists []. split; [reflexivity|constructor]. Qed.

Lemma quiet_trans st1 st2 st3 :
  quiet st1 st2 -> quiet st2 st3 -> quiet st1 st3.
Proof.
  intros (n1 & E1 & F1) (n2 & E2 & F2). exists (n2 ++ n1). split.
  - now rewrite E2, E1, app_assoc.
  - now apply Forall_app.
Qed.

Lemma tame_same {A : Type} (m : M A) :
  (forall st, heap (m st).2 = heap st /\ out (m st).2 = out st) -> tame m.
Proof.
  intros H st res st' E HI. specialize (H st). rewrite E in H. cbn in H.
  destruct H as [Hh Ho]. split.
  - unfold blank_at in *. now rewrite Hh.
  - exists []. now split; [rewrite Ho|constructor].
Qed.

Lemma tame_ret {A : Type} (a : A) : tame (mret a).
Proof. now apply tame_same. Qed.

Lemma tame_raise {A : Type} (e : exn) : tame (@raise A e).
Proof. now apply tame_same. Qed.

Lemma tame_lift {A : Type} (x : result A) : tame (lift x).
Proof. now apply tame_same. Qed.

Lemma tame_deref r' : tame (deref r').
Proof. now apply tame_same. Qed.

Lemma tame_index {A : Type} (l : list A) j : tame (index l j).
Proof. unfold index. destruct (l !! j); now apply tame_same. Qed.

Lemma tame_attr_of {A : Type} (x : option A) : tame (attr_of x).
Proof. destruct x; now apply tame_same. Qed.

Lemma tame_bind {A B : Type} (m : M A) (f : A -> M B) :
  tame m -> (forall a, tame (f a)) -> tame (m ≫= f).
Proof.
  intros Hm Hf st res st' E HI.
  apply bind_inv in E as [(a & st1 & E1 & E2) | (e & E1 & ->)].
  - destruct (Hm _ _ _ E1 HI) as [HI1 Q1].
    destruct (Hf a _ _ _ E2 HI1) as [HI2 Q2].
    split; [exact HI2|]. now apply (quiet_trans _ st1).
  - apply (Hm _ _ _ E1 HI).
Qed.

Lemma tame_for_each {A : Type} (l : list A) (body : A -> M unit) :
  (forall x, tame (body x)) -> tame (for_each l body).
Proof.
  intros Hb. induction l as [|x l IH]; cbn [for_each].
  - apply tame_ret.
  - apply tame_bind; [apply Hb|intros _; exact IH].
Qed.

Lemma tame_for_break {A : Type} (l : list A) (body : A -> M flow) :
  (forall x, tame (body x)) -> tame (for_break l body).
Proof.
  intros Hb. induction l as [|x l IH]; cbn [for_break].
  - apply tame_ret.
  - apply tame_bind; [apply Hb|intros [|]; [exact IH|apply tame_ret]].
Qed.

Lemma tame_emit e : about i e = false -> tame (emit e).
Proof.
  intros He st res st' E HI. unfold emit in E. injection E as _ <-.
  split; [exact HI|]. exists [e]. split; [reflexivity|].
  now repeat constructor.
Qed.

Lemma tame_update r' j f :
  (forall s, blank s -> blank (f s)) -> tame (update r' j f).
Proof.
  intros Hf st res st' E (l & s & Hl & Hs & Hb).
  unfold update in E. injection E as _ <-.
  split; [|exists []; split; [reflexivity|constructor]].
  unfold blank_at. cbn [heap].
  destruct (decide (r' = r)) as [->|Hr].
  - rewrite list_lookup_alter_eq, Hl. cbn.
    destruct (decide (j = i)) as [->|Hj].
    + exists (alter (fmap f) i l), (f s). split; [reflexivity|].
      rewrite list_lookup_alter_eq, Hs. split; [reflexivity|now apply Hf].
    + exists (alter (fmap f) j l), s. split; [reflexivity|].
      now rewrite list_lookup_alter_ne.
  - exists l, s. now rewrite list_lookup_alter_ne.
Qed.

Lemma tame_httpget requeststring ipz :
  @Props.tame r i pyobj (httpget net self requeststring ipz true).
Proof.
  apply tame_same. intros st.
  unfold httpget, requests_get, mbind, M_bind, lift, raise, mret, M_ret.
  destruct (net (clock st) _) as [| | |[|] [|t]]; try easy.
  destruct (json_loads t) as [j|]; [|easy].
  destruct (py_getitem j "data") as [d|]; [|easy].
  destruct (py_getitem d "value"); easy.
Qed.

Lemma tame_gettree ipz : tame (gettree net self ipz).
Proof.
  apply tame_same. intros st.
  unfold gettree, httpget, requests_get, mbind, M_bind, lift, raise, mret,
    M_ret.
  destruct (net (clock st) _) as [| | |[|] [|t]]; easy.
Qed.

Create HintDb tamedb.

#[local] Hint Resolve tame_httpget tame_gettree : tamedb.

Ltac tamely :=
  repeat first
    [ assumption
    | solve [auto with tamedb nocore]
    | apply tame_ret | apply tame_raise | apply tame_lift
    | apply tame_deref | apply tame_index | apply tame_attr_of
    | apply tame_for_each; intros ?
    | apply tame_for_break; intros ?
    | apply tame_bind; [|intros ?]
    | match goal with
      | |- tame (match ?x with _ => _ end) => destruct x
      end
    | progress cbv zeta ].

Lemma tame_getportcount ipz : tame (getportcount net self ipz).
Proof. unfold getportcount. tamely. Qed.

Lemma tame_count_plus n k : tame (count_plus n k).
Proof. unfold count_plus. tamely. Qed.

Lemma tame_threshold key : tame (threshold prr float_of_str key).
Proof. unfold threshold. tamely. Qed.

Lemma tame_field d key : tame (field d key).
Proof. unfold field. tamely. Qed.

Lemma tame_alert ipx j name what s how x limit :
  j <> i -> tame (alert ipx j name what s how x limit).
Proof.
  intros Hj. unfold alert, alert_mesg. tamely.
  apply tame_emit. cbn. now apply Nat.eqb_neq.
Qed.

#[local] Hint Resolve tame_getportcount tame_count_plus tame_threshold
  tame_field : tamedb.

Lemma blank_pd pd s : blank s -> blank (set_sensorprocessdata pd s).
Proof. now intros H. Qed.

Lemma blank_json j s : blank s -> blank (set_json j s).
Proof. now intros H. Qed.

(** Reading the [j]-th sensor of the list: when [j] is the index under
    study, the sensor read is blank. *)
Lemma tame_read {A : Type} j (body : option sensor -> M A) :
  (forall x, (j = i -> exists s, x = Some s /\ blank s) -> tame (body x)) ->
  tame (l ← deref r; x ← index l j; body x).
Proof.
  intros Hb st res st' E HI.
  apply bind_inv in E as [(l & st1 & E1 & E) | (e & E1 & _)];
    [|discriminate E1].
  unfold deref in E1. injection E1 as El Est. subst l st1.
  apply bind_inv in E as [(x & st1 & E1 & E) | (e & E1 & ->)].
  - unfold index in E1.
    destruct (default [] (heap st !! r) !! j) as [y|] eqn:Ex;
      [|discriminate E1].
    cbv [mret M_ret] in E1. injection E1 as Ey Est. subst y st1.
    refine (Hb x _ _ _ _ E HI).
    intros ->. destruct HI as (l & s & Hl & Hs & Hk).
    rewrite Hl in Ex. cbn in Ex. rewrite Hs in Ex. injection Ex as <-.
    now exists s.
  - apply (tame_index _ _ _ _ _ E1 HI).
Qed.

Lemma tame_read_sensor {A : Type} j (body : sensor -> M A) :
  (forall s, (j = i -> blank s) -> tame (body s)) ->
  tame (l ← deref r; x ← index l j; s ← attr_of x; body s).
Proof.
  intros Hb. apply tame_read. intros [s|] Hx.
  - intros st res st' E. change (body s st = (res, st')) in E.
    refine (Hb s _ _ _ _ E).
    intros Hj. destruct (Hx Hj) as (s0 & [= <-] & Hk). exact Hk.
  - tamely.
Qed.

Lemma tame_refresh ipx j : tame (refresh net self ipx r j).
Proof.
  unfold refresh. apply tame_read_sensor. intros s _.
  unfold getportdevicestatus, getportsensorprocessdata.
  tamely; apply tame_update, blank_pd.
Qed.

Lemma tame_partialpoll ipx : tame (partialpoll net self ipx r).
Proof.
  unfold partialpoll. pose proof (tame_refresh ipx). tamely.
Qed.

Lemma datatojson_blank ipx s : blank s -> datatojson ipx s = Ok None.
Proof. intros (_ & _ & Hv). unfold datatojson. now rewrite Hv. Qed.

Lemma tame_lift_ok {A B : Type} (a : A) (f : A -> M B) :
  tame (f a) -> tame (lift (Ok a) ≫= f).
Proof. intros H st res st' E. exact (H st res st' E). Qed.

Lemma tame_decode ipx j : tame (decode ipx r j).
Proof.
  unfold decode. apply tame_read_sensor. intros s Hs.
  destruct (decide (j = i)) as [Hj|Hj].
  - rewrite (datatojson_blank ipx s (Hs Hj)).
    apply tame_lift_ok, tame_update, blank_json.
  - tamely; try (apply tame_update, blank_json).
    apply tame_emit. cbn. now apply Nat.eqb_neq.
Qed.

Lemma tame_decode_all ipx : tame (decode_all ipx r).
Proof. unfold decode_all. pose proof (tame_decode ipx). tamely. Qed.

Lemma py_eq_str s : py_eq (PyStr s) (PyStr s) = true.
Proof. cbn. apply String.eqb_refl. Qed.

(** The comparison of a port with itself: the saved list is the
    current list. *)
Lemma tame_compare ipx saved j :
  saved = None \/ saved = Some r -> tame (compare ipx saved r j).
Proof.
  intros [-> | ->]; unfold compare; [apply tame_ret|].
  apply tame_read. intros c Hc.
  destruct (decide (j = i)) as [Hj|Hj].
  - destruct (Hc Hj) as (s & -> & Hs).
    apply tame_read. intros c' Hc'.
    destruct (Hc' Hj) as (s' & -> & Hs').
    destruct Hs as (Ht & Hser & _), Hs' as (Ht' & Hser' & _).
    rewrite Ht, Ht', Hser, Hser', !py_eq_str. apply tame_ret.
  - assert (He : forall evt evtd,
              tame (emit (SendToSaas j evt evtd))).
    { intros evt evtd. apply tame_emit. cbn. now apply Nat.eqb_neq. }
    destruct c as [c|]; apply tame_read; intros c' _; tamely; apply He.
Qed.

Lemma tame_thresholds ipx j : tame (thresholds prr float_of_str ipx r j).
Proof.
  unfold thresholds. apply tame_read_sensor. intros s Hs.
  destruct (decide (j = i)) as [Hj|Hj].
  - destruct (Hs Hj) as (_ & Hser & Hv). rewrite Hser, Hv.
    destruct (json s); tamely.
  - pose proof (fun name what how x limit =>
                  tame_alert ipx j name what s how x limit Hj).
    tamely.
Qed.

Lemma tame_checkports ipx saved :
  saved = None \/ saved = Some r ->
  tame (checkports net self prr float_of_str ipx saved r).
Proof.
  intros Hs. unfold checkports, checkport.
  pose proof (tame_compare ipx saved) as Hc.
  pose proof (tame_thresholds ipx).
  tamely.
Qed.

Lemma tame_then_ret {A B C : Type} (m : M A) (c : B) (f : B -> M C) :
  tame m -> tame (f c) -> tame ((m ≫= fun _ => mret c) ≫= f).
Proof.
  intros Hm Hf st res st' E HI.
  apply bind_inv in E as [(b & st1 & E1 & E2) | (e & E1 & ->)].
  - apply bind_ok_inv in E1 as (a & st2 & E1 & E3).
    cbv [mret M_ret] in E3. injection E3 as Eb Est. subst b st2.
    destruct (Hm _ _ _ E1 HI) as [HI1 Q1].
    destruct (Hf _ _ _ E2 HI1) as [HI2 Q2].
    split; [exact HI2|]. now apply (quiet_trans _ st1).
  - apply bind_inv in E1 as [(a & st2 & E1 & E3) | (e' & E1 & _)].
    + discriminate E3.
    + apply (Hm _ _ _ E1 HI).
Qed.

Lemma tame_cycle_partial ipx v :
  fullinfo v = false -> sensorlist v = r ->
  savesensorlist v = None \/ savesensorlist v = Some r ->
  tame (cycle net self prr float_of_str ipx v).
Proof.
  intros Hf Hr Hs. unfold cycle. rewrite Hf, Hr.
  pose proof (tame_partialpoll ipx). pose proof (tame_decode_all ipx).
  pose proof (tame_checkports ipx _ Hs).
  destruct (iterations self <? itercount v + 1)%Z;
    (apply tame_then_ret; [assumption|tamely]).
Qed.

Lemma cycle_partial_lists ipx v st v' st' :
  cycle net self prr float_of_str ipx v st = (Ok v', st') ->
  fullinfo v = false ->
  sensorlist v' = sensorlist v /\ savesensorlist v' = Some (sensorlist v).
Proof.
  unfold cycle. intros H Hf. rewrite Hf in H.
  apply bind_ok_inv in H as ([[[info cur] full] it] & st1 & H1 & H).
  apply bind_ok_inv in H as (? & st2 & _ & H).
  apply bind_ok_inv in H as (? & st3 & _ & H).
  cbv [mret M_ret] in H. injection H as Hv _. subst v'.
  cbn [sensorlist savesensorlist].
  destruct (iterations self <? itercount v + 1)%Z;
    apply bind_ok_inv in H1 as (? & st4 & _ & H1);
    cbv [mret M_ret] in H1; injection H1 as _ Hc _ _ _; now subst cur.
Qed.

Lemma tame_partials ipx k : forall v,
  sensorlist v = r ->
  savesensorlist v = None \/ savesensorlist v = Some r ->
  tame (partials net self prr float_of_str ipx k v).
Proof.
  induction k as [|k IH]; intros v Hr Hs; cbn [partials].
  - apply tame_ret.
  - destruct (fullinfo v) eqn:Hf; [apply tame_ret|].
    intros st res st' E HI.
    apply bind_inv in E as [(v1 & st1 & E1 & E2) | (e & E1 & ->)].
    + destruct (tame_cycle_partial ipx v Hf Hr Hs _ _ _ E1 HI) as [HI1 Q1].
      apply cycle_partial_lists in E1 as [Hl1 Hs1]; [|exact Hf].
      rewrite Hr in Hl1, Hs1.
      destruct (IH v1 Hl1 (or_intror Hs1) _ _ _ E2 HI1) as [HI2 Q2].
      split; [exact HI2|]. now apply (quiet_trans _ st1).
    + apply (tame_cycle_partial ipx v Hf Hr Hs _ _ _ E1 HI).
Qed.

End Silence.

Lemma cycle_saves net self prr float_of_str ipx v st v' st' :
  cycle net self prr float_of_str ipx v st = (Ok v', st') ->
  savesensorlist v' = Some (sensorlist v').
Proof.
  unfold cycle. intros H.
  apply bind_ok_inv in H as ([[[info cur] full] it] & st1 & H1 & H).
  apply bind_ok_inv in H as (? & st2 & _ & H).
  apply bind_ok_inv in H as (? & st3 & _ & H).
  cbv [mret M_ret] in H. injection H as Hv _. now subst v'.
Qed.

(** C10: take the state that a completed turn of the loop leaves (a full
    poll, or any later turn) and an entry of its sensor list with the
    empty identity of a port found without a sensor.  Whatever the master
    answers from then on, through all the turns up to the next full poll
    the entry keeps its empty type, serial and vendor id, and no
    measurement is written and no change event or alert is sent for it. *)
Theorem empty_port_stays_silent (net : nat -> string -> outcome)
    (self : IOLinkMaster) (prr : gmap string string)
    (float_of_str : string -> option float) (ipx : string)
    (v0 : locals) (st0 : io) (v : locals) (st : io) (i k : nat)
    (res : result locals) (st' : io) :
  cycle net self prr float_of_str ipx v0 st0 = (Ok v, st) ->
  blank_at (sensorlist v) i st ->
  partials net self prr float_of_str ipx k v st = (res, st') ->
  blank_at (sensorlist v) i st' /\ silent i st st'.
Proof.
  intros E HI P. apply cycle_saves in E.
  exact (tame_partials net self prr float_of_str (sensorlist v) i ipx k v
           eq_refl (or_intror E) st res st' P HI).
Qed.

(** ** The theorems on concrete masters *)

Section Runs.

Import Site.

Open Scope Z_scope.

Lemma getreadings_transport_failure_witness :
  (run (outage 13 temp_on_2) prr_temp 2).1 = Raise ConnectionError /\
  clock (run (outage 13 temp_on_2) prr_temp 2).2 = 14%nat.
Proof.
  apply (getreadings_transport_failure (outage 13 temp_on_2) me prr_temp
           float_of_str "10.0.0.1" 2 st0 _ _ 13%nat).
  - unfold run. now destruct (getreadings _ _ _ _ _ _ _).
  - vm_compute. lia.
  - intros url. left. reflexivity.
Defined.

(** C1 as the spec states it fails: on a master with two ports whose
    fourth request alone times out, the loop does not go on with partial
    data.  It ends in ConnectionError at that request with nothing
    written, where the same master without the timeout is polled for both
    turns. *)
Lemma single_failure_ends_loop :
  run (outage 3 temp_on_2) prr_temp 2 =
    (Raise ConnectionError, {| clock := 4; heap := [[]]; out := [] |}) /\
  is_Some (ended (run (steady temp_on_2) prr_temp 2)) /\
  clock (run (steady temp_on_2) prr_temp 2).2 = 24%nat.
Proof.
  split; [vm_compute; reflexivity|]. split; [|vm_compute; reflexivity].
  vm_compute. eexists. reflexivity.
Qed.

Lemma datatojson_fields_witness :
  datatojson "10.0.0.1" vibration_ok =
    Ok (Some {| measurement := "vibrationEvents";
                tags := sensortags "10.0.0.1" vibration_ok;
                fields := [("configuration", NInt 10); ("diagnosis", NInt 0);
                           ("velocity", NFloat 1);
                           ("acceleration", NFloat 12)] |}) /\
  datatojson "10.0.0.1" temperature_ok =
    Ok (Some {| measurement := "temperatureEvents";
                tags := sensortags "10.0.0.1" temperature_ok;
                fields := [("temperature", NFloat 30)] |}).
Proof.
  split.
  - refine (proj1 (datatojson_fields "10.0.0.1" vibration_ok "04B0006400A0"
                     [4; 176; 0; 100; 0; 160] eq_refl eq_refl eq_refl)
                  (or_introl eq_refl) _).
    simpl. lia.
  - refine (proj2 (datatojson_fields "10.0.0.1" temperature_ok "0000012C"
                     [0; 0; 1; 44] eq_refl eq_refl eq_refl)
                  eq_refl _).
    simpl. lia.
Defined.

Lemma poll_schedule_witness :
  option_map next_poll (ended (run (steady both_empty) ∅ 6)) =
    Some PARTIAL_POLL /\
  option_map next_poll (ended (run (steady both_empty) ∅ 7)) =
    Some FULL_POLL.
Proof.
  assert (HK : 1 <= iterations me) by (simpl; lia).
  split.
  - destruct (run (steady both_empty) ∅ 6) as [[[v|]|e] st] eqn:E;
      try (vm_compute in E; discriminate E).
    unfold run in E.
    destruct (poll_schedule (steady both_empty) me ∅ float_of_str
                "10.0.0.1" 6 st0 v st HK E) as [H _].
    cbn [ended fst option_map]. rewrite H. reflexivity.
  - destruct (run (steady both_empty) ∅ 7) as [[[v|]|e] st] eqn:E;
      try (vm_compute in E; discriminate E).
    unfold run in E.
    destruct (poll_schedule (steady both_empty) me ∅ float_of_str
                "10.0.0.1" 7 st0 v st HK E) as [H _].
    cbn [ended fst option_map]. rewrite H. reflexivity.
Defined.

(** C7 as the spec states it fails: on a master with two empty ports
    whose seventeenth request alone times out, the loop completes its
    full poll, is due a partial poll, and ends in that partial poll with
    ConnectionError.  No later turn runs, however long the loop is
    watched, and no full poll follows. *)
Lemma loop_ends_when_a_turn_raises :
  option_map next_poll (ended (run (outage 16 both_empty) ∅ 1)) =
    Some PARTIAL_POLL /\
  (run (outage 16 both_empty) ∅ 2).1 = Raise ConnectionError /\
  clock (run (outage 16 both_empty) ∅ 2).2 = 17%nat /\
  run (outage 16 both_empty) ∅ 14 = run (outage 16 both_empty) ∅ 2 /\
  length (masterfields (run (outage 16 both_empty) ∅ 14).2) = 1%nat.
Proof. repeat split; vm_compute; reflexivity. Qed.

Lemma getsensorsondevices_topology_witness :
  exists l st',
    getsensorsondevices (steady temp_on_2) me "10.0.0.1" st0 = (Ok l, st') /\
    length l = 2%nat /\
    l !! 0%nat = Some (Some (no_sensor 1)).
Proof.
  destruct (getsensorsondevices (steady temp_on_2) me "10.0.0.1" st0)
    as [[l|e] st'] eqn:E; [|vm_compute in E; discriminate E].
  exists l, st'. split; [reflexivity|].
  destruct (getsensorsondevices_topology (steady temp_on_2) me "10.0.0.1"
              st0 l st' E) as (n & st1 & E1 & Hlen & Hp).
  vm_compute in E1. injection E1 as <- _.
  split; [lia|].
  destruct (Hp 1 ltac:(lia)) as (s & c & v & Hl & _ & _ & Hv & Hs).
  change (Z.to_nat (1 - 1)) with 0%nat in Hl. rewrite Hl.
  vm_compute in Hv. injection Hv as <-.
  now rewrite (Hs eq_refl).
Defined.

Lemma empty_port_stays_silent_witness :
  exists v1 st1 st7,
    run (switch 14 both_empty s1_on_1) ∅ 1 = (Ok (Some v1), st1) /\
    (run (switch 14 both_empty s1_on_1) ∅ 7).2 = st7 /\
    blank_at (sensorlist v1) 0 st7 /\ silent 0 st1 st7.
Proof.
  destruct (getreadings_start (switch 14 both_empty s1_on_1) me "10.0.0.1"
              st0) as [[[v0|]|e0] s0] eqn:E0;
    try (vm_compute in E0; discriminate E0).
  destruct (cycle (switch 14 both_empty s1_on_1) me ∅ float_of_str
              "10.0.0.1" v0 s0) as [[v1|e1] st1] eqn:E1.
  2: { exfalso. vm_compute in E0. injection E0 as <- <-.
       vm_compute in E1. discriminate E1. }
  destruct (partials (switch 14 both_empty s1_on_1) me ∅ float_of_str
              "10.0.0.1" 6 v1 st1) as [res st7] eqn:P.
  assert (HB : blank_at (sensorlist v1) 0 st1).
  { vm_compute in E0. injection E0 as <- <-.
    vm_compute in E1. injection E1 as <- <-.
    eexists _, _. repeat split; reflexivity. }
  exists v1, st1, st7. split; [|split].
  - unfold run, getreadings. unfold mbind at 1, M_bind at 1. rewrite E0.
    cbn [cycles]. unfold mbind, M_bind. rewrite E1. reflexivity.
  - vm_compute in E0. injection E0 as <- <-.
    vm_compute in E1. injection E1 as <- <-.
    vm_compute in P. injection P as _ <-. vm_compute. reflexivity.
  - exact (empty_port_stays_silent (switch 14 both_empty s1_on_1) me ∅
             float_of_str "10.0.0.1" v0 s0 v1 st1 0 6 res st7 E1 HB P).
Defined.

(** C3 on a master with two empty ports where a sensor of type 417 with
    serial S1 is connected to port 1 during the partial polls: the next
    full poll reports SENSORTYPECHANGED for the port, not a new sensor.
    The saved entry of an empty port is an object with empty type, never
    [None], so the NEWSENSORFOUND branch is not reached. *)
Theorem new_sensor_reported_as_type_change :
  saas (run (switch 32 both_empty s1_on_1) ∅ 7).2 = [] /\
  saas (run (switch 32 both_empty s1_on_1) ∅ 8).2 =
    [(0%nat, "CONFIGURATION", "SENSORTYPECHANGED")].
Proof. split; vm_compute; reflexivity. Qed.

(** C4 on a master with two ports and a limit of 50.0 for the temperature
    sensor T1, which reads 60.0: on port 1 the sensor is alerted at every
    turn; on port 2, the last one, it is measured at every turn and never
    alerted, the loop over the ports stopping one short of the port
    count. *)
Theorem last_port_never_checked :
  saas (run (steady temp_on_1) prr_temp 3).2 =
    [(0%nat, "SENSOR", "TEMPERATUREMAX"); (0%nat, "SENSOR", "TEMPERATUREMAX");
     (0%nat, "SENSOR", "TEMPERATUREMAX")] /\
  map (fun x => (x.1, fields x.2))
      (written (run (steady temp_on_2) prr_temp 3).2) =
    [(1%nat, [("temperature", NFloat 60)]);
     (1%nat, [("temperature", NFloat 60)]);
     (1%nat, [("temperature", NFloat 60)])] /\
  saas (run (steady temp_on_2) prr_temp 3).2 = [].
Proof. repeat split; vm_compute; reflexivity. Qed.

(** C5 on a master with three ports, a vibration sensor V1 (velocity 12.0,
    acceleration 12.0) on port 1 and a temperature sensor T1 (60.0) on
    port 2, with limits of 10.0 for the velocity of V1 and 50.0 for the
    temperature of T1: with a limit for the acceleration of V1 as well
    all three are alerted, without it none is.  The missing entry leaves
    the loop over the ports, where a missing temperature limit falls back
    to a default bound. *)
Theorem missing_threshold_stops_checks :
  saas (run (steady three_ports) prr_all 1).2 =
    [(0%nat, "SENSOR", "ACCELERATION"); (0%nat, "SENSOR", "VELOCITY");
     (1%nat, "SENSOR", "TEMPERATUREMAX")] /\
  saas (run (steady three_ports) prr_no_acceleration 1).2 = [] /\
  saas (run (steady three_ports) prr_no_acceleration 3).2 = [].
Proof. repeat split; vm_compute; reflexivity. Qed.

(** C9: [getvolts] makes the request of [getmilliamperes].  On a master
    that draws 120 mA at 24 V the point written by the full poll has 120
    for both volts and milliamperes. *)
Theorem getvolts_reads_current :
  (forall net self ipx, getvolts net self ipx = getmilliamperes net self ipx)
  /\
  assoc "http://10.0.0.1/processdatamaster/voltage/getdata" temp_on_2 =
    Some (envelope (PyInt 24)) /\
  masterfields (run (steady temp_on_2) prr_temp 1).2 =
    [[("volts", PyInt 120); ("milliamperes", PyInt 120);
      ("temperature", PyInt 41); ("status", PyInt 0)]].
Proof. repeat split; vm_compute; reflexivity. Qed.

End Runs.

(** ** The port count *)

Section PortCount.

Variable net : nat -> string -> outcome.
Variable self : IOLinkMaster.

(** What [getportcount] returns depends on the request it makes only. *)
Lemma getportcount_result ipz ipz' st st2 :
  clock st2 = clock st ->
  (getportcount net self ipz st).1 = (getportcount net self ipz' st2).1.
Proof.
  intros Hc.
  unfold getportcount, gettree, httpget, requests_get, mbind, M_bind, lift,
    raise, mret, M_ret. rewrite Hc.
  destruct (net (clock st) _) as [| | |[|] [|t]]; try reflexivity.
  destruct (json_loads t) as [j|]; [|reflexivity].
  destruct (py_getitem j "data") as [d|]; [|reflexivity].
  destruct (py_getitem d "subs") as [s|]; [|reflexivity].
  destruct (py_iter s) as [items|]; [|reflexivity].
  destruct (portcount_of items); reflexivity.
Qed.

Lemma getportcount_some ipz st r st' :
  getportcount net self ipz st = (Ok r, st') ->
  exists n, r = Some n /\ (0 <= n)%Z.
Proof.
  intros E. destruct r as [n|].
  - exists n. split; [reflexivity|]. exact (getportcount_nonneg _ _ _ _ _ _ E).
  - exfalso. unfold getportcount in E.
    apply bind_ok_inv in E as (t & st1 & E1 & E).
    destruct t as [t|].
    + do 5 (apply bind_ok_inv in E as (? & ? & _ & E)). discriminate E.
    + unfold gettree, httpget in E1.
      apply bind_ok_inv in E1 as (o & st2 & _ & E1).
      destruct o as [| | |[|] [|t]]; discriminate E1.
Qed.

(** X1: when [getportcount] returns, it returns an integer that is not
    negative, never [None]: [httpget] raises for every response that is
    not OK, so [gettree] gives no [None] and the [else: return None] of
    [getportcount] is not reached. *)
Theorem getportcount_returns_count (ipz : string) (st : io)
    (r : option Z) (st' : io) :
  getportcount net self ipz st = (Ok r, st') ->
  exists n, r = Some n /\ (0 <= n)%Z.
Proof. exact (getportcount_some ipz st r st'). Qed.

Section Start.

Variable prr : gmap string string.
Variable float_of_str : string -> option float.

Lemma cycle_numports ipx v st v' st' :
  cycle net self prr float_of_str ipx v st = (Ok v', st') ->
  MasterInfo.numports (iolminfo v') = MasterInfo.numports (iolminfo v).
Proof.
  unfold cycle. intros H.
  apply bind_ok_inv in H as ([[[info cur] full] it] & st1 & H1 & H).
  apply bind_ok_inv in H as (? & st2 & _ & H).
  apply bind_ok_inv in H as (? & st3 & _ & H).
  cbv [mret M_ret] in H. injection H as Hv _. subst v'. cbn [iolminfo].
  destruct (fullinfo v).
  - apply bind_ok_inv in H1 as ([info' cur'] & st4 & H1 & H2).
    cbv [mret M_ret] in H2. injection H2 as -> _ _ _ _.
    unfold fullpoll in H1.
    do 12 (apply bind_ok_inv in H1 as (? & ? & _ & H1)).
    cbv [mret M_ret] in H1. injection H1 as <- _ _. reflexivity.
  - destruct (iterations self <? itercount v + 1)%Z;
      apply bind_ok_inv in H1 as (? & st4 & _ & H1);
      cbv [mret M_ret] in H1; injection H1 as <- _ _ _ _; reflexivity.
Qed.

Lemma cycles_numports ipx k : forall v st v' st',
  cycles net self prr float_of_str ipx k v st = (Ok v', st') ->
  MasterInfo.numports (iolminfo v') = MasterInfo.numports (iolminfo v).
Proof.
  induction k as [|k IH]; intros v st v' st' H; cbn [cycles] in H.
  - cbv [mret M_ret] in H. now injection H as <- _.
  - apply bind_ok_inv in H as (v1 & st1 & H1 & H).
    rewrite (IH _ _ _ _ H). exact (cycle_numports _ _ _ _ _ H1).
Qed.

(** X2: [getreadings] never returns ['NoData'], its loop is always
    entered; and the port count kept in [iolminfo.numports], which every
    full poll writes as the tag [ports] of the master's point, stays the
    one that [getportcount] gave before the loop, however many turns
    follow. *)
Theorem getreadings_numports (ipx : string) (k : nat) (st : io)
    (r : option locals) (st' : io) :
  getreadings net self prr float_of_str ipx k st = (Ok r, st') ->
  exists v n,
    r = Some v /\
    (getportcount net self ipx st).1 = Ok (Some n) /\
    MasterInfo.numports (iolminfo v) = Some n.
Proof.
  unfold getreadings. intros E.
  apply bind_ok_inv in E as (start & st1 & E0 & E).
  unfold getreadings_start in E0.
  apply bind_ok_inv in E0 as (l & s1 & Ea & E0).
  apply bind_ok_inv in E0 as (m & s2 & Ec & E0).
  assert (Hc : clock s1 = clock st).
  { unfold alloc in Ea. now injection Ea as _ <-. }
  pose proof (getportcount_result ipx ipx st s1 Hc) as Hr.
  rewrite Ec in Hr. cbn [fst] in Hr.
  destruct (getportcount_some _ _ _ _ Ec) as (n & -> & _).
  cbv [mret M_ret] in E0. injection E0 as <- <-.
  apply bind_ok_inv in E as (v & st2 & E1 & E).
  cbv [mret M_ret] in E. injection E as <- _.
  exists v, n. repeat split; [exact Hr|].
  now rewrite (cycles_numports _ _ _ _ _ _ E1).
Qed.

End Start.

End PortCount.

Lemma getportcount_returns_count_witness :
  exists n,
    (getportcount (Site.steady Site.three_ports) Site.me "10.0.0.1"
       Site.st0).1 = Ok (Some n) /\ (0 <= n)%Z.
Proof.
  destruct (getportcount (Site.steady Site.three_ports) Site.me
              "10.0.0.1" Site.st0) as [[r|e] st'] eqn:E;
    [|vm_compute in E; discriminate E].
  destruct (getportcount_returns_count _ _ _ _ _ _ E) as (n & -> & Hn).
  now exists n.
Defined.

Lemma getreadings_numports_witness :
  exists v,
    Site.ended (Site.run (Site.steady Site.three_ports)
                     Site.prr_all 8) = Some v /\
    MasterInfo.numports (iolminfo v) = Some 3%Z.
Proof.
  destruct (Site.run (Site.steady Site.three_ports)
              Site.prr_all 8) as [[r|e] st'] eqn:E;
    [|vm_compute in E; discriminate E].
  unfold Site.run in E.
  destruct (getreadings_numports _ _ _ _ _ _ _ _ _ E) as (v & n & -> & Hn & Hv).
  exists v. split; [reflexivity|].
  vm_compute in Hn. injection Hn as <-. exact Hv.
Defined.

(** ** The device list *)

Section DeviceList.

Import Text Config ConfigProps.

Variable resolveipaddress : string -> string.

Lemma set_delay_spec d value :
  well_timed (set_delay d value) /\
  devicename (set_delay d value) = devicename d /\
  ipaddress (set_delay d value) = ipaddress d /\
  delay (set_delay d value) = PyStr value.
Proof.
  unfold set_delay, well_timed.
  destruct (partition _ _) as [[p0 p1] p2].
  destruct (int10 p0) as [t|]; [|cbn; repeat split; lia].
  destruct (Z.ltb_spec t 5); [cbn; repeat split; lia|].
  destruct (Z.ltb_spec 600 t); [cbn; repeat split; lia|]. cbn [orb].
  destruct (length p1 <? 1)%nat; [cbn; repeat split; lia|].
  destruct (length p2 <? 1)%nat; [cbn; repeat split; lia|].
  destruct (int10 p2) as [t2|]; [|cbn; repeat split; lia].
  destruct (Z.ltb_spec t2 5); [cbn; repeat split; lia|].
  destruct (Z.ltb_spec 20 t2); cbn; repeat split; lia.
Qed.

Lemma set_property_keeps device d key value d' :
  set_property resolveipaddress device d key value = inr d' ->
  well_timed d ->
  delay d = PyInt (-1) \/ (exists v, delay d = PyStr v) ->
  well_timed d' /\ devicename d' = devicename d /\
  (delay d' = PyInt (-1) \/ exists v, delay d' = PyStr v).
Proof.
  unfold set_property. intros E Hd Hy.
  destruct (find _ _); [|injection E as <-; easy].
  destruct (String.eqb _ "ipaddress"); [injection E as <-; easy|].
  destruct (String.eqb _ "port"); [injection E as <-; easy|].
  destruct (String.eqb _ "delay"); [|discriminate E].
  injection E as <-.
  destruct (set_delay_spec d value) as (H1 & H2 & _ & H4).
  repeat split; try assumption; try apply H1. right. now exists value.
Qed.

Lemma set_properties_keeps device dp : forall d d',
  set_properties resolveipaddress device d dp = inr d' ->
  well_timed d ->
  delay d = PyInt (-1) \/ (exists v, delay d = PyStr v) ->
  well_timed d' /\ devicename d' = devicename d /\
  (delay d' = PyInt (-1) \/ exists v, delay d' = PyStr v).
Proof.
  induction dp as [|[key value] dp IH]; intros d d' E Hd Hy; cbn in E.
  - injection E as <-. easy.
  - destruct (set_property _ _ _ _ _) as [e|d1] eqn:E1; [discriminate E|].
    destruct (set_property_keeps _ _ _ _ _ E1 Hd Hy) as (H1 & H2 & H3).
    destruct (IH _ _ E H1 H3) as (H4 & H5 & H6).
    repeat split; try assumption; try apply H4. congruence.
Qed.

Lemma check_complete d :
  check d = true ->
  delay d = PyInt (-1) \/ (exists v, delay d = PyStr v) ->
  complete d.
Proof.
  unfold check, complete. intros H Hy.
  apply negb_true_iff in H.
  apply orb_false_iff in H as [H _].
  apply orb_false_iff in H as [H Hip].
  apply orb_false_iff in H as [Hd _].
  split.
  - intros E. rewrite E in Hip. discriminate Hip.
  - destruct Hy as [Hy|Hy]; [|exact Hy].
    rewrite Hy in Hd. discriminate Hd.
Qed.

Lemma configure_spec dp devices : forall l,
  configure resolveipaddress devices dp = inr l ->
  map devicename l = devices /\
  Forall (fun d => well_timed d /\ complete d) l.
Proof.
  induction devices as [|device devices IH]; intros l E; cbn in E.
  - injection E as <-. split; [reflexivity|constructor].
  - destruct (set_properties _ _ _ _) as [e|d] eqn:E1; [discriminate E|].
    destruct (check d) eqn:Hc; [|discriminate E].
    destruct (configure _ _ _) as [e|l'] eqn:E2; [discriminate E|].
    injection E as <-.
    destruct (IH _ eq_refl) as [Hn Hf].
    assert (W0 : well_timed (new_device device))
      by (unfold well_timed; cbn; lia).
    destruct (set_properties_keeps _ _ _ _ E1 W0 (or_introl eq_refl))
      as (W & Hname & Hy).
    split.
    + cbn [map]. now rewrite Hname, Hn.
    + constructor; [|exact Hf]. split; [exact W|].
      now apply check_complete.
Qed.

(** X3: when [IOLinkMasterList] returns, its [devicelist] has one device
    for every name of the comma-separated list, in that order, and never
    none; every device has an address and a delay from the properties,
    a cycle time of 5 to 600 seconds and 5 to 20 partial polls between
    full polls, whatever the text of the delay property. *)
Theorem devicelist_configured (raw_device_list : string)
    (dp : list (string * string)) (l : list IOLinkMaster) :
  IOLinkMasterList resolveipaddress raw_device_list dp = inr l ->
  map devicename l = devices_of raw_device_list /\
  l <> [] /\
  Forall (fun d => well_timed d /\ complete d) l.
Proof.
  unfold IOLinkMasterList. intros E.
  destruct (configure_spec _ _ _ E) as [Hn Hf].
  repeat split; [exact Hn| |exact Hf].
  intros ->. unfold devices_of in Hn.
  destruct (split _ _) as [w ws]. discriminate Hn.
Qed.

End DeviceList.

Lemma devicelist_configured_witness :
  exists l,
    Config.IOLinkMasterList (fun s => s) "d1,d2"
      [("d1.ipaddress", "10.0.0.1"); ("d1.delay", "30,7");
       ("d2.ipaddress", "10.0.0.2"); ("d2.delay", "700");
       ("httptimeout", "1")] = inr l /\
    map Config.devicename l = ["d1"; "d2"] /\
    Forall (fun d => ConfigProps.well_timed d /\ ConfigProps.complete d) l.
Proof.
  destruct (Config.IOLinkMasterList (fun s => s) "d1,d2"
      [("d1.ipaddress", "10.0.0.1"); ("d1.delay", "30,7");
       ("d2.ipaddress", "10.0.0.2"); ("d2.delay", "700");
       ("httptimeout", "1")]) as [e|l] eqn:E;
    [vm_compute in E; discriminate E|].
  exists l. split; [reflexivity|].
  destruct (devicelist_configured _ _ _ _ E) as (Hn & _ & Hf).
  split; [exact Hn|exact Hf].
Defined.

(** *** Device names with a dot *)

Section Dotted.

Import Text Config ConfigProps.

Variable resolveipaddress : string -> string.

Lemma prefix_app sub : forall l,
  prefix sub l = true -> exists rest, l = sub ++ rest.
Proof.
  induction sub as [|c sub IH]; intros l H.
  - now exists l.
  - destruct l as [|c' l]; [discriminate H|]. cbn [prefix] in H.
    apply andb_true_iff in H as [Hc H].
    apply Ascii.eqb_eq in Hc as <-.
    destruct (IH _ H) as [rest ->]. now exists rest.
Qed.

Lemma find_app sub : forall l i,
  find sub l = Some i -> exists pre rest, l = pre ++ sub ++ rest.
Proof.
  induction l as [|c l IH]; intros i H.
  - cbn [find] in H. destruct (prefix sub []) eqn:P; [|discriminate H].
    apply prefix_app in P as [rest ->]. now exists [], rest.
  - cbn [find] in H. destruct (prefix sub (c :: l)) eqn:P.
    + apply prefix_app in P as [rest ->]. now exists [], rest.
    + destruct (find sub l) as [j|]; [|discriminate H].
      destruct (IH j eq_refl) as (pre & rest & ->).
      now exists (c :: pre), rest.
Qed.

Lemma find_char_in c : forall l,
  In c l -> exists i, find [c] l = Some i.
Proof.
  induction l as [|c' l IH]; intros H; [destruct H|].
  cbn [find prefix]. destruct (Ascii.eqb_spec c c') as [->|Hne].
  - now exists 0%nat.
  - destruct H as [H|H]; [congruence|].
    destruct (IH H) as [i ->]. now exists (S i).
Qed.

Lemma count_In (c : ascii) l :
  (1 <= count_occ Ascii.ascii_dec l c)%nat -> In c l.
Proof. intros H. apply (count_occ_In Ascii.ascii_dec). unfold gt. lia. Qed.

Lemma In_count (c : ascii) l :
  In c l -> (1 <= count_occ Ascii.ascii_dec l c)%nat.
Proof.
  intros H. apply (count_occ_In Ascii.ascii_dec) in H. unfold gt in H. lia.
Qed.

Lemma after_find_twice c : forall l,
  (2 <= count_occ Ascii.ascii_dec l c)%nat -> In c (after_find [c] l).
Proof.
  induction l as [|c' l IH]; intros H; [cbn in H; lia|].
  unfold after_find. cbn [find prefix].
  destruct (Ascii.eqb_spec c c') as [E|Hne].
  - subst c'. change (In c l).
    rewrite count_occ_cons_eq in H by reflexivity.
    apply count_In. lia.
  - cbn [andb]. rewrite count_occ_cons_neq in H by congruence.
    assert (Hin : In c l) by (apply count_In; lia).
    destruct (find_char_in c l Hin) as [i Hi].
    specialize (IH H). unfold after_find in IH. rewrite Hi in IH |- *.
    exact IH.
Qed.

Lemma dotted_property device d key value :
  In "."%char (list_ascii_of_string device) ->
  set_property resolveipaddress device d key value = inr d \/
  exists e, set_property resolveipaddress device d key value = inl e.
Proof.
  intros Hdot. unfold set_property.
  destruct (find _ _) as [i|] eqn:F; [|now left]. right.
  apply find_app in F as (pre & rest & Hk).
  set (x := after_find ["."%char] (list_ascii_of_string key)).
  assert (Hx : In "."%char x).
  { apply after_find_twice. rewrite Hk.
    assert (Hs : list_ascii_of_string (device +:+ ".") =
                 list_ascii_of_string device ++ ["."%char]).
    { clear. induction device as [|c s IH]; [reflexivity|].
      cbn. now rewrite <- IH. }
    rewrite Hs, !count_occ_app. cbn [count_occ].
    destruct (Ascii.ascii_dec "." "."); [|congruence].
    apply In_count in Hdot. lia. }
  assert (Hne : forall s, ~ In "."%char (list_ascii_of_string s) ->
                          String.eqb (string_of_list_ascii x) s = false).
  { intros s Hs. apply String.eqb_neq. intros <-.
    now rewrite list_ascii_of_string_of_list_ascii in Hs. }
  rewrite !Hne; [eauto|..]; cbn; intuition discriminate.
Qed.

Lemma dotted_properties device dp : forall d,
  In "."%char (list_ascii_of_string device) ->
  set_properties resolveipaddress device d dp = inr d \/
  exists e, set_properties resolveipaddress device d dp = inl e.
Proof.
  induction dp as [|[key value] dp IH]; intros d Hdot; cbn; [now left|].
  destruct (dotted_property device d key value Hdot) as [->|[e ->]].
  - now apply IH.
  - right. now exists e.
Qed.

Lemma dotted_configure dp device : forall devices,
  In device devices ->
  In "."%char (list_ascii_of_string device) ->
  exists e, configure resolveipaddress devices dp = inl e.
Proof.
  induction devices as [|device0 devices IH]; intros Hin Hdot;
    [destruct Hin|].
  cbn [configure].
  destruct (set_properties _ device0 _ _) as [e|d] eqn:E; [now exists e|].
  destruct (check d) eqn:Hc; [|eauto].
  destruct Hin as [->|Hin].
  - destruct (dotted_properties device dp (new_device device) Hdot)
      as [E'|[e E']]; rewrite E' in E; [|discriminate E].
    injection E as <-. discriminate Hc.
  - destruct (IH Hin Hdot) as [e ->]. now exists e.
Qed.

(** X4: a device whose name in the device list has a dot (an address in
    octet form, say) is never accepted.  A key that holds the name and a
    dot gives a property name cut after the first dot of the key, which
    is none of [ipaddress], [port] and [delay]; without such a key the
    device is incomplete.  [IOLinkMasterList] raises either way, whatever
    the properties. *)
Theorem dotted_device_rejected (raw_device_list : string)
    (dp : list (string * string)) (device : string) :
  In device (devices_of raw_device_list) ->
  In "."%char (list_ascii_of_string device) ->
  exists e, IOLinkMasterList resolveipaddress raw_device_list dp = inl e.
Proof. intros Hin Hdot. now apply (dotted_configure dp device). Qed.

End Dotted.

Lemma dotted_device_rejected_witness :
  exists e,
    Config.IOLinkMasterList (fun s => s) "d1,10.0.0.1"
      [("d1.ipaddress", "10.0.0.2"); ("d1.delay", "30,7");
       ("10.0.0.1.ipaddress", "10.0.0.1"); ("10.0.0.1.delay", "30,7")]
    = inl e.
Proof.
  apply (dotted_device_rejected (fun s => s) "d1,10.0.0.1" _ "10.0.0.1").
  - cbn. tauto.
  - cbn. tauto.
Defined.

(** ** The properties file *)

Section PropertiesFile.

Import Text Config ConfigProps.

Lemma load_lines_spec lines : forall key value props,
  props !! key = Some value ->
  load_lines lines key value props =
  list_to_map (rev (entries lines)) ∪ props.
Proof.
  unfold entries.
  induction lines as [|line lines IH]; intros key value props Hp.
  - cbn. now rewrite (left_id ∅ (∪)).
  - cbn [load_lines omap list_omap].
    destruct (parse_line line) as [[k v]|]; cbn [default id].
    + rewrite IH by apply lookup_insert_eq.
      cbn [rev]. rewrite list_to_map_app. cbn [list_to_map foldr].
      rewrite <- (assoc_L (∪)).
      now rewrite insert_empty, <- insert_union_singleton_l.
    + rewrite insert_id by exact Hp. now apply IH.
Qed.

(** X5: the dictionary that [load_properties] returns holds, for every
    key, the value of the last line that sets it.  Blank lines and
    comments add nothing, with one exception: in a file that begins with
    one, [props[key] = value] runs before any key was read and leaves an
    entry with the empty key (and the empty value, unless a later line
    sets that key). *)
Theorem load_properties_entries (lines : list string) :
  load_properties lines =
  list_to_map (rev (entries lines)) ∪
  (if headless lines then {[ EmptyString := EmptyString ]} else ∅).
Proof.
  unfold load_properties, headless, entries.
  destruct lines as [|line lines]; [reflexivity|].
  cbn [load_lines omap list_omap].
  destruct (parse_line line) as [[k v]|]; cbn [default id].
  - rewrite (load_lines_spec lines k v) by apply lookup_insert_eq.
    unfold entries. cbn [rev]. rewrite list_to_map_app.
    cbn [list_to_map foldr]. now rewrite (right_id ∅ (∪)).
  - rewrite (load_lines_spec lines "" "") by apply lookup_insert_eq.
    now rewrite insert_empty.
Qed.

Lemma lstrip_length l : (length (lstrip l) <= length l)%nat.
Proof.
  induction l as [|c l IH]; [reflexivity|]. cbn [lstrip].
  destruct (is_space c); cbn [length]; lia.
Qed.

Lemma lstrip_same l : length (lstrip l) = length l -> lstrip l = l.
Proof.
  destruct l as [|c l]; [reflexivity|]. cbn [lstrip].
  destruct (is_space c); [|reflexivity].
  pose proof (lstrip_length l). cbn [length]. lia.
Qed.

Lemma trimmed_ends l :
  trimmed l -> lstrip l = l /\ lstrip (rev l) = rev l.
Proof.
  unfold trimmed, strip. intros H.
  pose proof (lstrip_length l) as H1.
  pose proof (lstrip_length (rev (lstrip l))) as H2.
  assert (H3 : length (lstrip (rev (lstrip l))) = length l).
  { rewrite <- H at 2. now rewrite length_rev. }
  rewrite length_rev in H2.
  assert (E : lstrip l = l) by (apply lstrip_same; lia).
  split; [exact E|]. rewrite E in H3. apply lstrip_same.
  now rewrite length_rev.
Qed.

Lemma lstrip_app l l' : l <> [] -> lstrip l = l -> lstrip (l ++ l') = l ++ l'.
Proof.
  destruct l as [|c l]; [easy|]. intros _. cbn [lstrip app].
  destruct (is_space c); [|reflexivity].
  intros H. pose proof (lstrip_length l) as Hl.
  apply (f_equal (@length ascii)) in H. cbn [length] in H. lia.
Qed.

Lemma split_app_sep sep k v :
  ~ In sep k ->
  split sep (k ++ sep :: v) = (k, (split sep v).1 :: (split sep v).2).
Proof.
  induction k as [|c k IH]; intros Hk.
  - cbn [app split]. rewrite Ascii.eqb_refl. now destruct (split sep v).
  - cbn [app split]. rewrite IH by (intros Hin; apply Hk; now right).
    destruct (Ascii.eqb_spec c sep) as [->|_]; [|reflexivity].
    destruct Hk. now left.
Qed.

Lemma join_cons sep w w' ws :
  join sep (w :: w' :: ws) = w ++ sep :: join sep (w' :: ws).
Proof. reflexivity. Qed.

Lemma join_split sep : forall l,
  join sep ((split sep l).1 :: (split sep l).2) = l.
Proof.
  induction l as [|c l IH]; [reflexivity|]. cbn [split].
  destruct (split sep l) as [w ws]. cbn [fst snd] in IH.
  destruct (Ascii.eqb_spec c sep) as [->|_]; cbn [fst snd].
  - rewrite join_cons, IH. reflexivity.
  - destruct ws as [|w' ws].
    + cbn [join] in IH |- *. now rewrite IH.
    + rewrite join_cons in IH |- *. cbn [app]. now rewrite IH.
Qed.

Lemma list_ascii_of_string_app s1 s2 :
  list_ascii_of_string (s1 +:+ s2) =
  list_ascii_of_string s1 ++ list_ascii_of_string s2.
Proof.
  induction s1 as [|c s1 IH]; [reflexivity|]. simpl. f_equal. exact IH.
Qed.

(** X6: a line [key=value] followed by a newline is read back as that key
    and that value, also when the value holds further [=] signs: the key
    is the text before the first [=], the value all of the text after
    it.  It holds for a key that is not empty, holds no [=] and does not
    begin with [#], and for a key and a value that [strip()], and for
    the value the stripping of double quotes, leave as they are. *)
Theorem parse_line_roundtrip (key value : string) :
  list_ascii_of_string key <> [] ->
  trimmed (list_ascii_of_string key) ->
  ~ In "="%char (list_ascii_of_string key) ->
  startswith "#" (list_ascii_of_string key) = false ->
  trimmed (list_ascii_of_string value) ->
  strip_char "034" (list_ascii_of_string value) = list_ascii_of_string value ->
  parse_line (key +:+ "=" +:+ value +:+ String "010" EmptyString) =
  Some (key, value).
Proof.
  set (k := list_ascii_of_string key). set (v := list_ascii_of_string value).
  intros Hne Hk Heq Hhash Hv Hq.
  apply trimmed_ends in Hk as [Hk1 Hk2]. pose proof Hv as Hv0.
  apply trimmed_ends in Hv as [Hv1 Hv2].
  assert (Hline : strip (list_ascii_of_string
                    (key +:+ "=" +:+ value +:+ String "010" EmptyString)) =
                  k ++ "="%char :: v).
  { rewrite !list_ascii_of_string_app. fold k v.
    change (list_ascii_of_string "=") with ["="%char].
    change (list_ascii_of_string (String "010" EmptyString))
      with ["010"%char].
    unfold strip. rewrite (lstrip_app k) by assumption.
    replace (rev (k ++ ["="%char] ++ v ++ ["010"%char]))
      with ("010"%char :: rev v ++ "="%char :: rev k)
      by (rewrite !rev_app_distr; cbn; now rewrite <- !app_assoc).
    change (lstrip ("010"%char :: rev v ++ "="%char :: rev k))
      with (lstrip (rev v ++ "="%char :: rev k)).
    assert (Hr : lstrip (rev v ++ "="%char :: rev k) =
                 rev v ++ "="%char :: rev k).
    { destruct (rev v) as [|c r] eqn:Er; [reflexivity|].
      apply lstrip_app; [discriminate|exact Hv2]. }
    rewrite Hr, rev_app_distr. cbn [rev].
    rewrite !rev_involutive, <- app_assoc. reflexivity. }
  unfold parse_line. rewrite Hline.
  destruct k as [|c k'] eqn:Ek; [easy|]. rewrite <- Ek in *.
  replace (k ++ "="%char :: v) with (c :: k' ++ "="%char :: v)
    by now rewrite Ek.
  replace (startswith "#" (c :: k' ++ "="%char :: v))
    with (startswith "#" k) by now rewrite Ek.
  rewrite Hhash.
  replace (c :: k' ++ "="%char :: v) with (k ++ "="%char :: v)
    by now rewrite Ek.
  rewrite split_app_sep by exact Heq. cbn [fst snd].
  rewrite join_split.
  replace (strip k) with k by (unfold strip; now rewrite Hk1, Hk2, rev_involutive).
  rewrite Hv0, Hq. unfold k, v.
  now rewrite !string_of_list_ascii_of_string.
Qed.

End PropertiesFile.

Lemma parse_line_roundtrip_witness :
  Config.parse_line
    ("310@V1@velocity" +:+ "=" +:+ "10.0" +:+ String "010" EmptyString) =
  Some ("310@V1@velocity", "10.0").
Proof.
  apply parse_line_roundtrip.
  - discriminate.
  - reflexivity.
  - cbn. intuition discriminate.
  - reflexivity.
  - reflexivity.
  - reflexivity.
Defined.

(** ** What a turn of the loop keeps and sends *)

Section Steady.

Import LoopProps.

Variable net : nat -> string -> outcome.
Variable self : IOLinkMaster.
Variable prr : gmap string string.
Variable float_of_str : string -> option float.

Variable Inv : list (list (option sensor)) -> Prop.
Variable Eff : effect -> Prop.

Hypothesis Inv_alloc : forall h l, Inv h -> Inv (h ++ [l]).
Hypothesis Inv_pd : forall h r i pd,
  Inv h -> Inv (alter (alter (fmap (set_sensorprocessdata pd)) i) r h).
Hypothesis Inv_json : forall h r i j,
  Inv h -> Inv (alter (alter (fmap (set_json j)) i) r h).
Hypothesis Eff_master : forall d, Eff (WriteMaster d).
Hypothesis Eff_sensor : forall i d, Eff (WriteSensor i d).
Hypothesis Eff_alert : forall i evtd, Eff (SendToSaas i "SENSOR" evtd).

Local Abbreviation steady := (LoopProps.steady Inv Eff).

Lemma sends_refl st : sends Eff st st.
Proof. exists []. split; [reflexivity|constructor]. Qed.

Lemma sends_trans st1 st2 st3 :
  sends Eff st1 st2 -> sends Eff st2 st3 -> sends Eff st1 st3.
Proof.
  intros (n1 & E1 & F1) (n2 & E2 & F2). exists (n2 ++ n1). split.
  - now rewrite E2, E1, app_assoc.
  - now apply Forall_app.
Qed.

Lemma steady_same {A : Type} (m : M A) :
  (forall st, heap (m st).2 = heap st /\ out (m st).2 = out st) -> steady m.
Proof.
  intros H st res st' E HI. specialize (H st). rewrite E in H. cbn in H.
  destruct H as [Hh Ho]. split; [now rewrite Hh|].
  exists []. now split; [rewrite Ho|constructor].
Qed.

Lemma steady_ret {A : Type} (a : A) : steady (mret a).
Proof. now apply steady_same. Qed.

Lemma steady_raise {A : Type} (e : exn) : steady (@raise A e).
Proof. now apply steady_same. Qed.

Lemma steady_lift {A : Type} (x : result A) : steady (lift x).
Proof. now apply steady_same. Qed.

Lemma steady_deref r : steady (deref r).
Proof. now apply steady_same. Qed.

Lemma steady_index {A : Type} (l : list A) j : steady (index l j).
Proof. unfold index. destruct (l !! j); now apply steady_same. Qed.

Lemma steady_attr_of {A : Type} (x : option A) : steady (attr_of x).
Proof. destruct x; now apply steady_same. Qed.

Lemma steady_bind {A B : Type} (m : M A) (f : A -> M B) :
  steady m -> (forall a, steady (f a)) -> steady (m ≫= f).
Proof.
  intros Hm Hf st res st' E HI.
  apply bind_inv in E as [(a & st1 & E1 & E2) | (e & E1 & ->)].
  - destruct (Hm _ _ _ E1 HI) as [HI1 Q1].
    destruct (Hf a _ _ _ E2 HI1) as [HI2 Q2].
    split; [exact HI2|]. now apply (sends_trans _ st1).
  - apply (Hm _ _ _ E1 HI).
Qed.

Lemma steady_for_each {A : Type} (l : list A) (body : A -> M unit) :
  (forall x, steady (body x)) -> steady (for_each l body).
Proof.
  intros Hb. induction l as [|x l IH]; cbn [for_each].
  - apply steady_ret.
  - apply steady_bind; [apply Hb|intros _; exact IH].
Qed.

Lemma steady_for_break {A : Type} (l : list A) (body : A -> M flow) :
  (forall x, steady (body x)) -> steady (for_break l body).
Proof.
  intros Hb. induction l as [|x l IH]; cbn [for_break].
  - apply steady_ret.
  - apply steady_bind; [apply Hb|intros [|]; [exact IH|apply steady_ret]].
Qed.

Lemma steady_emit e : Eff e -> steady (emit e).
Proof.
  intros He st res st' E HI. unfold emit in E. injection E as _ <-.
  split; [exact HI|]. exists [e]. split; [reflexivity|].
  now repeat constructor.
Qed.

Lemma steady_alloc l : steady (alloc l).
Proof.
  intros st res st' E HI. unfold alloc in E. injection E as _ <-.
  split; [now apply Inv_alloc|].
  exists []. split; [reflexivity|constructor].
Qed.

Lemma steady_update_pd r i pd : steady (update r i (set_sensorprocessdata pd)).
Proof.
  intros st res st' E HI. unfold update in E. injection E as _ <-.
  split; [now apply Inv_pd|].
  exists []. split; [reflexivity|constructor].
Qed.

Lemma steady_update_json r i j : steady (update r i (set_json j)).
Proof.
  intros st res st' E HI. unfold update in E. injection E as _ <-.
  split; [now apply Inv_json|].
  exists []. split; [reflexivity|constructor].
Qed.

Lemma steady_httpget requeststring ipz :
  @LoopProps.steady Inv Eff pyobj (httpget net self requeststring ipz true).
Proof.
  apply steady_same. intros st.
  unfold httpget, requests_get, mbind, M_bind, lift, raise, mret, M_ret.
  destruct (net (clock st) _) as [| | |[|] [|t]]; try easy.
  destruct (json_loads t) as [j|]; [|easy].
  destruct (py_getitem j "data") as [d|]; [|easy].
  destruct (py_getitem d "value"); easy.
Qed.

Lemma steady_gettree ipz : steady (gettree net self ipz).
Proof.
  apply steady_same. intros st.
  unfold gettree, httpget, requests_get, mbind, M_bind, lift, raise, mret,
    M_ret.
  destruct (net (clock st) _) as [| | |[|] [|t]]; easy.
Qed.

Create HintDb steadydb.

#[local] Hint Resolve steady_httpget steady_gettree steady_alloc
  steady_update_pd steady_update_json : steadydb.

Ltac steadily :=
  repeat first
    [ assumption
    | solve [auto with steadydb nocore]
    | apply steady_ret | apply steady_raise | apply steady_lift
    | apply steady_deref | apply steady_index | apply steady_attr_of
    | apply steady_for_each; intros ?
    | apply steady_for_break; intros ?
    | apply steady_bind; [|intros ?]
    | match goal with
      | |- LoopProps.steady _ _ (match ?x with _ => _ end) => destruct x
      end
    | progress cbv zeta ].

Lemma steady_getportcount ipz : steady (getportcount net self ipz).
Proof. unfold getportcount. steadily. Qed.

Lemma steady_count_plus n k : steady (count_plus n k).
Proof. unfold count_plus. steadily. Qed.

#[local] Hint Resolve steady_getportcount steady_count_plus : steadydb.

Lemma steady_sensoronport ipz p : steady (sensoronport net self ipz p).
Proof.
  unfold sensoronport, getportdevicestatus, getportsensordeviceid,
    getportsensorlocalname, getportsensorserial, getportsensorvendorid,
    getportsensorname, getportsensorprocessdata.
  steadily.
Qed.

#[local] Hint Resolve steady_sensoronport : steadydb.

Lemma steady_portefeuille_loop ipz ports : forall l,
  steady (portefeuille_loop net self ipz ports l).
Proof.
  induction ports as [|p ports IH]; intros l; cbn [portefeuille_loop];
    steadily.
Qed.

#[local] Hint Resolve steady_portefeuille_loop : steadydb.

Lemma steady_getsensorsondevices ipz :
  steady (getsensorsondevices net self ipz).
Proof. unfold getsensorsondevices. steadily. Qed.

#[local] Hint Resolve steady_getsensorsondevices : steadydb.

Lemma steady_fullpoll ipx info : steady (fullpoll net self ipx info).
Proof.
  unfold fullpoll, getipaddress, getproductserial, getvendor,
    getdevicefamily, gettemperature, getsupervisionstatus, getmilliamperes,
    getproductcode, getvolts.
  steadily. apply steady_emit, Eff_master.
Qed.

Lemma steady_partialpoll ipx r : steady (partialpoll net self ipx r).
Proof.
  unfold partialpoll, refresh, getportdevicestatus, getportsensorprocessdata.
  steadily.
Qed.

Lemma steady_decode_all ipx r : steady (decode_all ipx r).
Proof.
  unfold decode_all, decode. steadily. apply steady_emit, Eff_sensor.
Qed.

Lemma steady_threshold key : steady (threshold prr float_of_str key).
Proof. unfold threshold. steadily. Qed.

Lemma steady_field d key : steady (field d key).
Proof. unfold field. steadily. Qed.

Lemma steady_alert ipx j name what s how x limit :
  steady (alert ipx j name what s how x limit).
Proof. unfold alert, alert_mesg. steadily. apply steady_emit, Eff_alert. Qed.

#[local] Hint Resolve steady_fullpoll steady_partialpoll steady_decode_all
  steady_threshold steady_field steady_alert : steadydb.

Lemma steady_thresholds ipx cur j :
  steady (thresholds prr float_of_str ipx cur j).
Proof. unfold thresholds. steadily. Qed.

#[local] Hint Resolve steady_thresholds : steadydb.

Lemma steady_checkports ipx saved cur :
  (forall j, steady (compare ipx saved cur j)) ->
  steady (checkports net self prr float_of_str ipx saved cur).
Proof. intros Hc. unfold checkports, checkport. steadily. Qed.

(** A turn of the loop, given that the comparison it makes is steady:
    that of the saved list with the new list in a full poll, with the
    list [sensorlist] itself in a partial poll. *)
Lemma steady_cycle ipx v :
  (forall cur j,
     (fullinfo v = false -> cur = sensorlist v) ->
     steady (compare ipx (savesensorlist v) cur j)) ->
  steady (cycle net self prr float_of_str ipx v).
Proof.
  intros Hc. unfold cycle.
  set (first := if fullinfo v then _ else _).
  assert (H1 : steady first).
  { unfold first. destruct (fullinfo v); [steadily|].
    destruct (iterations self <? itercount v + 1)%Z; steadily. }
  intros st res st' E HI.
  apply bind_inv in E as [(x & st1 & E1 & E2) | (e & E1 & ->)];
    [|exact (H1 _ _ _ E1 HI)].
  destruct (H1 _ _ _ E1 HI) as [HI1 Q1].
  destruct x as [[[info cur] full] it].
  assert (Hcur : fullinfo v = false -> cur = sensorlist v).
  { intros Hf. unfold first in E1. rewrite Hf in E1.
    destruct (iterations self <? itercount v + 1)%Z;
      apply bind_ok_inv in E1 as (? & ? & _ & E1);
      cbv [mret M_ret] in E1; now injection E1 as _ <- _ _ _. }
  assert (H2 : steady (decode_all ipx cur;;
                       checkports net self prr float_of_str ipx
                         (savesensorlist v) cur;;
                       mret {| savesensorlist := Some cur; iolminfo := info;
                               sensorlist := cur; fullinfo := full;
                               itercount := it |})).
  { pose proof (steady_checkports ipx (savesensorlist v) cur
                  (fun j => Hc cur j Hcur)).
    steadily. }
  destruct (H2 _ _ _ E2 HI1) as [HI2 Q2].
  split; [exact HI2|]. now apply (sends_trans _ st1).
Qed.

Lemma steady_compare_none ipx cur j : steady (compare ipx None cur j).
Proof. apply steady_ret. Qed.

Lemma steady_compare_any ipx saved cur j :
  (forall evtd, Eff (SendToSaas j "CONFIGURATION" evtd)) ->
  steady (compare ipx saved cur j).
Proof.
  intros He. unfold compare.
  assert (forall evtd, steady (emit (SendToSaas j "CONFIGURATION" evtd)))
    by (intros evtd; apply steady_emit, He).
  steadily.
Qed.

(** The first turn: [getreadings] stopped after one turn of its loop. *)
Lemma steady_first_turn ipx :
  steady (getreadings net self prr float_of_str ipx 1).
Proof.
  assert (H0 : steady (getreadings_start net self ipx))
    by (unfold getreadings_start; steadily).
  intros st res st' E HI. unfold getreadings in E.
  apply bind_inv in E as [(start & st1 & E0 & E) | (e & E0 & ->)];
    [|exact (H0 _ _ _ E0 HI)].
  destruct (H0 _ _ _ E0 HI) as [HI1 Q1].
  assert (H1 : steady (match start with
                       | Some v =>
                           v' ← cycles net self prr float_of_str ipx 1 v;
                           mret (Some v')
                       | None => mret None
                       end)).
  { destruct start as [v|]; [|apply steady_ret].
    assert (Hs : savesensorlist v = None).
    { unfold getreadings_start in E0.
      apply bind_ok_inv in E0 as (r & s1 & _ & E0).
      apply bind_ok_inv in E0 as (m & s2 & _ & E0).
      destruct m; cbv [mret M_ret] in E0; injection E0 as E0 _;
        [now subst v | discriminate E0]. }
    cbn [cycles]. pose proof (steady_cycle ipx v) as Hc.
    rewrite Hs in Hc.
    specialize (Hc (fun cur j _ => steady_compare_none ipx cur j)).
    steadily. }
  destruct (H1 _ _ _ E HI1) as [HI2 Q2].
  split; [exact HI2|]. now apply (sends_trans _ st1).
Qed.

End Steady.

Section Identities.

Import LoopProps.

Lemma identities_alter (f : sensor -> sensor) i l :
  (forall s, identity (f s) = identity s) ->
  identities (alter (fmap f) i l) = identities l.
Proof.
  intros Hf. unfold identities. revert i.
  induction l as [|x l IH]; intros [|i]; cbn; try reflexivity.
  - f_equal. destruct x as [s|]; cbn; [|reflexivity]. now rewrite Hf.
  - f_equal. apply IH.
Qed.

Lemma identities_at_alloc r ids h l :
  identities_at r ids h -> identities_at r ids (h ++ [l]).
Proof.
  intros (l0 & Hl & Hi). exists l0. split; [|exact Hi].
  now apply lookup_app_l_Some.
Qed.

Lemma identities_at_update (f : sensor -> sensor) r ids h r' i :
  (forall s, identity (f s) = identity s) ->
  identities_at r ids h ->
  identities_at r ids (alter (alter (fmap f) i) r' h).
Proof.
  intros Hf (l & Hl & Hi).
  destruct (decide (r' = r)) as [->|Hr].
  - exists (alter (fmap f) i l). split.
    + now rewrite list_lookup_alter_eq, Hl.
    + now rewrite identities_alter.
  - exists l. split; [|exact Hi]. now rewrite list_lookup_alter_ne.
Qed.

Lemma lookup_In {A : Type} (l : list A) : forall j x,
  l !! j = Some x -> In x l.
Proof.
  induction l as [|y l IH]; intros [|j] x H; try discriminate H.
  - injection H as <-. now left.
  - right. exact (IH j x H).
Qed.

Lemma py_eq_scalar x : scalar x = true -> py_eq x x = true.
Proof.
  destruct x as [| b | z | s | l | l]; cbn; try easy; intros _.
  - now destruct b.
  - apply Z.eqb_refl.
  - apply String.eqb_refl.
Qed.

End Identities.

Section Turns.

Import LoopProps.

Variable net : nat -> string -> outcome.
Variable self : IOLinkMaster.
Variable prr : gmap string string.
Variable float_of_str : string -> option float.

(** X7: a turn of the loop changes the identity of no sensor object that
    exists when it begins, and the length of no sensor list, whether it
    completes or raises: the only attributes written are the process
    data and the decoded measurement.  A partial poll goes on with the
    same list object, so the port, type, name, serial, vendor id and
    local name that the last full poll read stay until the next one. *)
Theorem turn_keeps_identities (ipx : string) (v : locals) (st : io)
    (res : result locals) (st' : io) (r : nat)
    (ids : list (option (Z * pyobj * pyobj * pyobj * pyobj * pyobj))) :
  cycle net self prr float_of_str ipx v st = (res, st') ->
  identities_at r ids (heap st) ->
  identities_at r ids (heap st') /\
  (fullinfo v = false ->
   forall v', res = Ok v' -> sensorlist v' = sensorlist v).
Proof.
  intros E HI. split.
  - refine (proj1 (steady_cycle net self prr float_of_str
                     (identities_at r ids) (fun _ => True)
                     _ _ _ _ _ _ ipx v _ st res st' E HI)); try easy.
    + intros h l. apply identities_at_alloc.
    + intros h r' i pd. now apply identities_at_update.
    + intros h r' i j. now apply identities_at_update.
    + intros cur j _. now apply steady_compare_any.
  - intros Hf v' ->.
    now destruct (cycle_partial_lists _ _ _ _ _ _ _ _ _ E Hf).
Qed.

Lemma read_inv {A : Type} r l j (body : option sensor -> M A) st res st' :
  heap st !! r = Some l ->
  (cl ← deref r; c ← index cl j; body c) st = (res, st') ->
  (exists c, l !! j = Some c /\ body c st = (res, st')) \/
  (l !! j = None /\ st' = st).
Proof.
  intros Hl E.
  apply bind_inv in E as [(cl & s1 & E1 & E) | (e & E1 & _)];
    [|discriminate E1].
  unfold deref in E1. rewrite Hl in E1. cbn [default] in E1.
  injection E1 as <- <-.
  apply bind_inv in E as [(c & s1 & E1 & E) | (e & E1 & _)];
    unfold index in E1; destruct (l !! j) as [x|]; try discriminate E1.
  - cbv [mret M_ret] in E1. injection E1 as <- <-. left. now exists x.
  - unfold raise in E1. injection E1 as _ <-. now right.
Qed.

(** The comparison of a list with itself reads twice the same entry. *)
Lemma compare_self ipx r j ids st res st' :
  identities_at r ids (heap st) ->
  Forall plain ids ->
  compare ipx (Some r) r j st = (res, st') -> st' = st.
Proof.
  intros (l & Hl & Hi) Hp E. unfold compare in E.
  apply (read_inv r l j _ _ _ _ Hl) in E as [(c & Hj & E)|[_ E]];
    [|exact E].
  destruct c as [s|];
    apply (read_inv r l j _ _ _ _ Hl) in E as [(c' & Hj' & E)|[_ E]];
    try exact E; rewrite Hj in Hj'; injection Hj' as <-.
  - assert (Hs : plain (Some (identity s))).
    { apply (proj1 (List.Forall_forall plain ids) Hp). rewrite <- Hi.
      unfold identities.
      apply (in_map (option_map identity) l (Some s)).
      exact (lookup_In l j _ Hj). }
    destruct Hs as [Ht Hser].
    rewrite (py_eq_scalar _ Ht), (py_eq_scalar _ Hser) in E.
    cbn [negb] in E. cbv [mret M_ret] in E. now injection E as _ <-.
  - cbv [mret M_ret] in E. now injection E as _ <-.
Qed.

(** X8: a partial poll sends no change event.  The saved list is the
    current list itself ([savesensorlist = sensorlist] at the end of every
    turn copies the reference), so each port is compared with itself.
    The types and serials are taken to be numbers, strings or [None]. *)
Theorem partial_turn_sends_no_change_event (ipx : string) (v : locals)
    (st : io) (res : result locals) (st' : io)
    (ids : list (option (Z * pyobj * pyobj * pyobj * pyobj * pyobj))) :
  fullinfo v = false ->
  savesensorlist v = Some (sensorlist v) ->
  identities_at (sensorlist v) ids (heap st) ->
  Forall plain ids ->
  cycle net self prr float_of_str ipx v st = (res, st') ->
  sends (fun e => is_configuration e = false) st st'.
Proof.
  intros Hf Hs HI Hp E.
  refine (proj2 (steady_cycle net self prr float_of_str
                   (identities_at (sensorlist v) ids)
                   (fun e => is_configuration e = false)
                   _ _ _ _ _ _ ipx v _ st res st' E HI)); try easy.
  - intros h l. apply identities_at_alloc.
  - intros h r' i pd. now apply identities_at_update.
  - intros h r' i j. now apply identities_at_update.
  - intros cur j Hc. rewrite (Hc Hf), Hs.
    intros s1 res1 s2 E1 HI1.
    rewrite (compare_self _ _ _ _ _ _ _ HI1 Hp E1).
    split; [exact HI1|]. exists []. split; [reflexivity|constructor].
Qed.

(** X9: the first turn of the loop sends no change event, whatever the
    master answers: there is no saved list yet. *)
Theorem first_turn_sends_no_change_event (ipx : string) (st : io)
    (res : result (option locals)) (st' : io) :
  getreadings net self prr float_of_str ipx 1 st = (res, st') ->
  sends (fun e => is_configuration e = false) st st'.
Proof.
  intros E.
  refine (proj2 (steady_first_turn net self prr float_of_str
                   (fun _ => True) (fun e => is_configuration e = false)
                   _ _ _ _ _ _ ipx st res st' E I)); easy.
Qed.

End Turns.

Section TurnsRun.

Import Site LoopProps.

Lemma turn_keeps_identities_witness :
  exists v1 st1 res st2,
    run (switch 14 both_empty s1_on_1) ∅ 1 = (Ok (Some v1), st1) /\
    cycle (switch 14 both_empty s1_on_1) me ∅ float_of_str "10.0.0.1"
      v1 st1 = (res, st2) /\
    identities_at (sensorlist v1)
      [Some (identity (no_sensor 1)); Some (identity (no_sensor 2))]
      (heap st2).
Proof.
  destruct (run (switch 14 both_empty s1_on_1) ∅ 1) as [[[v1|]|e] st1]
    eqn:E1; try (vm_compute in E1; discriminate E1).
  destruct (cycle (switch 14 both_empty s1_on_1) me ∅ float_of_str
              "10.0.0.1" v1 st1) as [res st2] eqn:E2.
  exists v1, st1, res, st2. split; [reflexivity|]. split; [exact E2|].
  apply (turn_keeps_identities _ _ _ _ _ _ _ _ _ _ _ E2).
  vm_compute in E1. injection E1 as <- <-.
  eexists. split; reflexivity.
Defined.

Lemma partial_turn_sends_no_change_event_witness :
  exists v1 st1 res st2,
    run (switch 14 both_empty s1_on_1) ∅ 1 = (Ok (Some v1), st1) /\
    cycle (switch 14 both_empty s1_on_1) me ∅ float_of_str "10.0.0.1"
      v1 st1 = (res, st2) /\
    sends (fun e => is_configuration e = false) st1 st2.
Proof.
  destruct (run (switch 14 both_empty s1_on_1) ∅ 1) as [[[v1|]|e] st1]
    eqn:E1; try (vm_compute in E1; discriminate E1).
  destruct (cycle (switch 14 both_empty s1_on_1) me ∅ float_of_str
              "10.0.0.1" v1 st1) as [res st2] eqn:E2.
  exists v1, st1, res, st2. split; [reflexivity|]. split; [exact E2|].
  refine (partial_turn_sends_no_change_event
            (switch 14 both_empty s1_on_1) me ∅ float_of_str "10.0.0.1"
            v1 st1 res st2
            [Some (identity (no_sensor 1)); Some (identity (no_sensor 2))]
            _ _ _ _ E2);
    vm_compute in E1; injection E1 as <- <-.
  - reflexivity.
  - reflexivity.
  - eexists. split; reflexivity.
  - repeat constructor.
Defined.

Lemma first_turn_sends_no_change_event_witness :
  sends (fun e => is_configuration e = false) st0
    (run (Site.steady three_ports) prr_all 1).2.
Proof.
  apply (first_turn_sends_no_change_event (Site.steady three_ports) me prr_all
           float_of_str "10.0.0.1" st0 (run (Site.steady three_ports) prr_all 1).1).
  unfold run. now destruct (getreadings _ _ _ _ _ _ _).
Defined.

End TurnsRun.

(** ** A port with a sensor in operation *)

Section InOperation.

Import LoopProps.

Variable net : nat -> string -> outcome.
Variable self : IOLinkMaster.

Lemma answer_at_clock requeststring ipz st v st1 :
  httpget net self requeststring ipz true st = (Ok v, st1) ->
  answer_at net self (clock st) requeststring = Ok v /\
  clock st1 = S (clock st).
Proof.
  intros E. split; [|exact (httpget_tick _ _ _ _ _ _ _ E)].
  unfold answer_at.
  rewrite <- (httpget_result net self requeststring ipz "" st) by reflexivity.
  now rewrite E.
Qed.

(** X10: for a port whose status is 2 (sensor in operation),
    [getsensorsondevices] asks the master six more services in a fixed
    order and builds the entry from their answers: device id, application
    specific tag, serial, vendor id, product name and process data.  The
    tag is stored as [sensorname] and the product name as
    [sensorlocalname].  Seven requests are made for the port. *)
Theorem sensoronport_in_operation (ipz : string) (p : Z) (st : io)
    (s : sensor) (st' : io) (v : pyobj) :
  sensoronport net self ipz p st = (Ok s, st') ->
  status_at net self (clock st) p = Ok v ->
  py_eq v (PyInt 2) = true ->
  answer_at net self (clock st + 1)
    (porturl p "]/iolinkdevice/deviceid/getdata") = Ok (sensortype s) /\
  answer_at net self (clock st + 2)
    (porturl p "]/iolinkdevice/applicationspecifictag/getdata") =
    Ok (sensorname s) /\
  answer_at net self (clock st + 3)
    (porturl p "]/iolinkdevice/serial/getdata") = Ok (sensorserial s) /\
  answer_at net self (clock st + 4)
    (porturl p "]/iolinkdevice/vendorid/getdata") = Ok (sensorvendorid s) /\
  answer_at net self (clock st + 5)
    (porturl p "]/iolinkdevice/productname/getdata") =
    Ok (sensorlocalname s) /\
  answer_at net self (clock st + 6)
    (porturl p "]/iolinkdevice/pdin/getdata") = Ok (sensorprocessdata s) /\
  sensorport s = p /\ json s = JsonInit /\
  clock st' = (clock st + 7)%nat.
Proof.
  intros E Hv H2. unfold sensoronport in E.
  apply bind_ok_inv in E as (v' & st1 & E1 & E).
  pose proof (status_at_clock _ _ _ _ _ _ _ E1) as Hs.
  rewrite Hv in Hs. injection Hs as <-. rewrite H2 in E.
  unfold getportdevicestatus in E1. apply httpget_tick in E1.
  unfold getportsensordeviceid, getportsensorlocalname,
    getportsensorserial, getportsensorvendorid, getportsensorname,
    getportsensorprocessdata in E.
  apply bind_ok_inv in E as (typ & s2 & T2 & E).
  destruct (answer_at_clock _ _ _ _ _ T2) as [A2 C2].
  apply bind_ok_inv in E as (nm & s3 & T3 & E).
  destruct (answer_at_clock _ _ _ _ _ T3) as [A3 C3].
  apply bind_ok_inv in E as (ser & s4 & T4 & E).
  destruct (answer_at_clock _ _ _ _ _ T4) as [A4 C4].
  apply bind_ok_inv in E as (vid & s5 & T5 & E).
  destruct (answer_at_clock _ _ _ _ _ T5) as [A5 C5].
  apply bind_ok_inv in E as (lnm & s6 & T6 & E).
  destruct (answer_at_clock _ _ _ _ _ T6) as [A6 C6].
  apply bind_ok_inv in E as (pd & s7 & T7 & E).
  destruct (answer_at_clock _ _ _ _ _ T7) as [A7 C7].
  cbv [mret M_ret] in E. injection E as E2 E3. subst s st'.
  cbn [sensortype sensorname sensorserial sensorvendorid sensorlocalname
       sensorprocessdata sensorport json IOLinkSensorInformation].
  replace (clock st + 1)%nat with (clock st1) by lia.
  replace (clock st + 2)%nat with (clock s2) by lia.
  replace (clock st + 3)%nat with (clock s3) by lia.
  replace (clock st + 4)%nat with (clock s4) by lia.
  replace (clock st + 5)%nat with (clock s5) by lia.
  replace (clock st + 6)%nat with (clock s6) by lia.
  repeat split; try assumption; lia.
Qed.

End InOperation.

Section InOperationRun.

Import Site LoopProps.

Lemma sensoronport_in_operation_witness :
  exists s st',
    sensoronport (Site.steady temp_on_2) me "10.0.0.1" 2 st0 = (Ok s, st') /\
    sensorname s = PyStr "tank" /\ sensorlocalname s = PyStr "TA2002" /\
    clock st' = 7%nat.
Proof.
  destruct (sensoronport (Site.steady temp_on_2) me "10.0.0.1" 2 st0)
    as [[s|e] st'] eqn:E; [|vm_compute in E; discriminate E].
  exists s, st'. split; [reflexivity|].
  destruct (sensoronport_in_operation _ _ _ _ _ _ _ (PyInt 2) E eq_refl
              eq_refl) as (_ & Hn & _ & _ & Hl & _ & _ & _ & Hc).
  repeat split; [| |exact Hc].
  - assert (H : Ok (sensorname s) = Ok (PyStr "tank"))
      by (rewrite <- Hn; vm_compute; reflexivity).
    now injection H.
  - assert (H : Ok (sensorlocalname s) = Ok (PyStr "TA2002"))
      by (rewrite <- Hl; vm_compute; reflexivity).
    now injection H.
Defined.

End InOperationRun.

(** *** Delays that are honoured *)

Section Delay.

Import Text Config ConfigProps.

Lemma delay_table (d : IOLinkMaster) :
  forallb (fun D =>
    forallb (fun I =>
      let d' := set_delay d (pretty (Z.of_nat D) +:+ "," +:+
                             pretty (Z.of_nat I)) in
      (duration d' =? Z.of_nat D)%Z && (iterations d' =? Z.of_nat I)%Z)
      (seq 5 16))
    (seq 5 596) = true.
Proof. vm_compute. reflexivity. Qed.

(** X11: a delay property [D,I] of two decimal numbers with D from 5 to
    600 and I from 5 to 20 is honoured: the device gets the cycle time D
    and I partial polls between full polls. *)
Theorem delay_honoured (d : IOLinkMaster) (D I : Z) :
  (5 <= D <= 600)%Z -> (5 <= I <= 20)%Z ->
  duration (set_delay d (pretty D +:+ "," +:+ pretty I)) = D /\
  iterations (set_delay d (pretty D +:+ "," +:+ pretty I)) = I.
Proof.
  intros HD HI.
  pose proof (delay_table d) as H.
  rewrite forallb_forall in H.
  specialize (H (Z.to_nat D) ltac:(apply in_seq; lia)).
  rewrite forallb_forall in H.
  specialize (H (Z.to_nat I) ltac:(apply in_seq; lia)).
  cbv zeta in H. rewrite !Z2Nat.id in H by lia.
  apply andb_true_iff in H as [H1 H2].
  split; now apply Z.eqb_eq.
Qed.

End Delay.

Lemma delay_honoured_witness :
  Config.duration (Config.set_delay (Config.new_device "d1") "30,7") = 30%Z /\
  Config.iterations (Config.set_delay (Config.new_device "d1") "30,7") = 7%Z.
Proof.
  apply (delay_honoured (Config.new_device "d1") 30 7); lia.
Defined.

(** ** Addresses in octet form *)

Section Octets.

Import Text Config ConfigProps.

Variable IP : string -> option string.
Variable gethostbyname : string -> option string.

Lemma octet_table :
  forallb (fun n =>
    let p := list_ascii_of_string (pretty n) in
    digits13 p && bool_decide (int10 p = Some (Z.of_nat n)) &&
    negb (existsb (Ascii.eqb ".") p) && forallb isdigit p &&
    negb (length p =? 0)%nat)
    (seq 0 1000) = true.
Proof. vm_compute. reflexivity. Qed.

Lemma octet_text_pretty n :
  (n < 1000)%nat -> octet_text n (list_ascii_of_string (pretty n)).
Proof.
  intros Hn. pose proof octet_table as H.
  rewrite forallb_forall in H.
  specialize (H n ltac:(apply in_seq; lia)). cbv zeta in H.
  apply andb_true_iff in H as [H H5].
  apply andb_true_iff in H as [H H4].
  apply andb_true_iff in H as [H H3].
  apply andb_true_iff in H as [H1 H2].
  unfold octet_text. repeat split; try assumption.
  - now apply bool_decide_eq_true in H2.
  - intros Hin. apply negb_true_iff in H3.
    assert (existsb (Ascii.eqb ".") (list_ascii_of_string (pretty n)) = true)
      by (apply existsb_exists; exists "."%char; split;
          [exact Hin|apply Ascii.eqb_refl]).
    congruence.
  - intros E. rewrite E in H5. discriminate H5.
Qed.

Lemma split_none sep l : ~ In sep l -> split sep l = (l, []).
Proof.
  induction l as [|c l IH]; intros H; [reflexivity|].
  cbn [split]. rewrite IH by (intros Hin; apply H; now right).
  destruct (Ascii.eqb_spec c sep) as [->|_]; [|reflexivity].
  destruct H. now left.
Qed.

Lemma chomp_digits x p :
  forallb isdigit p = true -> p <> [] -> chomp (x ++ p) = x ++ p.
Proof.
  intros Hd Hp. unfold chomp. rewrite rev_app_distr.
  destruct (rev p) as [|c r] eqn:Er.
  - apply (f_equal (@rev ascii)) in Er. rewrite rev_involutive in Er.
    now destruct Hp.
  - cbn [app].
    assert (Hc : isdigit c = true).
    { rewrite forallb_forall in Hd. apply Hd, in_rev. rewrite Er. now left. }
    destruct (Ascii.eqb_spec c "010") as [->|_]; [discriminate Hc|reflexivity].
Qed.

Lemma octets_text a b c d :
  list_ascii_of_string (octets a b c d) =
  list_ascii_of_string (pretty a) ++ "."%char ::
  list_ascii_of_string (pretty b) ++ "."%char ::
  list_ascii_of_string (pretty c) ++ "."%char ::
  list_ascii_of_string (pretty d).
Proof.
  unfold octets. rewrite !list_ascii_of_string_app.
  change (list_ascii_of_string ".") with ["."%char].
  reflexivity.
Qed.

(** X12: an address of four decimal numbers below 1000 separated by dots
    is taken as octet form and never looked up by name.  It resolves to
    what [IP] makes of it when every number is below 256 (the empty
    string when [IP] refuses it), and to the empty string otherwise. *)
Theorem resolveipaddress_octets (a b c d : nat) :
  (a < 1000)%nat -> (b < 1000)%nat -> (c < 1000)%nat -> (d < 1000)%nat ->
  resolveipaddress IP gethostbyname (octets a b c d) =
  if (a <? 256)%nat && (b <? 256)%nat && (c <? 256)%nat && (d <? 256)%nat
  then default EmptyString (IP (octets a b c d))
  else EmptyString.
Proof.
  intros Ha Hb Hc Hd.
  destruct (octet_text_pretty a Ha) as (Ta & Ia & Da & _ & _).
  destruct (octet_text_pretty b Hb) as (Tb & Ib & Db & _ & _).
  destruct (octet_text_pretty c Hc) as (Tc & Ic & Dc & _ & _).
  destruct (octet_text_pretty d Hd) as (Td & Id & Dd & Gd & Nd).
  unfold resolveipaddress. rewrite octets_text.
  set (pa := list_ascii_of_string (pretty a)) in *.
  set (pb := list_ascii_of_string (pretty b)) in *.
  set (pc := list_ascii_of_string (pretty c)) in *.
  set (pd := list_ascii_of_string (pretty d)) in *.
  assert (Hs : split "." (pa ++ "."%char :: pb ++ "."%char :: pc ++
                          "."%char :: pd) = (pa, [pb; pc; pd])).
  { rewrite split_app_sep by exact Da. rewrite split_app_sep by exact Db.
    rewrite split_app_sep by exact Dc. now rewrite split_none by exact Dd. }
  assert (Hn : isnumericip (pa ++ "."%char :: pb ++ "."%char :: pc ++
                            "."%char :: pd) = true).
  { unfold isnumericip.
    replace (pa ++ "."%char :: pb ++ "."%char :: pc ++ "."%char :: pd)
      with ((pa ++ "."%char :: pb ++ "."%char :: pc ++ ["."%char]) ++ pd)
      by (repeat (rewrite <- app_assoc; cbn [app]); reflexivity).
    rewrite chomp_digits by assumption.
    replace ((pa ++ "."%char :: pb ++ "."%char :: pc ++ ["."%char]) ++ pd)
      with (pa ++ "."%char :: pb ++ "."%char :: pc ++ "."%char :: pd)
      by (repeat (rewrite <- app_assoc; cbn [app]); reflexivity).
    rewrite Hs. cbn [fst snd length forallb Nat.eqb andb].
    now rewrite Ta, Tb, Tc, Td. }
  rewrite Hn, Hs. cbn [fst snd length Nat.eqb all_octets andb].
  rewrite Ia, Ib, Ic, Id.
  destruct (Nat.ltb_spec a 256), (Nat.ltb_spec b 256), (Nat.ltb_spec c 256),
    (Nat.ltb_spec d 256); cbn [andb];
    repeat match goal with
    | |- context [(0 <=? Z.of_nat ?n)%Z] =>
        replace (0 <=? Z.of_nat n)%Z with true by (symmetry; apply Z.leb_le; lia)
    end;
    repeat match goal with
    | H : (?n < 256)%nat |- context [(Z.of_nat ?n <? 256)%Z] =>
        replace (Z.of_nat n <? 256)%Z with true by (symmetry; apply Z.ltb_lt; lia)
    | H : (256 <= ?n)%nat |- context [(Z.of_nat ?n <? 256)%Z] =>
        replace (Z.of_nat n <? 256)%Z with false by (symmetry; apply Z.ltb_ge; lia)
    end; reflexivity.
Qed.

End Octets.

Lemma resolveipaddress_octets_witness :
  Config.resolveipaddress (fun s => Some s) (fun _ => Some "10.9.9.9")
    "10.0.0.300" = EmptyString /\
  Config.resolveipaddress (fun s => Some s) (fun _ => Some "10.9.9.9")
    "10.0.0.30" = "10.0.0.30".
Proof.
  split.
  - apply (resolveipaddress_octets (fun s => Some s)
             (fun _ => Some "10.9.9.9") 10 0 0 300); lia.
  - apply (resolveipaddress_octets (fun s => Some s)
             (fun _ => Some "10.9.9.9") 10 0 0 30); lia.
Defined.

(** ** The part of the process data that is read *)

Section Prefix.

Lemma substring_prefix : forall s a n m,
  (a + n <= m)%nat -> substring a n (substring 0 m s) = substring a n s.
Proof.
  induction s as [|c s IH]; intros a n m H.
  - now destruct m.
  - destruct m as [|m].
    + replace a with 0%nat by lia. replace n with 0%nat by lia. reflexivity.
    + cbn [substring]. destruct a as [|a].
      * destruct n as [|n]; [reflexivity|]. cbn [substring].
        f_equal. apply IH. lia.
      * cbn [substring]. apply IH. lia.
Qed.

(** X13: for a vibration sensor (vendor 310, type 416 or 417)
    [datatojson] reads the first eleven characters of the process data
    and nothing else: whatever follows them, of whatever length, changes
    neither the measurement nor the error. *)
Theorem datatojson_reads_prefix (ipx : string) (s : sensor) (raw : string) :
  sensorvendorid s = PyInt 310 ->
  py_in (sensortype s) [416; 417]%Z = true ->
  sensorprocessdata s = PyStr raw ->
  datatojson ipx (set_sensorprocessdata (PyStr (substring 0 11 raw)) s) =
  datatojson ipx s.
Proof.
  intros Hv Ht Hp. unfold datatojson.
  cbn [set_sensorprocessdata sensorvendorid sensortype sensorprocessdata].
  rewrite Hv, Ht, Hp. cbn [py_eq Z.eqb Pos.eqb py_slice].
  rewrite !substring_prefix by (cbn; lia).
  reflexivity.
Qed.

End Prefix.

Lemma datatojson_reads_prefix_witness :
  datatojson "10.0.0.1"
    (set_sensorprocessdata (PyStr "04B0006400A") Site.vibration_ok) =
  datatojson "10.0.0.1" Site.vibration_ok.
Proof.
  exact (datatojson_reads_prefix "10.0.0.1" Site.vibration_ok
           "04B0006400A0" eq_refl eq_refl eq_refl).
Defined.
